(** * xBOUT regions: topology classification, region registry and guard-cell
      stitching (src/xbout/region.py), embedded shallowly.

    Python integers are unbounded, so every index is a [Z].  A value that may
    be [None] is an [option].  The registry ([OrderedDict]) is an association
    list in insertion order.  Exceptions are the [Err] side of [result]. *)

From Stdlib Require Import ZArith QArith Lia List String Bool.
From stdpp Require Import base list strings.

Open Scope string_scope.
Open Scope Z_scope.

(** ** Exceptions and the error monad *)

Inductive exn : Type :=
| UnsupportedTopology      (* ValueError('Currently unsupported topology') *)
| MissingBoundaryData      (* ValueError('Trying to fill a slice which is not present ...') *)
| KeyError                 (* lookup of an absent (or None) region name *)
| IndexError               (* positional index outside an array *)
| AttributeError           (* an attribute that was never set *)
| AlignmentError           (* xr.concat(join='exact') or assign_coords size mismatch *)
| RecursionError.          (* fuel of the recursive extraction exhausted *)

Inductive result (A : Type) : Type :=
| Ok (a : A)
| Err (e : exn).
Arguments Ok {A} a.
Arguments Err {A} e.

Definition bind {A B} (r : result A) (k : A -> result B) : result B :=
  match r with
  | Ok a => k a
  | Err e => Err e
  end.

Notation "'do' x <- r ; k" := (bind r (fun x => k))
  (at level 10, x name, r at level 100, k at level 200).

Definition from_option {A} (e : exn) (o : option A) : result A :=
  match o with
  | Some a => Ok a
  | None => Err e
  end.

(** ** Python slices *)

(** [slice(start, stop)] with step 1.  [None] is the default bound, a negative
    bound counts from the end, and both bounds are clipped into [0, n]. *)
Record slice : Type := Slice { start : option Z; stop : option Z }.

Definition clip_index (n : Z) (i : Z) : Z :=
  if i <? 0 then Z.max (n + i) 0 else Z.min i n.

Definition slice_bounds (n : Z) (s : slice) : Z * Z :=
  (match start s with Some i => clip_index n i | None => 0 end,
   match stop s with Some i => clip_index n i | None => n end).

Definition py_slice {A} (s : slice) (l : list A) : list A :=
  let '(lo, hi) := slice_bounds (Z.of_nat (length l)) s in
  take (Z.to_nat (hi - lo)) (drop (Z.to_nat lo) l).

(** The number of positions a slice selects from a dimension of size [n]. *)
Definition slice_length (s : slice) (n : nat) : nat :=
  let '(lo, hi) := slice_bounds (Z.of_nat n) s in Z.to_nat (hi - lo).

(** Positional indexing [l[i]]: a negative index counts from the end, an
    index outside [-n, n) raises IndexError (here [None]). *)
Definition py_index {A} (l : list A) (i : Z) : option A :=
  let n := Z.of_nat (length l) in
  if (0 <=? i) && (i <? n) then l !! Z.to_nat i
  else if (- n <=? i) && (i <? 0) then l !! Z.to_nat (n + i)
  else None.

(** ** Metadata and the dataset *)

(** The named scalar fields of [ds.metadata] that region.py reads. *)
Record Metadata : Type := {
  ixseps1 : Z;
  ixseps2 : Z;
  jyseps1_1 : Z;
  jyseps2_1 : Z;
  jyseps1_2 : Z;
  jyseps2_2 : Z;
  ny_inner : Z;
  meta_nx : Z;            (* metadata['nx'] *)
  meta_ny : Z;            (* metadata['ny'] *)
  MXG : Z;
  MYG : Z;
  keep_xboundaries : Z;   (* 1 if there are x-boundaries and 0 if there are not *)
  keep_yboundaries : Z;
  bout_xdim : string;
  bout_ydim : string
}.

(** Cell spacings are floating-point fields in the program; they are taken
    here as exact rationals, indexed [dx[x][y]]. *)
Record Dataset : Type := {
  metadata : Metadata;
  dx : list (list Q);
  dy : list (list Q)
}.

(** ** Region *)

Record RegionCoords : Type := {
  xcoord : string;
  ycoord : string;
  xinner : Q;
  xouter : Q;
  ylower : Q;
  yupper : Q
}.

(** The attributes of a [Region] object.  Every Region of this program is
    created with its four index bounds, so [nx] and [ny] are always set; the
    coordinate attributes exist only when a dataset was passed. *)
Record Region : Type := {
  name : string;
  xinner_ind : Z;
  xouter_ind : Z;
  nx : Z;
  ylower_ind : Z;
  yupper_ind : Z;
  ny : Z;
  connection_inner_x : option string;
  connection_outer_x : option string;
  connection_lower_y : option string;
  connection_upper_y : option string;
  coords : option RegionCoords
}.

Definition half (q : Q) : Q := Qred (q / (2 # 1))%Q.

Fixpoint cumsum_from (acc : Q) (l : list Q) : list Q :=
  match l with
  | [] => []
  | q :: l' => let acc' := Qred (acc + q)%Q in acc' :: cumsum_from acc' l'
  end.

Definition cumsum (l : list Q) : list Q := cumsum_from (0 # 1)%Q l.

(** [a.isel(ydim=j)] of a field indexed [a[x][y]]: the column at y-index [j]. *)
Definition isel_y_index (a : list (list Q)) (j : Z) : option (list Q) :=
  mapM (fun row => py_index row j) a.

(** [a.isel(xdim=i)]: the row at x-index [i]. *)
Definition isel_x_index (a : list (list Q)) (i : Z) : option (list Q) :=
  py_index a i.

(** Start and end coordinates of a region (lines 58-75 of [__init__]). *)
Definition Region_coords (ds : Dataset) (xi xo yl yu : Z) : option RegionCoords :=
  dx1 ← isel_y_index (dx ds) yl;
  let dx_cumsum := cumsum dx1 in
  cxi ← py_index dx_cumsum xi;
  dxi ← py_index dx1 xi;
  cxo ← py_index dx_cumsum (xo - 1);
  dxo ← py_index dx1 (xo - 1);
  dy1 ← isel_x_index (dy ds) xi;
  let dy_cumsum := cumsum dy1 in
  cyl ← py_index dy_cumsum yl;
  dyl ← py_index dy1 yl;
  cyu ← py_index dy_cumsum (yu - 1);
  dyu ← py_index dy1 (yu - 1);
  Some {| xcoord := bout_xdim (metadata ds);
          ycoord := bout_ydim (metadata ds);
          xinner := Qred (cxi - half dxi)%Q;
          xouter := Qred (cxo + half dxo)%Q;
          ylower := Qred (cyl - half dyl)%Q;
          yupper := Qred (cyu + half dyu)%Q |}.

(** [Region(name=..., ds=..., xinner_ind=..., ...)]: the connections default
    to [None]; an index outside the spacing arrays raises IndexError. *)
Definition Region_init (nm : string) (ds : option Dataset)
    (xi xo yl yu : Z) : result Region :=
  do c <- match ds with
          | None => Ok None
          | Some d => match Region_coords d xi xo yl yu with
                      | Some c => Ok (Some c)
                      | None => Err IndexError
                      end
          end;
  Ok {| name := nm;
        xinner_ind := xi; xouter_ind := xo; nx := xo - xi;
        ylower_ind := yl; yupper_ind := yu; ny := yu - yl;
        connection_inner_x := None; connection_outer_x := None;
        connection_lower_y := None; connection_upper_y := None;
        coords := c |}.

(** The dictionary [{self.xcoord: slice, self.ycoord: slice}] returned by the
    slicing methods; reading [self.xcoord] raises AttributeError when the
    Region was created without a dataset. *)
Record Slices : Type := { xslice : slice; yslice : slice }.

Definition is_not_None {A} (o : option A) : bool :=
  match o with Some _ => true | None => false end.

Definition mk_slices (r : Region) (x0 x1 y0 y1 : Z) : result Slices :=
  match coords r with
  | None => Err AttributeError
  | Some _ => Ok {| xslice := Slice (Some x0) (Some x1);
                    yslice := Slice (Some y0) (Some y1) |}
  end.

Definition get_slices (self : Region) (mxg myg : Z) : result Slices :=
  let xi := xinner_ind self in
  let xi := if is_not_None (connection_inner_x self) then xi - mxg else xi in
  let xo := xouter_ind self in
  let xi := if is_not_None (connection_outer_x self) then xi + mxg else xi in
  let yl := ylower_ind self in
  let yl := if is_not_None (connection_lower_y self) then yl - myg else yl in
  let yu := yupper_ind self in
  let yu := if is_not_None (connection_upper_y self) then yu + myg else yu in
  mk_slices self xi xo yl yu.

Definition get_inner_guards_slices (self : Region) (mxg myg : Z) : result Slices :=
  let ylower := ylower_ind self in
  let ylower := if is_not_None (connection_lower_y self) then ylower - myg else ylower in
  let yupper := yupper_ind self in
  let yupper := if is_not_None (connection_upper_y self) then yupper + myg else yupper in
  mk_slices self (xinner_ind self - mxg) (xinner_ind self) ylower yupper.

Definition get_outer_guards_slices (self : Region) (mxg myg : Z) : result Slices :=
  let ylower := ylower_ind self in
  let ylower := if is_not_None (connection_lower_y self) then ylower - myg else ylower in
  let yupper := yupper_ind self in
  let yupper := if is_not_None (connection_upper_y self) then yupper + myg else yupper in
  mk_slices self (xouter_ind self) (xouter_ind self + mxg) ylower yupper.

Definition get_lower_guards_slices (self : Region) (myg mxg : Z) : result Slices :=
  let xinner := xinner_ind self in
  let xinner := if is_not_None (connection_inner_x self) then xinner - mxg else xinner in
  let xouter := xouter_ind self in
  let xouter := if is_not_None (connection_outer_x self) then xouter + mxg else xouter in
  mk_slices self xinner xouter (ylower_ind self - myg) (ylower_ind self).

Definition get_upper_guards_slices (self : Region) (myg mxg : Z) : result Slices :=
  let xinner := xinner_ind self in
  let xinner := if is_not_None (connection_inner_x self) then xinner - mxg else xinner in
  let xouter := xouter_ind self in
  let xouter := if is_not_None (connection_outer_x self) then xouter + mxg else xouter in
  mk_slices self xinner xouter (yupper_ind self) (yupper_ind self + myg).

(** *** [Region.__eq__] *)

(** Attribute values stored in [vars(self)]. *)
Inductive attr : Type :=
| AInt (z : Z)
| AStr (s : string)
| AFloat (q : Q)
| ANone.

Definition attr_eqb (a b : attr) : bool :=
  match a, b with
  | AInt x, AInt y => x =? y
  | AStr s, AStr t => String.eqb s t
  | AFloat p, AFloat q => Qeq_bool p q
  | ANone, ANone => true
  | _, _ => false
  end.

Definition attr_of_conn (c : option string) : attr :=
  match c with Some s => AStr s | None => ANone end.

(** [vars(self)]: the instance dictionary, in the order [__init__] assigns. *)
Definition vars (self : Region) : list (string * attr) :=
  [ ("name", AStr (name self));
    ("xinner_ind", AInt (xinner_ind self));
    ("xouter_ind", AInt (xouter_ind self));
    ("nx", AInt (nx self));
    ("ylower_ind", AInt (ylower_ind self));
    ("yupper_ind", AInt (yupper_ind self));
    ("ny", AInt (ny self));
    ("connection_inner_x", attr_of_conn (connection_inner_x self));
    ("connection_outer_x", attr_of_conn (connection_outer_x self));
    ("connection_lower_y", attr_of_conn (connection_lower_y self));
    ("connection_upper_y", attr_of_conn (connection_upper_y self)) ]
  ++ match coords self with
     | None => []
     | Some c => [ ("xcoord", AStr (xcoord c)); ("ycoord", AStr (ycoord c));
                   ("xinner", AFloat (xinner c)); ("xouter", AFloat (xouter c));
                   ("ylower", AFloat (ylower c)); ("yupper", AFloat (yupper c)) ]
     end.

Fixpoint dict_get {A} (k : string) (d : list (string * A)) : option A :=
  match d with
  | [] => None
  | (k', v) :: d' => if String.eqb k k' then Some v else dict_get k d'
  end.

(** Python's [dict.__eq__]: same number of keys, and every key of the first
    is in the second with an equal value. *)
Definition dict_eqb (d1 d2 : list (string * attr)) : bool :=
  (length d1 =? length d2)%nat &&
  forallb (fun kv => match dict_get (fst kv) d2 with
                     | Some v => attr_eqb (snd kv) v
                     | None => false
                     end) d1.

(** The right-hand operand of [==]: a Region or some other Python value. *)
Inductive pyobj : Type :=
| ObjRegion (r : Region)
| ObjInt (z : Z)
| ObjStr (s : string)
| ObjNone.

Inductive eq_result : Type :=
| EqBool (b : bool)
| NotImplemented.

Definition Region_eq (self : Region) (other : pyobj) : eq_result :=
  match other with
  | ObjRegion o => EqBool (dict_eqb (vars self) (vars o))
  | _ => NotImplemented
  end.

(** ** Topology classifier *)

Definition _in_range (val lower upper : Z) : Z :=
  if val <? lower then lower
  else if val >? upper then upper
  else val.

Definition _order_vars (lower upper : Z) : Z * Z :=
  if upper <? lower then (upper, lower) else (lower, upper).

(** The seven strings [_get_topology] can return. *)
Inductive topology : Type :=
| core
| sol
| limiter
| single_null
| xpoint
| connected_double_null
| disconnected_double_null.

Definition _get_topology (ds : Dataset) : result topology :=
  let md := metadata ds in
  let jys11 := jyseps1_1 md in
  let jys21 := jyseps2_1 md in
  let nyinner := ny_inner md in
  let jys12 := jyseps1_2 md in
  let jys22 := jyseps2_2 md in
  let ny := meta_ny md in
  let ixs1 := ixseps1 md in
  let ixs2 := ixseps2 md in
  let nx := meta_nx md in
  if jys21 =? jys12 then
    (* No upper X-point *)
    if (jys11 <=? 0) && (jys22 >=? ny - 1) then
      let ix := Z.min ixs1 ixs2 in
      if ix >=? nx - 1 then Ok core
      else if ix <=? 0 then Ok sol
      else Ok limiter
    else Ok single_null
  else if (jys11 =? jys21) && (jys12 =? jys22) then
    if (jys11 <? nyinner - 1) && (jys22 >? nyinner) then Ok xpoint
    else Err UnsupportedTopology
  else if ixs1 =? ixs2 then
    if (jys21 <? nyinner - 1) && (jys12 >? nyinner) then Ok connected_double_null
    else Err UnsupportedTopology
  else Ok disconnected_double_null.

(** ** Region builder *)

(** The registry as it is read once the builder has returned: an
    [OrderedDict] from key to Region, in insertion order. *)
Definition registry : Type := list (string * Region).

(** [d[k] = v]: replaces the value of an existing key in place, appends a new
    key at the end. *)
Fixpoint dict_set {A} (k : string) (v : A) (d : list (string * A)) : list (string * A) :=
  match d with
  | [] => [(k, v)]
  | (k', v') :: d' =>
      if String.eqb k k' then (k, v) :: d' else (k', v') :: dict_set k v d'
  end.

(** [d[k]], raising KeyError for an absent key. *)
Definition dict_item {A} (k : string) (d : list (string * A)) : result A :=
  from_option KeyError (dict_get k d).

Definition set_connection_inner_x (r : Region) (c : string) : Region :=
  {| name := name r;
     xinner_ind := xinner_ind r; xouter_ind := xouter_ind r; nx := nx r;
     ylower_ind := ylower_ind r; yupper_ind := yupper_ind r; ny := ny r;
     connection_inner_x := Some c;
     connection_outer_x := connection_outer_x r;
     connection_lower_y := connection_lower_y r;
     connection_upper_y := connection_upper_y r;
     coords := coords r |}.

Definition set_connection_outer_x (r : Region) (c : string) : Region :=
  {| name := name r;
     xinner_ind := xinner_ind r; xouter_ind := xouter_ind r; nx := nx r;
     ylower_ind := ylower_ind r; yupper_ind := yupper_ind r; ny := ny r;
     connection_inner_x := connection_inner_x r;
     connection_outer_x := Some c;
     connection_lower_y := connection_lower_y r;
     connection_upper_y := connection_upper_y r;
     coords := coords r |}.

Definition set_connection_lower_y (r : Region) (c : string) : Region :=
  {| name := name r;
     xinner_ind := xinner_ind r; xouter_ind := xouter_ind r; nx := nx r;
     ylower_ind := ylower_ind r; yupper_ind := yupper_ind r; ny := ny r;
     connection_inner_x := connection_inner_x r;
     connection_outer_x := connection_outer_x r;
     connection_lower_y := Some c;
     connection_upper_y := connection_upper_y r;
     coords := coords r |}.

Definition set_connection_upper_y (r : Region) (c : string) : Region :=
  {| name := name r;
     xinner_ind := xinner_ind r; xouter_ind := xouter_ind r; nx := nx r;
     ylower_ind := ylower_ind r; yupper_ind := yupper_ind r; ny := ny r;
     connection_inner_x := connection_inner_x r;
     connection_outer_x := connection_outer_x r;
     connection_lower_y := connection_lower_y r;
     connection_upper_y := Some c;
     coords := coords r |}.

(** *** Region objects

    A Region is an object: the dictionary holds references to Regions, and
    an assignment to an attribute of [regions[k]] is seen through every
    reference to that object, also under another key.  [heap] holds the
    Region objects by address, [refdict] is the [OrderedDict] from key to
    address. *)
Abbreviation heap := (list Region) (only parsing).
Abbreviation refdict := (list (string * nat)) (only parsing).

(** Statements that read and update the objects and may raise.  What was
    assigned before an exception stays assigned. *)
Definition ST (A : Type) : Type := heap -> heap * result A.

Definition ret {A} (a : A) : ST A := fun h => (h, Ok a).

Definition lift {A} (r : result A) : ST A := fun h => (h, r).

Definition bindS {A B} (m : ST A) (k : A -> ST B) : ST B :=
  fun h => match m h with
           | (h', Ok a) => k a h'
           | (h', Err e) => (h', Err e)
           end.

Notation "'st' x <- m ; k" := (bindS m (fun x => k))
  (at level 10, x name, m at level 100, k at level 200).

(** [Region(...)]: a new object. *)
Definition new_object (r : Region) : ST nat :=
  fun h => ((h ++ [r])%list, Ok (length h)).

(** [obj.attr = v] on the object at address [i]. *)
Definition update_object (i : nat) (f : Region -> Region) : ST unit :=
  fun h => (alter f i h, Ok tt).

(** What a dictionary reads as with the objects in state [h]. *)
Definition snapshot (regions : refdict) (h : heap) : registry :=
  omap (fun kr => match h !! snd kr with
                  | Some r => Some (fst kr, r)
                  | None => None
                  end) regions.

Definition _create_connection_x (regions : refdict) (inner outer : string)
  : ST unit :=
  st i <- lift (dict_item inner regions);
  st _ <- update_object i (fun r => set_connection_outer_x r outer);
  st o <- lift (dict_item outer regions);
  update_object o (fun r => set_connection_inner_x r inner).

Definition _create_connection_y (regions : refdict) (lower upper : string)
  : ST unit :=
  st l <- lift (dict_item lower regions);
  st _ <- update_object l (fun r => set_connection_upper_y r upper);
  st u <- lift (dict_item upper regions);
  update_object u (fun r => set_connection_lower_y r lower).

(** The local variables of [_create_regions_toroidal] after the clamping and
    the adjustment for boundary cells (lines 272-315). *)
Record breakpoints : Type := {
  ixs1 : Z; ixs2 : Z; bnx : Z;
  jys11 : Z; jys21 : Z; nyinner : Z; jys12 : Z; jys22 : Z; bny : Z;
  ybndry : Z
}.

Definition adjust_breakpoints (md : Metadata) : breakpoints :=
  let ixs1 := ixseps1 md in
  let ixs2 := ixseps2 md in
  let nx := meta_nx md in
  let jys11 := jyseps1_1 md in
  let jys21 := jyseps2_1 md in
  let nyinner := ny_inner md in
  let jys12 := jyseps1_2 md in
  let jys22 := jyseps2_2 md in
  let ny := meta_ny md in
  let mxg := MXG md in
  let myg := MYG md in
  (* keep_yboundaries is 1 if there are y-boundaries and 0 if there are not *)
  let ybndry := keep_yboundaries md * myg in
  let ybndry_upper := if jys21 =? jys12 then 0 else ybndry in
  (* Make sure all sizes are sensible *)
  let ixs1 := _in_range ixs1 0 nx in
  let ixs2 := _in_range ixs2 0 nx in
  let '(ixs1, ixs2) := _order_vars ixs1 ixs2 in
  let jys11 := _in_range jys11 0 (ny - 1) in
  let jys21 := _in_range jys21 0 (ny - 1) in
  let jys12 := _in_range jys12 0 (ny - 1) in
  let '(jys21, jys12) := _order_vars jys21 jys12 in
  let nyinner := _in_range nyinner (jys21 + 1) (jys12 + 1) in
  let jys22 := _in_range jys22 0 (ny - 1) in
  (* Adjust for boundary cells *)
  let not_keep_x := keep_xboundaries md =? 0 in
  let ixs1 := if not_keep_x then ixs1 - mxg else ixs1 in
  let ixs2 := if not_keep_x then ixs2 - mxg else ixs2 in
  let nx := if not_keep_x then nx - 2 * mxg else nx in
  let jys11 := jys11 + ybndry in
  let jys21 := jys21 + ybndry in
  let nyinner := nyinner + (ybndry + ybndry_upper) in
  let jys12 := jys12 + (ybndry + 2 * ybndry_upper) in
  let jys22 := jys22 + (ybndry + 2 * ybndry_upper) in
  let ny := ny + (2 * ybndry + 2 * ybndry_upper) in
  {| ixs1 := ixs1; ixs2 := ixs2; bnx := nx;
     jys11 := jys11; jys21 := jys21; nyinner := nyinner;
     jys12 := jys12; jys22 := jys22; bny := ny; ybndry := ybndry |}.

(** One statement [regions[key] = Region(name=nm, ds=ds, xinner_ind=..., ...)]. *)
Record region_stmt : Type := RegionStmt {
  rs_key : string; rs_name : string;
  rs_xinner : Z; rs_xouter : Z; rs_ylower : Z; rs_yupper : Z
}.

(** [regions[key] = Region(name=..., ds=ds, ...)], one statement after the
    other: every statement creates an object of its own. *)
Fixpoint add_regions (ds : Dataset) (stmts : list region_stmt) (regions : refdict)
  : ST refdict :=
  match stmts with
  | [] => ret regions
  | s :: stmts' =>
      st r <- lift (Region_init (rs_name s) (Some ds)
                      (rs_xinner s) (rs_xouter s) (rs_ylower s) (rs_yupper s));
      st i <- new_object r;
      add_regions ds stmts' (dict_set (rs_key s) i regions)
  end.

Fixpoint connect_all (create : refdict -> string -> string -> ST unit)
    (pairs : list (string * string)) (regions : refdict) : ST unit :=
  match pairs with
  | [] => ret tt
  | (a, b) :: pairs' =>
      st _ <- create regions a b;
      connect_all create pairs' regions
  end.

(** The dictionary a block of statements returns, read when it returns;
    the statements start without objects. *)
Definition returned (m : ST refdict) : result registry :=
  match m [] with
  | (h, Ok regions) => Ok (snapshot regions h)
  | (_, Err e) => Err e
  end.

(** The statements of one topology branch: the Region assignments, then the
    calls of [_create_connection_x], then those of [_create_connection_y]. *)
Record branch : Type := Branch {
  br_regions : list region_stmt;
  br_connections_x : list (string * string);
  br_connections_y : list (string * string)
}.

Definition same_name (k : string) (xi xo yl yu : Z) : region_stmt :=
  RegionStmt k k xi xo yl yu.

(** The seven branches of [_create_regions_toroidal] (lines 319-525). *)

Definition disconnected_double_null_branch (b : breakpoints) : branch :=
  Branch
    [ same_name "lower_inner_PFR" 0 (ixs1 b) 0 (jys11 b + 1);
      same_name "lower_inner_intersep" (ixs1 b) (ixs2 b) 0 (jys11 b + 1);
      same_name "lower_inner_SOL" (ixs2 b) (bnx b) 0 (jys11 b + 1);
      same_name "inner_core" 0 (ixs1 b) (jys11 b + 1) (jys21 b + 1);
      same_name "inner_intersep" (ixs1 b) (ixs2 b) (jys11 b + 1) (jys21 b + 1);
      same_name "inner_SOL" (ixs2 b) (bnx b) (jys11 b + 1) (jys21 b + 1);
      same_name "upper_inner_PFR" 0 (ixs1 b) (jys21 b + 1) (nyinner b);
      same_name "upper_inner_intersep" (ixs1 b) (ixs2 b) (jys21 b + 1) (nyinner b);
      same_name "upper_inner_SOL" (ixs2 b) (bnx b) (jys21 b + 1) (nyinner b);
      same_name "upper_outer_PFR" 0 (ixs1 b) (nyinner b) (jys12 b + 1);
      same_name "upper_outer_intersep" (ixs1 b) (ixs2 b) (nyinner b) (jys12 b + 1);
      same_name "upper_outer_SOL" (ixs2 b) (bnx b) (nyinner b) (jys12 b + 1);
      same_name "outer_core" 0 (ixs1 b) (jys12 b + 1) (jys22 b + 1);
      same_name "outer_intersep" (ixs1 b) (ixs2 b) (jys12 b + 1) (jys22 b + 1);
      same_name "outer_SOL" (ixs2 b) (bnx b) (jys12 b + 1) (jys22 b + 1);
      same_name "lower_outer_PFR" 0 (ixs1 b) (jys22 b + 1) (bny b);
      same_name "lower_outer_intersep" (ixs1 b) (ixs2 b) (jys22 b + 1) (bny b);
      same_name "lower_outer_SOL" (ixs2 b) (bnx b) (jys22 b + 1) (bny b) ]
    [ ("lower_inner_PFR", "lower_inner_intersep");
      ("lower_inner_intersep", "lower_inner_SOL");
      ("inner_core", "inner_intersep");
      ("inner_intersep", "inner_SOL");
      ("upper_inner_PFR", "upper_inner_intersep");
      ("upper_inner_intersep", "upper_inner_SOL");
      ("upper_outer_PFR", "upper_outer_intersep");
      ("upper_outer_intersep", "upper_outer_SOL");
      ("outer_core", "outer_intersep");
      ("outer_intersep", "outer_SOL");
      ("lower_outer_PFR", "lower_outer_intersep");
      ("lower_outer_intersep", "lower_outer_SOL") ]
    [ ("lower_inner_PFR", "lower_outer_PFR");
      ("lower_inner_intersep", "inner_intersep");
      ("lower_inner_SOL", "inner_SOL");
      ("inner_core", "outer_core");
      ("outer_core", "inner_core");
      ("inner_intersep", "outer_intersep");
      ("inner_SOL", "upper_inner_SOL");
      ("upper_outer_intersep", "upper_inner_intersep");
      ("upper_outer_PFR", "upper_inner_PFR");
      ("upper_outer_SOL", "outer_SOL");
      ("outer_intersep", "lower_outer_intersep");
      ("outer_SOL", "lower_outer_SOL") ].

Definition connected_double_null_branch (b : breakpoints) : branch :=
  Branch
    [ same_name "lower_inner_PFR" 0 (ixs1 b) 0 (jys11 b + 1);
      same_name "lower_inner_SOL" (ixs2 b) (bnx b) 0 (jys11 b + 1);
      same_name "inner_core" 0 (ixs1 b) (jys11 b + 1) (jys21 b + 1);
      same_name "inner_SOL" (ixs2 b) (bnx b) (jys11 b + 1) (jys21 b + 1);
      same_name "upper_inner_PFR" 0 (ixs1 b) (jys21 b + 1) (nyinner b);
      same_name "upper_inner_SOL" (ixs2 b) (bnx b) (jys21 b + 1) (nyinner b);
      same_name "upper_outer_PFR" 0 (ixs1 b) (nyinner b) (jys12 b + 1);
      same_name "upper_outer_SOL" (ixs2 b) (bnx b) (nyinner b) (jys12 b + 1);
      same_name "outer_core" 0 (ixs1 b) (jys12 b + 1) (jys22 b + 1);
      same_name "outer_SOL" (ixs2 b) (bnx b) (jys12 b + 1) (jys22 b + 1);
      same_name "lower_outer_PFR" 0 (ixs1 b) (jys22 b + 1) (bny b);
      same_name "lower_outer_SOL" (ixs2 b) (bnx b) (jys22 b + 1) (bny b) ]
    [ ("lower_inner_PFR", "lower_inner_SOL");
      ("inner_core", "inner_SOL");
      ("upper_inner_PFR", "upper_inner_SOL");
      ("upper_outer_PFR", "upper_outer_SOL");
      ("outer_core", "outer_SOL");
      ("lower_outer_PFR", "lower_outer_SOL") ]
    [ ("lower_inner_PFR", "lower_outer_PFR");
      ("lower_inner_SOL", "inner_SOL");
      ("inner_core", "outer_core");
      ("outer_core", "inner_core");
      ("inner_SOL", "upper_inner_SOL");
      ("upper_outer_PFR", "upper_inner_PFR");
      ("upper_outer_SOL", "outer_SOL");
      ("outer_SOL", "lower_outer_SOL") ].

Definition single_null_branch (b : breakpoints) : branch :=
  Branch
    [ same_name "inner_PFR" 0 (ixs1 b) 0 (jys11 b + 1);
      same_name "inner_SOL" (ixs1 b) (bnx b) 0 (jys11 b + 1);
      same_name "core" 0 (ixs1 b) (jys11 b + 1) (jys22 b + 1);
      same_name "SOL" (ixs1 b) (bnx b) (jys11 b + 1) (jys22 b + 1);
      RegionStmt "outer_PFR" "lower_PFR" 0 (ixs1 b) (jys22 b + 1) (bny b);
      RegionStmt "outer_SOL" "lower_SOL" (ixs1 b) (bnx b) (jys22 b + 1) (bny b) ]
    [ ("inner_PFR", "inner_SOL");
      ("core", "SOL");
      ("outer_PFR", "outer_SOL") ]
    [ ("inner_PFR", "outer_PFR");
      ("inner_SOL", "SOL");
      ("core", "core");
      ("SOL", "outer_SOL") ].

Definition limiter_branch (b : breakpoints) : branch :=
  Branch
    [ same_name "core" 0 (ixs1 b) (ybndry b) (bny b - ybndry b);
      same_name "SOL" (ixs1 b) (bnx b) 0 (bny b) ]
    [ ("core", "SOL") ]
    [ ("core", "core") ].

Definition core_branch (b : breakpoints) : branch :=
  Branch
    [ same_name "core" 0 (bnx b) (ybndry b) (bny b - ybndry b) ]
    []
    [ ("core", "core") ].

Definition sol_branch (b : breakpoints) : branch :=
  Branch
    [ same_name "SOL" 0 (bnx b) 0 (bny b) ]
    []
    [].

Definition xpoint_branch (b : breakpoints) : branch :=
  Branch
    [ same_name "lower_inner_PFR" 0 (ixs1 b) 0 (jys11 b + 1);
      same_name "lower_inner_SOL" (ixs1 b) (bnx b) 0 (jys11 b + 1);
      same_name "upper_inner_PFR" 0 (ixs1 b) (jys11 b + 1) (nyinner b);
      same_name "upper_inner_SOL" (ixs1 b) (bnx b) (jys11 b + 1) (nyinner b);
      same_name "upper_outer_PFR" 0 (ixs1 b) (nyinner b) (jys22 b + 1);
      same_name "upper_outer_SOL" (ixs1 b) (bnx b) (nyinner b) (jys22 b + 1);
      same_name "lower_outer_PFR" 0 (ixs1 b) (jys22 b + 1) (bny b);
      same_name "lower_outer_SOL" (ixs1 b) (bnx b) (jys22 b + 1) (bny b) ]
    [ ("lower_inner_PFR", "lower_inner_SOL");
      ("upper_inner_PFR", "upper_inner_SOL");
      ("upper_outer_PFR", "upper_outer_SOL");
      ("lower_outer_PFR", "lower_outer_SOL") ]
    [ ("lower_inner_PFR", "lower_outer_PFR");
      ("lower_inner_SOL", "upper_inner_SOL");
      ("upper_outer_PFR", "upper_inner_PFR");
      ("upper_outer_SOL", "lower_outer_SOL") ].

Definition branch_of (t : topology) : breakpoints -> branch :=
  match t with
  | disconnected_double_null => disconnected_double_null_branch
  | connected_double_null => connected_double_null_branch
  | single_null => single_null_branch
  | limiter => limiter_branch
  | core => core_branch
  | sol => sol_branch
  | xpoint => xpoint_branch
  end.

Definition run_branch (ds : Dataset) (br : branch) : result registry :=
  returned (
    st regions <- add_regions ds (br_regions br) [];
    st _ <- connect_all _create_connection_x (br_connections_x br) regions;
    st _ <- connect_all _create_connection_y (br_connections_y br) regions;
    ret regions).

(** Returns the registry that is attached to every variable of [ds].  The
    final [else: raise NotImplementedError] is not reachable: [_get_topology]
    returns one of the seven tags or raises. *)
Definition _create_regions_toroidal (ds : Dataset) : result registry :=
  do t <- _get_topology ds;
  run_branch ds (branch_of t (adjust_breakpoints (metadata ds))).

(** ** Labelled arrays *)

(** A two-dimensional [DataArray] over the radial and poloidal dimensions:
    the cell values [values[x][y]], the size of the poloidal dimension (an
    array without x-points still has it), the two dimension coordinates when
    they are attached, and the attributes region.py reads.  Cell values are
    opaque (type [V]); coordinate values are rationals. *)
Record DataArray (V : Type) : Type := {
  values : list (list V);
  ysize : nat;                  (* sizes[ydim] *)
  xcoords : option (list Q);
  ycoords : option (list Q);
  region : option Region;       (* attrs['region'] *)
  regions : registry;           (* attrs['regions'] *)
  da_metadata : Metadata        (* attrs['metadata'] *)
}.
Arguments values {V} _.
Arguments ysize {V} _.
Arguments xcoords {V} _.
Arguments ycoords {V} _.
Arguments region {V} _.
Arguments regions {V} _.
Arguments da_metadata {V} _.

Section Arrays.
Context {V : Type}.

Definition size_x (da : DataArray V) : nat := length (values da).

Definition size_y (da : DataArray V) : nat := ysize da.

Definition with_values (da : DataArray V) (v : list (list V)) (m : nat)
    (xc yc : option (list Q)) : DataArray V :=
  {| values := v; ysize := m; xcoords := xc; ycoords := yc;
     region := region da; regions := regions da;
     da_metadata := da_metadata da |}.

(** [da.attrs['region'] = r] *)
Definition set_region (da : DataArray V) (r : Region) : DataArray V :=
  {| values := values da; ysize := ysize da;
     xcoords := xcoords da; ycoords := ycoords da;
     region := Some r; regions := regions da; da_metadata := da_metadata da |}.

(** [da.region]: AttributeError when the attribute is not set. *)
Definition get_region (da : DataArray V) : result Region :=
  from_option AttributeError (region da).

(** [da.isel(xdim=xs, ydim=ys)]: positional slicing of the values and of
    the attached coordinates; attributes are kept. *)
Definition isel (da : DataArray V) (xs ys : slice) : DataArray V :=
  with_values da (map (py_slice ys) (py_slice xs (values da)))
    (slice_length ys (size_y da))
    (py_slice xs <$> xcoords da) (py_slice ys <$> ycoords da).

Definition all_ : slice := Slice None None.

Definition arange (n : nat) : list Q := map (fun i => inject_Z (Z.of_nat i)) (seq 0 n).

(** [da[xdim]] and [da[ydim]]: the coordinate values, or the default integer
    index of a dimension without coordinate. *)
Definition xcoord_of (da : DataArray V) : list Q :=
  match xcoords da with Some c => c | None => arange (size_x da) end.

Definition ycoord_of (da : DataArray V) : list Q :=
  match ycoords da with Some c => c | None => arange (size_y da) end.

(** [da.assign_coords(xdim=cx, ydim=cy)]: a coordinate whose length differs
    from the size of its dimension is rejected. *)
Definition assign_coords (da : DataArray V) (cx cy : list Q) : result (DataArray V) :=
  if negb (length cx =? size_x da)%nat then Err AlignmentError
  else if negb (length cy =? size_y da)%nat then Err AlignmentError
  else Ok (with_values da (values da) (size_y da) (Some cx) (Some cy)).

Definition coords_eqb (a b : list Q) : bool :=
  (length a =? length b)%nat && forallb (fun p => Qeq_bool (fst p) (snd p)) (zip a b).

(** Alignment of the dimension that is not concatenated, [join='exact']:
    equal sizes, and equal labels when both arrays carry the coordinate. *)
Definition exact (na nb : nat) (ca cb : option (list Q)) : bool :=
  (na =? nb)%nat &&
  match ca, cb with
  | Some a, Some b => coords_eqb a b
  | _, _ => true
  end.

(** The coordinate of the concatenated dimension: present in both arrays
    or in neither. *)
Definition concat_coords (ca cb : option (list Q)) : result (option (list Q)) :=
  match ca, cb with
  | Some a, Some b => Ok (Some (a ++ b)%list)
  | None, None => Ok None
  | _, _ => Err AlignmentError
  end.

Definition first_some (ca cb : option (list Q)) : option (list Q) :=
  match ca with Some _ => ca | None => cb end.

(** [xr.concat((a, b), xdim, join='exact')]; attributes come from [a]. *)
Definition concat_x (a b : DataArray V) : result (DataArray V) :=
  if negb (exact (size_y a) (size_y b) (ycoords a) (ycoords b))
  then Err AlignmentError
  else
    do xc <- concat_coords (xcoords a) (xcoords b);
    Ok (with_values a (values a ++ values b)%list (size_y a) xc
          (first_some (ycoords a) (ycoords b))).

(** [xr.concat((a, b), ydim, join='exact')]; attributes come from [a]. *)
Definition concat_y (a b : DataArray V) : result (DataArray V) :=
  if negb (exact (size_x a) (size_x b) (xcoords a) (xcoords b))
  then Err AlignmentError
  else
    do yc <- concat_coords (ycoords a) (ycoords b);
    Ok (with_values a (zip_with app (values a) (values b))
          (size_y a + size_y b)
          (first_some (xcoords a) (xcoords b)) yc).
End Arrays.

(** ** Guard-cell stitcher *)

Section Stitcher.
Context {V : Type}.

(** [da_global.bout.from_region(name, with_guards={xdim: mxg, ydim: myg})].
    The accessor method lives in another module of the package and calls
    back into the four functions below, so they take it as a parameter. *)
Variable from_region : DataArray V -> option string -> Z -> Z -> result (DataArray V).

(** [myg_da > 0 and keep_yboundaries] *)
Definition has_yboundary_cells (da_global : DataArray V) : bool :=
  (MYG (da_metadata da_global) >? 0) &&
  negb (keep_yboundaries (da_metadata da_global) =? 0).

Definition is_None {A} (o : option A) : bool := negb (is_not_None o).

Definition _concat_inner_guards (da da_global : DataArray V) (mxg : Z)
  : result (DataArray V) :=
  if mxg <=? 0 then Ok da
  else
    let myg_da := MYG (da_metadata da_global) in
    do da_region <- get_region da;
    do da_inner <- from_region da_global (connection_inner_x da_region) 0 0;
    do inner_region <- get_region da_inner;
    let da_inner :=
      if has_yboundary_cells da_global
         && is_not_None (connection_lower_y da_region)
         && is_None (connection_lower_y inner_region)
      then isel da_inner all_ (Slice (Some myg_da) None)
      else da_inner in
    let da_inner :=
      if has_yboundary_cells da_global
         && is_not_None (connection_upper_y da_region)
         && is_None (connection_upper_y inner_region)
      then isel da_inner all_ (Slice None (Some (- myg_da)))
      else da_inner in
    (* select just the points we need to fill the guard cells of da *)
    let da_inner := isel da_inner (Slice (Some (- mxg)) None) all_ in
    do da_inner <-
      (if has_yboundary_cells da_global
         && is_None (connection_lower_y da_region)
         && is_not_None (connection_lower_y inner_region)
      then
        do da_inner_lower <-
          from_region da_global (connection_lower_y inner_region) 0 0;
        let da_inner_lower :=
          isel da_inner_lower (Slice (Some (- mxg)) None)
               (Slice (Some (- myg_da)) None) in
        do c <- concat_y da_inner_lower da_inner;
        Ok (set_region c inner_region)
      else Ok da_inner);
    do da_inner <-
      (if has_yboundary_cells da_global
         && is_None (connection_upper_y da_region)
         && is_not_None (connection_upper_y inner_region)
      then
        do da_inner_upper <-
          from_region da_global (connection_upper_y inner_region) 0 0;
        let da_inner_upper :=
          isel da_inner_upper (Slice (Some (- mxg)) None)
               (Slice None (Some myg_da)) in
        concat_y da_inner da_inner_upper
      else Ok da_inner);
    do da_inner <-
      (if is_not_None (xcoords da) then
        do slices <- get_inner_guards_slices da_region mxg 0;
        let new_xcoord := py_slice (xslice slices) (xcoord_of da_global) in
        let new_ycoord := py_slice (yslice slices) (ycoord_of da_global) in
        assign_coords da_inner new_xcoord new_ycoord
      else Ok da_inner);
    do da' <- concat_x da_inner da;
    Ok (set_region da' da_region).

Definition _concat_outer_guards (da da_global : DataArray V) (mxg : Z)
  : result (DataArray V) :=
  if mxg <=? 0 then Ok da
  else
    let myg_da := MYG (da_metadata da_global) in
    do da_region <- get_region da;
    do da_outer <- from_region da_global (connection_outer_x da_region) 0 0;
    do outer_region <- get_region da_outer;
    let da_outer :=
      if has_yboundary_cells da_global
         && is_not_None (connection_lower_y da_region)
         && is_None (connection_lower_y outer_region)
      then isel da_outer all_ (Slice (Some myg_da) None)
      else da_outer in
    let da_outer :=
      if has_yboundary_cells da_global
         && is_not_None (connection_upper_y da_region)
         && is_None (connection_upper_y outer_region)
      then isel da_outer all_ (Slice None (Some (- myg_da)))
      else da_outer in
    (* select just the points we need to fill the guard cells of da *)
    let da_outer := isel da_outer (Slice None (Some mxg)) all_ in
    do da_outer <-
      (if has_yboundary_cells da_global
         && is_None (connection_lower_y da_region)
         && is_not_None (connection_lower_y outer_region)
      then
        do da_outer_lower <-
          from_region da_global (connection_lower_y outer_region) 0 0;
        let da_outer_lower :=
          isel da_outer_lower (Slice (Some (- mxg)) None)
               (Slice (Some (- myg_da)) None) in
        do c <- concat_y da_outer_lower da_outer;
        Ok (set_region c outer_region)
      else Ok da_outer);
    do da_outer <-
      (if has_yboundary_cells da_global
         && is_None (connection_upper_y da_region)
         && is_not_None (connection_upper_y outer_region)
      then
        do da_outer_upper <-
          from_region da_global (connection_upper_y outer_region) 0 0;
        let da_outer_upper :=
          isel da_outer_upper (Slice (Some (- mxg)) None)
               (Slice None (Some myg_da)) in
        concat_y da_outer da_outer_upper
      else Ok da_outer);
    do da_outer <-
      (if is_not_None (xcoords da) then
        do slices <- get_outer_guards_slices da_region mxg 0;
        let new_xcoord := py_slice (xslice slices) (xcoord_of da_global) in
        let new_ycoord := py_slice (yslice slices) (ycoord_of da_global) in
        assign_coords da_outer new_xcoord new_ycoord
      else Ok da_outer);
    do da' <- concat_x da da_outer;
    Ok (set_region da' da_region).

Definition slice_start (s : slice) : Z := default 0 (start s).
Definition slice_stop (s : slice) : Z := default 0 (stop s).

Definition _concat_lower_guards (da da_global : DataArray V) (mxg myg : Z)
  : result (DataArray V) :=
  if myg <=? 0 then Ok da
  else
    do da_region <- get_region da;
    do da_lower <- from_region da_global (connection_lower_y da_region) mxg 0;
    (* select just the points we need to fill the guard cells of da *)
    let da_lower := isel da_lower all_ (Slice (Some (- myg)) None) in
    do da_lower <-
      (if is_not_None (ycoords da) then
        do slices <- get_lower_guards_slices da_region myg mxg;
        if slice_start (yslice slices) <? 0 then Err MissingBoundaryData
        else
          let new_xcoord := py_slice (xslice slices) (xcoord_of da_global) in
          let new_ycoord := py_slice (yslice slices) (ycoord_of da_global) in
          assign_coords da_lower new_xcoord new_ycoord
      else Ok da_lower);
    do da' <- concat_y da_lower da;
    Ok (set_region da' da_region).

Definition _concat_upper_guards (da da_global : DataArray V) (mxg myg : Z)
  : result (DataArray V) :=
  if myg <=? 0 then Ok da
  else
    do da_region <- get_region da;
    do da_upper <- from_region da_global (connection_upper_y da_region) mxg 0;
    (* select just the points we need to fill the guard cells of da *)
    let da_upper := isel da_upper all_ (Slice None (Some myg)) in
    do da_upper <-
      (if is_not_None (ycoords da) then
        do slices <- get_upper_guards_slices da_region myg mxg;
        if slice_stop (yslice slices) >? Z.of_nat (size_y da_global)
        then Err MissingBoundaryData
        else
          let new_xcoord := py_slice (xslice slices) (xcoord_of da_global) in
          let new_ycoord := py_slice (yslice slices) (ycoord_of da_global) in
          assign_coords da_upper new_xcoord new_ycoord
      else Ok da_upper);
    do da' <- concat_y da da_upper;
    Ok (set_region da' da_region).
End Stitcher.

(** ** Region extraction *)

Section Extraction.
Context {V : Type}.

(** Modelled from the spec: [from_region], the accessor method of the
    package that region.py calls ([extract_region] in the spec), is not
    part of the sources at hand.  It looks the name up in the registry
    (an absent name, or [None], is a KeyError), takes the region's interior
    with [get_slices()], records the region on the result, and applies the
    stitcher on every edge that has a connection.  The call-backs from the
    stitchers ask for fewer guards each time ((mxg, myg), then (mxg, 0),
    then (0, 0)), so three levels of recursion are enough. *)
Fixpoint from_region_fuel (fuel : nat) (data : DataArray V)
    (name : option string) (mxg myg : Z) : result (DataArray V) :=
  match fuel with
  | O => Err RecursionError
  | S fuel' =>
      do key <- from_option KeyError name;
      do r <- dict_item key (regions data);
      do slices <- get_slices r 0 0;
      let da := set_region (isel data (xslice slices) (yslice slices)) r in
      do da <- (if is_not_None (connection_inner_x r)
                then _concat_inner_guards (from_region_fuel fuel') da data mxg
                else Ok da);
      do da <- (if is_not_None (connection_outer_x r)
                then _concat_outer_guards (from_region_fuel fuel') da data mxg
                else Ok da);
      do da <- (if is_not_None (connection_lower_y r)
                then _concat_lower_guards (from_region_fuel fuel') da data mxg myg
                else Ok da);
      if is_not_None (connection_upper_y r)
      then _concat_upper_guards (from_region_fuel fuel') da data mxg myg
      else Ok da
  end.

Definition from_region : DataArray V -> option string -> Z -> Z -> result (DataArray V) :=
  from_region_fuel 3.
End Extraction.

(** ** Example datasets *)

Definition unit_field (n m : nat) : list (list Q) := repeat (repeat (1 # 1)%Q m) n.

(** A single-null grid: 6 x 14 cells plus two boundary rows at each target. *)
Definition md_single_null : Metadata :=
  {| ixseps1 := 3; ixseps2 := 3;
     jyseps1_1 := 2; jyseps2_1 := 6; jyseps1_2 := 6; jyseps2_2 := 10;
     ny_inner := 7; meta_nx := 6; meta_ny := 14; MXG := 2; MYG := 2;
     keep_xboundaries := 1; keep_yboundaries := 1;
     bout_xdim := "x"; bout_ydim := "theta" |}.

Definition ds_single_null : Dataset :=
  {| metadata := md_single_null; dx := unit_field 6 18; dy := unit_field 6 18 |}.

(** A disconnected double-null grid: 8 x 24 cells plus boundary rows at the
    four targets. *)
Definition md_double_null : Metadata :=
  {| ixseps1 := 3; ixseps2 := 5;
     jyseps1_1 := 3; jyseps2_1 := 7; jyseps1_2 := 15; jyseps2_2 := 19;
     ny_inner := 12; meta_nx := 8; meta_ny := 24; MXG := 2; MYG := 2;
     keep_xboundaries := 1; keep_yboundaries := 1;
     bout_xdim := "x"; bout_ydim := "theta" |}.

Definition ds_double_null : Dataset :=
  {| metadata := md_double_null; dx := unit_field 8 32; dy := unit_field 8 32 |}.

(** A core-only grid of 4 x 8 cells, read with its boundary cells. *)
Definition md_core : Metadata :=
  {| ixseps1 := 4; ixseps2 := 4;
     jyseps1_1 := -1; jyseps2_1 := 3; jyseps1_2 := 3; jyseps2_2 := 7;
     ny_inner := 4; meta_nx := 4; meta_ny := 8; MXG := 2; MYG := 2;
     keep_xboundaries := 1; keep_yboundaries := 1;
     bout_xdim := "x"; bout_ydim := "theta" |}.

Definition ds_core : Dataset :=
  {| metadata := md_core; dx := unit_field 4 12; dy := unit_field 4 12 |}.

(** An open-field-line grid of 6 x 8 cells, read without x-boundary cells. *)
Definition md_sol : Metadata :=
  {| ixseps1 := 0; ixseps2 := 0;
     jyseps1_1 := -1; jyseps2_1 := 3; jyseps1_2 := 3; jyseps2_2 := 7;
     ny_inner := 4; meta_nx := 6; meta_ny := 8; MXG := 2; MYG := 2;
     keep_xboundaries := 0; keep_yboundaries := 0;
     bout_xdim := "x"; bout_ydim := "theta" |}.

Definition ds_sol : Dataset :=
  {| metadata := md_sol; dx := unit_field 2 8; dy := unit_field 2 8 |}.


(** A single-null grid whose separatrix sits on the inner x-edge. *)
Definition md_separatrix_at_edge : Metadata :=
  {| ixseps1 := 0; ixseps2 := 0;
     jyseps1_1 := 2; jyseps2_1 := 6; jyseps1_2 := 6; jyseps2_2 := 10;
     ny_inner := 7; meta_nx := 6; meta_ny := 14; MXG := 2; MYG := 2;
     keep_xboundaries := 1; keep_yboundaries := 1;
     bout_xdim := "x"; bout_ydim := "theta" |}.

Definition ds_separatrix_at_edge : Dataset :=
  {| metadata := md_separatrix_at_edge;
     dx := unit_field 6 18; dy := unit_field 6 18 |}.

(** A global array whose cell [(i, j)] holds [100 * i + j]. *)
Definition cell_values (n m : nat) : list (list Z) :=
  map (fun i => map (fun j => 100 * Z.of_nat i + Z.of_nat j) (seq 0 m)) (seq 0 n).

Definition global_array (md : Metadata) (regs : registry) (n m : nat)
    (with_coords : bool) : DataArray Z :=
  {| values := cell_values n m;
     ysize := m;
     xcoords := if with_coords then Some (arange n) else None;
     ycoords := if with_coords then Some (arange m) else None;
     region := None;
     regions := regs;
     da_metadata := md |}.

Definition registry_of (ds : Dataset) : registry :=
  match _create_regions_toroidal ds with
  | Ok regs => regs
  | Err _ => []
  end.

(** A core-only grid of 4 x 8 cells, read without its boundary cells. *)
Definition md_core_no_boundaries : Metadata :=
  {| ixseps1 := 4; ixseps2 := 4;
     jyseps1_1 := -1; jyseps2_1 := 3; jyseps1_2 := 3; jyseps2_2 := 7;
     ny_inner := 4; meta_nx := 4; meta_ny := 8; MXG := 0; MYG := 2;
     keep_xboundaries := 1; keep_yboundaries := 0;
     bout_xdim := "x"; bout_ydim := "theta" |}.

Definition ds_core_no_boundaries : Dataset :=
  {| metadata := md_core_no_boundaries;
     dx := unit_field 4 8; dy := unit_field 4 8 |}.

(** A limiter grid of 6 x 8 cells plus two boundary rows at each end. *)
Definition md_limiter : Metadata :=
  {| ixseps1 := 3; ixseps2 := 3;
     jyseps1_1 := -1; jyseps2_1 := 3; jyseps1_2 := 3; jyseps2_2 := 7;
     ny_inner := 4; meta_nx := 6; meta_ny := 8; MXG := 2; MYG := 2;
     keep_xboundaries := 1; keep_yboundaries := 1;
     bout_xdim := "x"; bout_ydim := "theta" |}.

Definition ds_limiter : Dataset :=
  {| metadata := md_limiter; dx := unit_field 6 12; dy := unit_field 6 12 |}.

(** The layout of the limiter grid with the two regions exchanged in x: the
    open region [SOL] (full y-range, no y-connection) inside, the periodic
    region [core] outside.  The registry is put together with [Region] and
    the two connection functions. *)
Definition regions_core_outside : result registry :=
  returned (
    st r_sol <- lift (Region_init "SOL" (Some ds_limiter) 0 3 0 12);
    st sol <- new_object r_sol;
    st r_core <- lift (Region_init "core" (Some ds_limiter) 3 6 2 10);
    st core <- new_object r_core;
    let regions := dict_set "core" core (dict_set "SOL" sol []) in
    st _ <- _create_connection_x regions "SOL" "core";
    st _ <- _create_connection_y regions "core" "core";
    ret regions).

Definition registry_core_outside : registry :=
  match regions_core_outside with
  | Ok regs => regs
  | Err _ => []
  end.

(** Global arrays on these grids, with and without attached coordinates. *)
Definition global_limiter : DataArray Z :=
  global_array md_limiter (registry_of ds_limiter) 6 12 true.

Definition global_core_outside : DataArray Z :=
  global_array md_limiter registry_core_outside 6 12 false.

Definition global_core_bare : DataArray Z :=
  global_array md_core_no_boundaries (registry_of ds_core_no_boundaries) 4 8 false.

Definition global_core_labelled : DataArray Z :=
  global_array md_core_no_boundaries (registry_of ds_core_no_boundaries) 4 8 true.

Definition get_ok {A} (r : result A) (d : A) : A :=
  match r with Ok a => a | Err _ => d end.

(** Region [core] of the limiter grid, and the outer-x stitcher applied to
    it once and twice with [mxg = 2]. *)
Definition limiter_core : DataArray Z :=
  Eval vm_compute in
    get_ok (from_region global_limiter (Some "core") 0 0) global_limiter.

Definition limiter_core_stitched : DataArray Z :=
  Eval vm_compute in
    get_ok (_concat_outer_guards from_region limiter_core global_limiter 2)
           global_limiter.

Definition limiter_core_stitched_twice : DataArray Z :=
  Eval vm_compute in
    get_ok (_concat_outer_guards from_region limiter_core_stitched global_limiter 2)
           global_limiter.

(** Region [core] of the core-only grid with attached coordinates. *)
Definition core_labelled : DataArray Z :=
  Eval vm_compute in
    get_ok (from_region global_core_labelled (Some "core") 0 0) global_core_labelled.

(** The single-null grid with spacing fields that lack the boundary rows. *)
Definition ds_short_fields : Dataset :=
  {| metadata := md_single_null; dx := unit_field 6 14; dy := unit_field 6 14 |}.

(** ** Predicates used in the statements *)

Definition same_coords (a b : option RegionCoords) : Prop :=
  match a, b with
  | None, None => True
  | Some c, Some d =>
      xcoord c = xcoord d /\ ycoord c = ycoord d /\
      (xinner c == xinner d)%Q /\ (xouter c == xouter d)%Q /\
      (ylower c == ylower d)%Q /\ (yupper c == yupper d)%Q
  | _, _ => False
  end.

(** Every stored attribute of the two Regions is equal (the coordinate
    extents numerically). *)
Definition same_attributes (a b : Region) : Prop :=
  name a = name b /\
  xinner_ind a = xinner_ind b /\ xouter_ind a = xouter_ind b /\ nx a = nx b /\
  ylower_ind a = ylower_ind b /\ yupper_ind a = yupper_ind b /\ ny a = ny b /\
  connection_inner_x a = connection_inner_x b /\
  connection_outer_x a = connection_outer_x b /\
  connection_lower_y a = connection_lower_y b /\
  connection_upper_y a = connection_upper_y b /\
  same_coords (coords a) (coords b).

(** The same metadata, read with the x-boundary cells kept. *)
Definition with_xboundaries (md : Metadata) : Metadata :=
  {| ixseps1 := ixseps1 md; ixseps2 := ixseps2 md;
     jyseps1_1 := jyseps1_1 md; jyseps2_1 := jyseps2_1 md;
     jyseps1_2 := jyseps1_2 md; jyseps2_2 := jyseps2_2 md;
     ny_inner := ny_inner md; meta_nx := meta_nx md; meta_ny := meta_ny md;
     MXG := MXG md; MYG := MYG md;
     keep_xboundaries := 1; keep_yboundaries := keep_yboundaries md;
     bout_xdim := bout_xdim md; bout_ydim := bout_ydim md |}.

(** The claim C6 as it is worded: all three of [ixseps1], [ixseps2] and [nx]
    go down by [MXG]. *)
Definition shifts_all_by_MXG (md : Metadata) : Prop :=
  let kept := adjust_breakpoints (with_xboundaries md) in
  let b := adjust_breakpoints md in
  ixs1 b = ixs1 kept - MXG md /\
  ixs2 b = ixs2 kept - MXG md /\
  bnx b = bnx kept - MXG md.


(** *** Index rectangles *)

(** The index rectangle [x0, x1) x [y0, y1) of a region. *)
Record rect : Type := Rect { x0 : Z; x1 : Z; y0 : Z; y1 : Z }.

Definition rect_of (r : Region) : rect :=
  Rect (xinner_ind r) (xouter_ind r) (ylower_ind r) (yupper_ind r).

Definition stmt_rect (s : region_stmt) : rect :=
  Rect (rs_xinner s) (rs_xouter s) (rs_ylower s) (rs_yupper s).

Definition rects (regs : registry) : list (string * rect) :=
  map (fun kr => (fst kr, rect_of (snd kr))) regs.

(** The keys and rectangles that the Region assignments of a branch leave
    in the dictionary. *)
Definition branch_rects (br : branch) : list (string * rect) :=
  fold_left (fun d s => dict_set (rs_key s) (stmt_rect s) d) (br_regions br) [].

Definition in_rect (i j : Z) (r : rect) : bool :=
  (x0 r <=? i) && (i <? x1 r) && (y0 r <=? j) && (j <? y1 r).

(** Number of regions of the registry whose rectangle holds cell [(i, j)]. *)
Definition cover_count (regs : registry) (i j : Z) : nat :=
  length (List.filter (fun kr => in_rect i j (rect_of (snd kr))) regs).

Definition cover_count_rects (l : list (string * rect)) (i j : Z) : nat :=
  fold_right (fun kr n => ((if in_rect i j (snd kr) then 1 else 0) + n)%nat) 0%nat l.

Definition in_grid (b : breakpoints) (i j : Z) : bool :=
  (0 <=? i) && (i <? bnx b) && (0 <=? j) && (j <? bny b).

(** The cells of the y-boundary rows that lie in the columns of the periodic
    [core] region (topologies [core] and [limiter]): that region is created
    with [ylower_ind=ybndry, yupper_ind=ny - ybndry]. *)
Definition periodic_boundary_cell (t : topology) (b : breakpoints) (i j : Z) : bool :=
  match t with
  | core => (j <? ybndry b) || (bny b - ybndry b <=? j)
  | limiter => (i <? ixs1 b) && ((j <? ybndry b) || (bny b - ybndry b <=? j))
  | _ => false
  end.

(** *** Metadata of a well-formed grid *)

(** Number of x-guard cells missing at each x-boundary of the global array. *)
Definition xguards_removed (md : Metadata) : Z :=
  if keep_xboundaries md =? 0 then MXG md else 0.

(** The first separatrix lies strictly inside the retained x-range. *)
Definition separatrix_inside (md : Metadata) : Prop :=
  xguards_removed md < Z.min (ixseps1 md) (ixseps2 md) /\
  Z.min (ixseps1 md) (ixseps2 md) < meta_nx md - xguards_removed md.

Definition both_separatrices_inside (md : Metadata) : Prop :=
  xguards_removed md < Z.min (ixseps1 md) (ixseps2 md) /\
  Z.max (ixseps1 md) (ixseps2 md) < meta_nx md - xguards_removed md.

(** The breakpoints that the branch of topology [t] uses are strictly
    increasing and lie inside the grid. *)
Definition metadata_ordered (md : Metadata) (t : topology) : Prop :=
  0 <= MXG md /\ 0 <= MYG md /\
  (keep_yboundaries md = 0 \/ keep_yboundaries md = 1) /\
  match t with
  | core | sol =>
      2 * xguards_removed md < meta_nx md /\ 0 < meta_ny md
  | limiter =>
      separatrix_inside md /\ 0 < meta_ny md
  | single_null =>
      separatrix_inside md /\
      0 <= jyseps1_1 md < jyseps2_2 md /\ jyseps2_2 md < meta_ny md - 1
  | xpoint =>
      separatrix_inside md /\
      0 <= jyseps1_1 md /\ jyseps2_2 md < meta_ny md - 1
  | connected_double_null | disconnected_double_null =>
      both_separatrices_inside md /\
      0 <= jyseps1_1 md < jyseps2_1 md /\
      jyseps2_1 md + 1 < ny_inner md <= jyseps1_2 md /\
      jyseps1_2 md < jyseps2_2 md /\ jyseps2_2 md < meta_ny md - 1
  end.

(** What [_get_topology] has established when it returns [t]. *)
Definition topology_facts (md : Metadata) (t : topology) : Prop :=
  match t with
  | core =>
      jyseps2_1 md = jyseps1_2 md /\ jyseps1_1 md <= 0 /\
      meta_ny md - 1 <= jyseps2_2 md /\
      meta_nx md - 1 <= Z.min (ixseps1 md) (ixseps2 md)
  | sol =>
      jyseps2_1 md = jyseps1_2 md /\ jyseps1_1 md <= 0 /\
      meta_ny md - 1 <= jyseps2_2 md /\
      Z.min (ixseps1 md) (ixseps2 md) < meta_nx md - 1 /\
      Z.min (ixseps1 md) (ixseps2 md) <= 0
  | limiter =>
      jyseps2_1 md = jyseps1_2 md /\ jyseps1_1 md <= 0 /\
      meta_ny md - 1 <= jyseps2_2 md /\
      0 < Z.min (ixseps1 md) (ixseps2 md) < meta_nx md - 1
  | single_null =>
      jyseps2_1 md = jyseps1_2 md /\
      ~ (jyseps1_1 md <= 0 /\ meta_ny md - 1 <= jyseps2_2 md)
  | xpoint =>
      jyseps2_1 md <> jyseps1_2 md /\
      jyseps1_1 md = jyseps2_1 md /\ jyseps1_2 md = jyseps2_2 md /\
      jyseps1_1 md < ny_inner md - 1 /\ ny_inner md < jyseps2_2 md
  | connected_double_null =>
      jyseps2_1 md <> jyseps1_2 md /\ ixseps1 md = ixseps2 md /\
      jyseps2_1 md < ny_inner md - 1 /\ ny_inner md < jyseps1_2 md
  | disconnected_double_null =>
      jyseps2_1 md <> jyseps1_2 md /\ ixseps1 md <> ixseps2 md
  end.

(** The order of the adjusted breakpoints that makes the rectangles of a
    branch non-empty. *)
Definition y_chain_double_null (b : breakpoints) : Prop :=
  0 <= jys11 b < jys21 b /\ jys21 b + 1 < nyinner b /\
  nyinner b < jys12 b + 1 /\ jys12 b < jys22 b /\ jys22 b + 1 < bny b.

Definition chain (t : topology) (b : breakpoints) : Prop :=
  match t with
  | core => 0 < bnx b /\ 0 <= ybndry b /\ ybndry b < bny b - ybndry b
  | sol => 0 < bnx b /\ 0 < bny b
  | limiter => 0 < ixs1 b < bnx b /\ 0 <= ybndry b /\ ybndry b < bny b - ybndry b
  | single_null =>
      0 < ixs1 b < bnx b /\ 0 <= jys11 b < jys22 b /\ jys22 b + 1 < bny b
  | xpoint =>
      0 < ixs1 b < bnx b /\ 0 <= jys11 b /\ jys11 b + 1 < nyinner b /\
      nyinner b < jys22 b + 1 /\ jys22 b + 1 < bny b
  | connected_double_null =>
      0 < ixs1 b /\ ixs1 b = ixs2 b /\ ixs2 b < bnx b /\ y_chain_double_null b
  | disconnected_double_null =>
      0 < ixs1 b < ixs2 b /\ ixs2 b < bnx b /\ y_chain_double_null b
  end.

(** *** Guard blocks *)

(** The block of cells that a stitcher joins onto [da]: the part of each
    function between reading [da.region] and the final [xr.concat].  It
    depends on [da] only through its region and through whether the
    coordinate of the seam axis is attached. *)
Section GuardBlocks.
Context {V : Type}.
Variable from_region : DataArray V -> option string -> Z -> Z -> result (DataArray V).

Definition inner_guard_block (da_region : Region) (has_coord : bool)
    (da_global : DataArray V) (mxg : Z) : result (DataArray V) :=
  let myg_da := MYG (da_metadata da_global) in
  do da_inner <- from_region da_global (connection_inner_x da_region) 0 0;
  do inner_region <- get_region da_inner;
  let da_inner :=
    if has_yboundary_cells da_global
       && is_not_None (connection_lower_y da_region)
       && is_None (connection_lower_y inner_region)
    then isel da_inner all_ (Slice (Some myg_da) None)
    else da_inner in
  let da_inner :=
    if has_yboundary_cells da_global
       && is_not_None (connection_upper_y da_region)
       && is_None (connection_upper_y inner_region)
    then isel da_inner all_ (Slice None (Some (- myg_da)))
    else da_inner in
  (* select just the points we need to fill the guard cells of da *)
  let da_inner := isel da_inner (Slice (Some (- mxg)) None) all_ in
  do da_inner <-
    (if has_yboundary_cells da_global
       && is_None (connection_lower_y da_region)
       && is_not_None (connection_lower_y inner_region)
    then
      do da_inner_lower <-
        from_region da_global (connection_lower_y inner_region) 0 0;
      let da_inner_lower :=
        isel da_inner_lower (Slice (Some (- mxg)) None)
             (Slice (Some (- myg_da)) None) in
      do c <- concat_y da_inner_lower da_inner;
      Ok (set_region c inner_region)
    else Ok da_inner);
  do da_inner <-
    (if has_yboundary_cells da_global
       && is_None (connection_upper_y da_region)
       && is_not_None (connection_upper_y inner_region)
    then
      do da_inner_upper <-
        from_region da_global (connection_upper_y inner_region) 0 0;
      let da_inner_upper :=
        isel da_inner_upper (Slice (Some (- mxg)) None)
             (Slice None (Some myg_da)) in
      concat_y da_inner da_inner_upper
    else Ok da_inner);
  do da_inner <-
    (if has_coord then
      do slices <- get_inner_guards_slices da_region mxg 0;
      let new_xcoord := py_slice (xslice slices) (xcoord_of da_global) in
      let new_ycoord := py_slice (yslice slices) (ycoord_of da_global) in
      assign_coords da_inner new_xcoord new_ycoord
    else Ok da_inner);
  Ok da_inner.

Definition outer_guard_block (da_region : Region) (has_coord : bool)
    (da_global : DataArray V) (mxg : Z) : result (DataArray V) :=
  let myg_da := MYG (da_metadata da_global) in
  do da_outer <- from_region da_global (connection_outer_x da_region) 0 0;
  do outer_region <- get_region da_outer;
  let da_outer :=
    if has_yboundary_cells da_global
       && is_not_None (connection_lower_y da_region)
       && is_None (connection_lower_y outer_region)
    then isel da_outer all_ (Slice (Some myg_da) None)
    else da_outer in
  let da_outer :=
    if has_yboundary_cells da_global
       && is_not_None (connection_upper_y da_region)
       && is_None (connection_upper_y outer_region)
    then isel da_outer all_ (Slice None (Some (- myg_da)))
    else da_outer in
  (* select just the points we need to fill the guard cells of da *)
  let da_outer := isel da_outer (Slice None (Some mxg)) all_ in
  do da_outer <-
    (if has_yboundary_cells da_global
       && is_None (connection_lower_y da_region)
       && is_not_None (connection_lower_y outer_region)
    then
      do da_outer_lower <-
        from_region da_global (connection_lower_y outer_region) 0 0;
      let da_outer_lower :=
        isel da_outer_lower (Slice (Some (- mxg)) None)
             (Slice (Some (- myg_da)) None) in
      do c <- concat_y da_outer_lower da_outer;
      Ok (set_region c outer_region)
    else Ok da_outer);
  do da_outer <-
    (if has_yboundary_cells da_global
       && is_None (connection_upper_y da_region)
       && is_not_None (connection_upper_y outer_region)
    then
      do da_outer_upper <-
        from_region da_global (connection_upper_y outer_region) 0 0;
      let da_outer_upper :=
        isel da_outer_upper (Slice (Some (- mxg)) None)
             (Slice None (Some myg_da)) in
      concat_y da_outer da_outer_upper
    else Ok da_outer);
  do da_outer <-
    (if has_coord then
      do slices <- get_outer_guards_slices da_region mxg 0;
      let new_xcoord := py_slice (xslice slices) (xcoord_of da_global) in
      let new_ycoord := py_slice (yslice slices) (ycoord_of da_global) in
      assign_coords da_outer new_xcoord new_ycoord
    else Ok da_outer);
  Ok da_outer.

Definition lower_guard_block (da_region : Region) (has_coord : bool)
    (da_global : DataArray V) (mxg myg : Z) : result (DataArray V) :=
  do da_lower <- from_region da_global (connection_lower_y da_region) mxg 0;
  (* select just the points we need to fill the guard cells of da *)
  let da_lower := isel da_lower all_ (Slice (Some (- myg)) None) in
  do da_lower <-
    (if has_coord then
      do slices <- get_lower_guards_slices da_region myg mxg;
      if slice_start (yslice slices) <? 0 then Err MissingBoundaryData
      else
        let new_xcoord := py_slice (xslice slices) (xcoord_of da_global) in
        let new_ycoord := py_slice (yslice slices) (ycoord_of da_global) in
        assign_coords da_lower new_xcoord new_ycoord
    else Ok da_lower);
  Ok da_lower.

Definition upper_guard_block (da_region : Region) (has_coord : bool)
    (da_global : DataArray V) (mxg myg : Z) : result (DataArray V) :=
  do da_upper <- from_region da_global (connection_upper_y da_region) mxg 0;
  (* select just the points we need to fill the guard cells of da *)
  let da_upper := isel da_upper all_ (Slice None (Some myg)) in
  do da_upper <-
    (if has_coord then
      do slices <- get_upper_guards_slices da_region myg mxg;
      if slice_stop (yslice slices) >? Z.of_nat (size_y da_global)
      then Err MissingBoundaryData
      else
        let new_xcoord := py_slice (xslice slices) (xcoord_of da_global) in
        let new_ycoord := py_slice (yslice slices) (ycoord_of da_global) in
        assign_coords da_upper new_xcoord new_ycoord
    else Ok da_upper);
  Ok da_upper.
End GuardBlocks.

(** *** The registry without coordinate extents *)

(** A Region with its coordinate attributes dropped: name, index bounds and
    connections, which do not depend on the spacing fields. *)
Definition strip (r : Region) : Region :=
  {| name := name r;
     xinner_ind := xinner_ind r; xouter_ind := xouter_ind r; nx := nx r;
     ylower_ind := ylower_ind r; yupper_ind := yupper_ind r; ny := ny r;
     connection_inner_x := connection_inner_x r;
     connection_outer_x := connection_outer_x r;
     connection_lower_y := connection_lower_y r;
     connection_upper_y := connection_upper_y r;
     coords := None |}.

Definition strip_all (regs : registry) : registry :=
  map (fun kr => (fst kr, strip (snd kr))) regs.

Definition bare_region (s : region_stmt) : Region :=
  {| name := rs_name s;
     xinner_ind := rs_xinner s; xouter_ind := rs_xouter s;
     nx := rs_xouter s - rs_xinner s;
     ylower_ind := rs_ylower s; yupper_ind := rs_yupper s;
     ny := rs_yupper s - rs_ylower s;
     connection_inner_x := None; connection_outer_x := None;
     connection_lower_y := None; connection_upper_y := None;
     coords := None |}.

(** *** The builder on values

    Every key of a branch is assigned a Region object of its own, so inside
    the builder no object is reached under two keys, and its dictionary can
    be followed as a list of Region values in which a connection function
    replaces the values under its two keys.  [run_branch_by_value] shows
    that this reading returns what [run_branch] returns. *)
Definition create_connection_x_value (regions : registry) (inner outer : string)
  : result registry :=
  do r <- dict_item inner regions;
  let regions := dict_set inner (set_connection_outer_x r outer) regions in
  do r <- dict_item outer regions;
  Ok (dict_set outer (set_connection_inner_x r inner) regions).

Definition create_connection_y_value (regions : registry) (lower upper : string)
  : result registry :=
  do r <- dict_item lower regions;
  let regions := dict_set lower (set_connection_upper_y r upper) regions in
  do r <- dict_item upper regions;
  Ok (dict_set upper (set_connection_lower_y r lower) regions).

Fixpoint add_regions_value (ds : Dataset) (stmts : list region_stmt)
    (regions : registry) : result registry :=
  match stmts with
  | [] => Ok regions
  | s :: stmts' =>
      do r <- Region_init (rs_name s) (Some ds)
                (rs_xinner s) (rs_xouter s) (rs_ylower s) (rs_yupper s);
      add_regions_value ds stmts' (dict_set (rs_key s) r regions)
  end.

Fixpoint connect_all_value (create : registry -> string -> string -> result registry)
    (pairs : list (string * string)) (regions : registry) : result registry :=
  match pairs with
  | [] => Ok regions
  | (a, b) :: pairs' =>
      do regions <- create regions a b;
      connect_all_value create pairs' regions
  end.

Definition run_branch_value (ds : Dataset) (br : branch) : result registry :=
  do regions <- add_regions_value ds (br_regions br) [];
  do regions <- connect_all_value create_connection_x_value (br_connections_x br) regions;
  connect_all_value create_connection_y_value (br_connections_y br) regions.

(** The dictionary and the objects read as the registry [regs]: every
    reference points to an object, and no object is reached under two
    keys. *)
Definition reads_as (regions : refdict) (h : heap) (regs : registry) : Prop :=
  snapshot regions h = regs /\
  NoDup (map snd regions) /\
  Forall (fun kr => (snd kr < length h)%nat) regions.

(** A statement on the objects does what the value [v] says: it raises the
    same exception, or leaves objects that read as the registry of [v]. *)
Definition follows (m : ST refdict) (v : result registry) : heap -> Prop :=
  fun h => match m h with
           | (h', Ok regions) => exists regs', v = Ok regs' /\ reads_as regions h' regs'
           | (_, Err e) => v = Err e
           end.

(** The statements of a branch run on Regions without coordinates. *)
Definition skeleton (br : branch) : result registry :=
  let regions :=
    fold_left (fun d s => dict_set (rs_key s) (bare_region s) d) (br_regions br) [] in
  do regions <- connect_all_value create_connection_x_value (br_connections_x br) regions;
  connect_all_value create_connection_y_value (br_connections_y br) regions.

(** [forward r = Some s] implies that the region stored under [s] has
    [backward = Some k], for every entry [(k, r)]. *)
Definition links_back (regs : registry)
    (forward backward : Region -> option string) : bool :=
  forallb (fun kr =>
    match forward (snd kr) with
    | None => true
    | Some s =>
        match dict_get s regs with
        | Some rs => match backward rs with
                     | Some k => String.eqb k (fst kr)
                     | None => false
                     end
        | None => false
        end
    end) regs.

Definition symmetric_on_keys (regs : registry) : bool :=
  links_back regs connection_outer_x connection_inner_x &&
  links_back regs connection_inner_x connection_outer_x &&
  links_back regs connection_upper_y connection_lower_y &&
  links_back regs connection_lower_y connection_upper_y.

(** No region with a y-boundary has an outer-x neighbour with a
    y-connection on the same side. *)
Definition no_outer_transitive_fetch (regs : registry) : bool :=
  forallb (fun kr =>
    match connection_outer_x (snd kr) with
    | None => true
    | Some s =>
        match dict_get s regs with
        | Some rs =>
            negb (is_None (connection_lower_y (snd kr))
                  && is_not_None (connection_lower_y rs)) &&
            negb (is_None (connection_upper_y (snd kr))
                  && is_not_None (connection_upper_y rs))
        | None => true
        end
    end) regs.

(** *** Guard continuity *)

(** The interior of region [rs] cut out of the global array: what
    [from_region(name, with_guards=0)] returns. *)
Definition interior {V} (g : DataArray V) (rs : Region) : DataArray V :=
  set_region
    (isel g (Slice (Some (xinner_ind rs)) (Some (xouter_ind rs)))
            (Slice (Some (ylower_ind rs)) (Some (yupper_ind rs)))) rs.

(** The y-reconciliation applied to one column [col] of the neighbour's
    interior when it is joined onto region [r] across an x-seam: [myg] cells
    are cut from an end where the neighbour [rs] has a boundary and [r] a
    connection, and [myg] cells of the same column, taken from its other
    end, are added at an end where [r] has a boundary and the (periodic)
    neighbour a connection. *)
Definition reconcile_column {V} (g : DataArray V) (r rs : Region)
    (col : list V) : list V :=
  let myg := MYG (da_metadata g) in
  let yb := has_yboundary_cells g in
  let col1 :=
    if yb && is_not_None (connection_lower_y r) && is_None (connection_lower_y rs)
    then py_slice (Slice (Some myg) None) col else col in
  let col2 :=
    if yb && is_not_None (connection_upper_y r) && is_None (connection_upper_y rs)
    then py_slice (Slice None (Some (- myg))) col1 else col1 in
  let col3 :=
    if yb && is_None (connection_lower_y r) && is_not_None (connection_lower_y rs)
    then (py_slice (Slice (Some (- myg)) None) col ++ col2)%list else col2 in
  if yb && is_None (connection_upper_y r) && is_not_None (connection_upper_y rs)
  then (col3 ++ py_slice (Slice None (Some myg)) col)%list else col3.

(** Where the inner-x stitcher fetches rows transitively, the neighbour is
    periodic: its y-connection is the neighbour itself. *)
Definition inner_transitive_fetch_periodic (regs : registry) : bool :=
  forallb (fun kr =>
    match connection_inner_x (snd kr) with
    | None => true
    | Some s =>
        match dict_get s regs with
        | Some rs =>
            (is_not_None (connection_lower_y (snd kr)) ||
             match connection_lower_y rs with
             | Some c => String.eqb c s
             | None => true
             end) &&
            (is_not_None (connection_upper_y (snd kr)) ||
             match connection_upper_y rs with
             | Some c => String.eqb c s
             | None => true
             end)
        | None => true
        end
    end) regs.

(** Every Region of the registry was created with a dataset. *)
Definition all_with_coords (regs : registry) : Prop :=
  forall k r, In (k, r) regs -> is_not_None (coords r) = true.


(** Region [SOL] of the limiter grid, and the inner-x stitcher applied to it
    with [mxg = 1]. *)
Definition limiter_sol : DataArray Z :=
  Eval vm_compute in
    get_ok (from_region global_limiter (Some "SOL") 0 0) global_limiter.

Definition limiter_sol_region : Region :=
  Eval vm_compute in
    get_ok (get_region limiter_sol) (bare_region (RegionStmt "" "" 0 0 0 0)).

Definition limiter_core_region : Region :=
  Eval vm_compute in
    get_ok (get_region limiter_core) (bare_region (RegionStmt "" "" 0 0 0 0)).

Definition limiter_sol_stitched : DataArray Z :=
  Eval vm_compute in
    get_ok (_concat_inner_guards from_region limiter_sol global_limiter 1)
           global_limiter.

(** Region [core] of the core-only grid without coordinates, and the
    lower-y stitcher applied to it with [myg = 2]. *)
Definition core_bare : DataArray Z :=
  Eval vm_compute in
    get_ok (from_region global_core_bare (Some "core") 0 0) global_core_bare.

Definition core_bare_stitched : DataArray Z :=
  Eval vm_compute in
    get_ok (_concat_lower_guards from_region core_bare global_core_bare 0 2)
           global_core_bare.

(** ** Predicates used in the further properties *)

(** The attributes of a Region other than its connections. *)
Definition same_identity (a b : Region) : Prop :=
  name a = name b /\ rect_of a = rect_of b /\ nx a = nx b /\ ny a = ny b /\
  coords a = coords b.

(** The same metadata, read without the y-boundary cells. *)
Definition without_yboundaries (md : Metadata) : Metadata :=
  {| ixseps1 := ixseps1 md; ixseps2 := ixseps2 md;
     jyseps1_1 := jyseps1_1 md; jyseps2_1 := jyseps2_1 md;
     jyseps1_2 := jyseps1_2 md; jyseps2_2 := jyseps2_2 md;
     ny_inner := ny_inner md; meta_nx := meta_nx md; meta_ny := meta_ny md;
     MXG := MXG md; MYG := MYG md;
     keep_xboundaries := keep_xboundaries md; keep_yboundaries := 0;
     bout_xdim := bout_xdim md; bout_ydim := bout_ydim md |}.

(** Number of regions each branch of the builder creates. *)
Definition region_count (t : topology) : nat :=
  match t with
  | core | sol => 1
  | limiter => 2
  | single_null => 6
  | xpoint => 8
  | connected_double_null => 12
  | disconnected_double_null => 18
  end.

(** The name, the bounds and the four connections of a Region. *)
Definition links (r : Region)
  : string * rect * (option string * option string * option string * option string) :=
  (name r,
   Rect (xinner_ind r) (xouter_ind r) (ylower_ind r) (yupper_ind r),
   (connection_inner_x r, connection_outer_x r,
    connection_lower_y r, connection_upper_y r)).

Definition all_links (regs : registry) :=
  map (fun kr => (fst kr, links (snd kr))) regs.

(** A spacing field with [n] points in x and [m] points in y. *)
Definition has_shape (a : list (list Q)) (n m : Z) : Prop :=
  Z.of_nat (length a) = n /\ Forall (fun row => Z.of_nat (length row) = m) a.

(** The four indices read by [Region.__init__] lie inside an [n] x [m]
    field. *)
Definition stmt_inside (n m : Z) (s : region_stmt) : Prop :=
  0 <= rs_xinner s < n /\ 0 <= rs_xouter s - 1 < n /\
  0 <= rs_ylower s < m /\ 0 <= rs_yupper s - 1 < m.

(** Both keys of every pair are keys of the dictionary. *)
Definition pairs_present (keys : list string) (pairs : list (string * string)) : bool :=
  forallb (fun p => bool_decide (fst p ∈ keys) && bool_decide (snd p ∈ keys)) pairs.


(** * Verification *)

(** ** Small tactics *)

Ltac bool_to_prop :=
  repeat match goal with
  | H : (_ && _)%bool = true |- _ => apply andb_true_iff in H; destruct H
  | H : (_ && _)%bool = false |- _ => apply andb_false_iff in H
  | H : negb _ = true |- _ => apply negb_true_iff in H
  | H : negb _ = false |- _ => apply negb_false_iff in H
  | H : (_ <? _) = true |- _ => apply Z.ltb_lt in H
  | H : (_ <? _) = false |- _ => apply Z.ltb_ge in H
  | H : (_ <=? _) = true |- _ => apply Z.leb_le in H
  | H : (_ <=? _) = false |- _ => apply Z.leb_gt in H
  | H : (_ >? _) = true |- _ => rewrite Z.gtb_ltb in H
  | H : (_ >? _) = false |- _ => rewrite Z.gtb_ltb in H
  | H : (_ >=? _) = true |- _ => rewrite Z.geb_leb in H
  | H : (_ >=? _) = false |- _ => rewrite Z.geb_leb in H
  | H : (_ =? _) = true |- _ => apply Z.eqb_eq in H
  | H : (_ =? _) = false |- _ => apply Z.eqb_neq in H
  end.

(** Case analysis on every integer comparison the goal branches on. *)
Ltac split_tests :=
  repeat match goal with
  | |- context [if ?c then _ else _] =>
      let E := fresh "E" in destruct c eqn:E
  end;
  bool_to_prop.

(** ** Topology classifier *)

(** C5.  With no upper X-point ([jyseps2_1 = jyseps1_2]) the classifier never
    fails.  When the first cut is at or below 0 and the last at or above
    [ny - 1] it answers [core] if [min(ixseps1, ixseps2) >= nx - 1], [sol]
    if the minimum is [<= 0], [limiter] if it lies strictly between 0 and
    [nx - 1]; it answers [single-null] in every remaining case.  The cases
    are read in the order given: the [core] and [sol] conditions overlap only
    on a grid with [nx <= 1], where [core] is returned. *)
Theorem get_topology_no_upper_xpoint (ds : Dataset) :
  let md := metadata ds in
  let ix := Z.min (ixseps1 md) (ixseps2 md) in
  let uncut := jyseps1_1 md <= 0 /\ jyseps2_2 md >= meta_ny md - 1 in
  jyseps2_1 md = jyseps1_2 md ->
  (uncut -> ix >= meta_nx md - 1 -> _get_topology ds = Ok core) /\
  (uncut -> ix <= 0 -> ix < meta_nx md - 1 -> _get_topology ds = Ok sol) /\
  (uncut -> ix <= 0 -> 1 < meta_nx md -> _get_topology ds = Ok sol) /\
  (uncut -> 0 < ix < meta_nx md - 1 -> _get_topology ds = Ok limiter) /\
  (~ uncut -> _get_topology ds = Ok single_null).
Proof.
  intros md ix uncut Heq. subst md ix uncut. unfold _get_topology.
  rewrite Heq, Z.eqb_refl.
  repeat split; intros; split_tests; try reflexivity; lia.
Qed.

Lemma get_topology_no_upper_xpoint_witness :
  _get_topology ds_core = Ok core /\ _get_topology ds_single_null = Ok single_null.
Proof.
  split.
  - apply (get_topology_no_upper_xpoint ds_core); simpl; lia.
  - apply (get_topology_no_upper_xpoint ds_single_null); simpl; lia.
Defined.

(** ** Region slicing *)

(** What [get_slices] computes, for any Region created with a dataset: the
    outer-x connection moves the inner bound back, the outer bound is never
    moved. *)
Lemma get_slices_spec (self : Region) (mxg myg : Z) (c : RegionCoords) :
  coords self = Some c ->
  get_slices self mxg myg =
  Ok {| xslice :=
          Slice (Some ((if is_not_None (connection_outer_x self)
                        then (fun v => v + mxg) else id)
                         (if is_not_None (connection_inner_x self)
                          then xinner_ind self - mxg else xinner_ind self)))
                (Some (xouter_ind self));
        yslice :=
          Slice (Some (if is_not_None (connection_lower_y self)
                       then ylower_ind self - myg else ylower_ind self))
                (Some (if is_not_None (connection_upper_y self)
                       then yupper_ind self + myg else yupper_ind self)) |}.
Proof.
  intros Hc. unfold get_slices, mk_slices. rewrite Hc.
  destruct (connection_outer_x self); reflexivity.
Qed.

(** C2.  The region [inner_intersep] of a disconnected double-null grid has
    a connection on both x-edges and the index range [3, 5) in x.  With
    [mxg = 2] the claim asks for the x-slice [1, 7); [get_slices] returns
    [3, 5): the outer-x branch adds [mxg] to the inner bound, which undoes
    the inner shift and leaves the outer bound where it was.  The y-bounds
    [6, 10) are shifted outward to [4, 12) as claimed. *)
Theorem get_slices_both_x_connections :
  exists regs r s,
    _create_regions_toroidal ds_double_null = Ok regs /\
    dict_get "inner_intersep" regs = Some r /\
    connection_inner_x r = Some "inner_core" /\
    connection_outer_x r = Some "inner_SOL" /\
    (xinner_ind r, xouter_ind r) = (3, 5) /\
    (ylower_ind r, yupper_ind r) = (6, 10) /\
    get_slices r 2 2 = Ok s /\
    xslice s = Slice (Some 3) (Some 5) /\
    yslice s = Slice (Some 4) (Some 12).
Proof.
  do 3 eexists. split; [vm_compute; reflexivity |].
  split; [vm_compute; reflexivity |].
  repeat split.
Qed.

(** ** Region equality *)

Lemma attr_of_conn_eqb (a b : option string) :
  attr_eqb (attr_of_conn a) (attr_of_conn b) = true <-> a = b.
Proof.
  destruct a as [s|], b as [t|]; simpl; split; intros H;
    try discriminate; try reflexivity.
  - apply String.eqb_eq in H. congruence.
  - apply String.eqb_eq. congruence.
Qed.

(** C10.  [self == other] is [True] exactly when all stored attributes are
    equal in both Regions, [False] otherwise, and [NotImplemented] when
    [other] is not a Region. *)
Theorem Region_eq_structural (self : Region) :
  (forall o, Region_eq self (ObjRegion o) = EqBool true <-> same_attributes self o) /\
  (forall o, exists b, Region_eq self (ObjRegion o) = EqBool b) /\
  (forall z, Region_eq self (ObjInt z) = NotImplemented) /\
  (forall s, Region_eq self (ObjStr s) = NotImplemented) /\
  Region_eq self ObjNone = NotImplemented.
Proof.
  split; [| repeat split; intros; simpl; eauto].
  intros o. unfold Region_eq, same_attributes, same_coords, dict_eqb, vars.
  split.
  - intros H. injection H as H.
    destruct (coords self) as [c|], (coords o) as [d|]; simpl in H;
      try discriminate;
      repeat (apply andb_true_iff in H; destruct H as [? H]);
      repeat match goal with
      | E : (_ =? _) = true |- _ => apply Z.eqb_eq in E
      | E : String.eqb _ _ = true |- _ => apply String.eqb_eq in E
      | E : attr_eqb (attr_of_conn _) (attr_of_conn _) = true |- _ =>
          apply attr_of_conn_eqb in E
      | E : Qeq_bool _ _ = true |- _ => apply Qeq_bool_iff in E
      end; tauto.
  - intros (Hn & Hxi & Hxo & Hnx & Hyl & Hyu & Hny & Hci & Hco & Hcl & Hcu & Hc).
    f_equal.
    destruct (coords self) as [c|], (coords o) as [d|]; simpl;
      try contradiction;
      rewrite Hn, Hxi, Hxo, Hnx, Hyl, Hyu, Hny, Hci, Hco, Hcl, Hcu;
      rewrite ?Z.eqb_refl, ?String.eqb_refl;
      rewrite ?(proj2 (attr_of_conn_eqb _ _) eq_refl); simpl.
    + destruct Hc as (H1 & H2 & H3 & H4 & H5 & H6).
      rewrite H1, H2, ?String.eqb_refl.
      rewrite (proj2 (Qeq_bool_iff _ _) H3), (proj2 (Qeq_bool_iff _ _) H4),
        (proj2 (Qeq_bool_iff _ _) H5), (proj2 (Qeq_bool_iff _ _) H6).
      reflexivity.
    + reflexivity.
Qed.

(** ** Boundary-cell preprocessing *)

(** C6, counterexample.  On the open-field-line grid ([nx = 6], [MXG = 2],
    x-boundaries excluded) the builder works with [nx = 2], not [4]. *)
Lemma nx_not_shifted_by_MXG :
  keep_xboundaries md_sol = 0 /\
  bnx (adjust_breakpoints md_sol) = 2 /\
  meta_nx md_sol - MXG md_sol = 4 /\
  ~ shifts_all_by_MXG md_sol.
Proof.
  repeat split. intros (_ & _ & H). vm_compute in H. discriminate.
Qed.

(** C6, amended.  When [keep_xboundaries] is 0, the two (clamped and
    ordered) separatrix indices are shifted down by [MXG] and [nx] by
    [2 * MXG], one guard width for each of the two x-boundaries; the
    y-breakpoints are the same as with the x-boundaries kept. *)
Theorem xboundaries_excluded_shift (md : Metadata) :
  keep_xboundaries md = 0 ->
  let kept := adjust_breakpoints (with_xboundaries md) in
  let b := adjust_breakpoints md in
  ixs1 b = ixs1 kept - MXG md /\
  ixs2 b = ixs2 kept - MXG md /\
  bnx b = meta_nx md - 2 * MXG md /\
  bnx kept = meta_nx md /\
  (jys11 b, jys21 b, nyinner b, jys12 b, jys22 b, bny b, ybndry b) =
  (jys11 kept, jys21 kept, nyinner kept, jys12 kept, jys22 kept, bny kept, ybndry kept).
Proof.
  intros Hk kept b. subst kept b. unfold adjust_breakpoints, with_xboundaries.
  cbn [ixseps1 ixseps2 jyseps1_1 jyseps2_1 jyseps1_2 jyseps2_2 ny_inner meta_nx
       meta_ny MXG MYG keep_xboundaries keep_yboundaries].
  rewrite Hk. change (0 =? 0) with true. change (1 =? 0) with false.
  destruct (_order_vars (_in_range (ixseps1 md) 0 (meta_nx md))
                        (_in_range (ixseps2 md) 0 (meta_nx md))) as [a c].
  destruct (_order_vars (_in_range (jyseps2_1 md) 0 (meta_ny md - 1))
                        (_in_range (jyseps1_2 md) 0 (meta_ny md - 1))) as [p q].
  cbn. repeat split.
Qed.

Lemma xboundaries_excluded_shift_witness :
  let kept := adjust_breakpoints (with_xboundaries md_sol) in
  let b := adjust_breakpoints md_sol in
  ixs1 b = ixs1 kept - 2 /\ ixs2 b = ixs2 kept - 2 /\ bnx b = 6 - 2 * 2.
Proof.
  pose proof (xboundaries_excluded_shift md_sol eq_refl) as H.
  cbv zeta in H. destruct H as (H1 & H2 & H3 & _).
  repeat split; assumption.
Defined.

(** ** Connection symmetry *)

(** C4.  In the registry of a single-null grid the region stored under
    [outer_PFR] has the outer-x connection [outer_SOL], and [outer_SOL]
    points back with [connection_inner_x = 'outer_PFR']: the links are
    symmetric on the registry keys.  But that region was created with
    [name='lower_PFR'], so the back link is not the region's name, as the
    claim requires; in the six other branches every region is named after
    its key. *)
Theorem single_null_back_link_is_not_the_name :
  exists regs r s,
    _create_regions_toroidal ds_single_null = Ok regs /\
    dict_get "outer_PFR" regs = Some r /\
    connection_outer_x r = Some "outer_SOL" /\
    dict_get "outer_SOL" regs = Some s /\
    connection_inner_x s = Some "outer_PFR" /\
    name r = "lower_PFR" /\
    connection_inner_x s <> Some (name r).
Proof.
  do 3 eexists. split; [vm_compute; reflexivity |].
  split; [vm_compute; reflexivity |].
  split; [reflexivity |].
  split; [vm_compute; reflexivity |].
  repeat split. cbn. discriminate.
Qed.

(** ** The builder's objects and their reading as values *)

Lemma snapshot_cons (k : string) (i : nat) (regions : refdict) (h : heap) (r : Region) :
  h !! i = Some r -> snapshot ((k, i) :: regions) h = (k, r) :: snapshot regions h.
Proof. intros H. unfold snapshot. cbn. rewrite H. reflexivity. Qed.

Lemma snapshot_ext (regions : refdict) (h h' : heap) :
  Forall (fun kr => h' !! snd kr = h !! snd kr) regions ->
  snapshot regions h' = snapshot regions h.
Proof.
  induction 1 as [| [k i] regions Hi _ IH]; [reflexivity |].
  unfold snapshot in *. cbn in *. rewrite Hi, IH. reflexivity.
Qed.

Lemma dict_set_refs (k : string) (n : nat) (regions : refdict) (x : nat) :
  x ∈ map snd (dict_set k n regions) -> x = n \/ x ∈ map snd regions.
Proof.
  induction regions as [| [k' i] regions IH]; cbn.
  - intros H. apply list_elem_of_singleton in H. now left.
  - destruct (String.eqb k k'); cbn; rewrite !elem_of_cons; intros [H | H]; auto.
    destruct (IH H); auto.
Qed.

Lemma reads_as_nil : reads_as [] [] [].
Proof. repeat split; constructor. Qed.

Lemma reads_as_get (regions : refdict) (h : heap) (regs : registry) (k : string) :
  reads_as regions h regs ->
  match dict_get k regions with
  | Some i => exists r, h !! i = Some r /\ dict_get k regs = Some r
  | None => dict_get k regs = None
  end.
Proof.
  intros (<- & _ & Hb). induction Hb as [| [k' i] regions Hi _ IH]; [reflexivity |].
  cbn [snd] in Hi. apply lookup_lt_is_Some_2 in Hi. destruct Hi as (r & Hr).
  rewrite (snapshot_cons _ _ _ _ _ Hr). cbn.
  destruct (String.eqb k k'); [eauto | exact IH].
Qed.

Lemma reads_as_update (regions : refdict) (h : heap) (regs : registry)
    (k : string) (i : nat) (r : Region) (f : Region -> Region) :
  reads_as regions h regs -> dict_get k regions = Some i -> h !! i = Some r ->
  reads_as regions (alter f i h) (dict_set k (f r) regs).
Proof.
  intros (<- & Hnd & Hb) Hk Hr. split; [| split; [exact Hnd |]].
  - induction Hb as [| [k' i'] regions Hi _ IH]; [discriminate |].
    cbn [snd] in Hi. apply lookup_lt_is_Some_2 in Hi. destruct Hi as (r' & Hr').
    cbn [map snd] in Hnd. apply NoDup_cons in Hnd. destruct Hnd as (Hni & Hnd).
    rewrite (snapshot_cons _ _ _ _ _ Hr'). cbn [dict_get] in Hk. cbn [dict_set].
    destruct (String.eqb k k') eqn:E.
    + assert (i' = i) as -> by congruence.
      rewrite Hr in Hr'. injection Hr' as <-. clear Hk.
      erewrite snapshot_cons by (rewrite list_lookup_alter_eq, Hr; reflexivity).
      apply String.eqb_eq in E. subst k'. f_equal.
      apply snapshot_ext. apply Forall_forall. intros [k'' j] Hj. cbn.
      apply list_lookup_alter_ne. intros ->. apply Hni.
      apply (list_elem_of_fmap_2 snd) in Hj. exact Hj.
    + assert (i <> i') as Hne.
      { intros ->. apply Hni. clear -Hk.
        induction regions as [| [k'' j] regions IH]; [discriminate |].
        cbn in Hk |- *. destruct (String.eqb k k''); [injection Hk as ->; left |
                                                        right; auto]. }
      erewrite snapshot_cons by (rewrite list_lookup_alter_ne by exact Hne; exact Hr').
      f_equal. apply IH; assumption.
  - eapply Forall_impl; [exact Hb |]. cbn. intros kr H.
    now rewrite length_alter.
Qed.

Lemma reads_as_new (regions : refdict) (h : heap) (regs : registry)
    (k : string) (r : Region) :
  reads_as regions h regs ->
  reads_as (dict_set k (length h) regions) (h ++ [r])%list (dict_set k r regs).
Proof.
  intros (<- & Hnd & Hb).
  assert (Hkeep : forall rest, Forall (fun kr => (snd kr < length h)%nat) rest ->
            snapshot rest (h ++ [r])%list = snapshot rest h).
  { intros rest Hrest. apply snapshot_ext. eapply Forall_impl; [exact Hrest |].
    cbn. intros kr H. now apply lookup_app_l. }
  assert (Hlast : (h ++ [r])%list !! length h = Some r).
  { rewrite lookup_app_r by lia. now rewrite Nat.sub_diag. }
  split; [| split].
  - induction Hb as [| [k' i] regions Hi Hb IH].
    + cbn. unfold snapshot. cbn. rewrite Hlast. reflexivity.
    + cbn [snd] in Hi. pose proof Hi as Hlt.
      apply lookup_lt_is_Some_2 in Hi. destruct Hi as (r' & Hr').
      cbn [map snd] in Hnd. apply NoDup_cons in Hnd. destruct Hnd as (_ & Hnd).
      rewrite (snapshot_cons _ _ _ _ _ Hr'). cbn [dict_set].
      destruct (String.eqb k k').
      * rewrite (snapshot_cons _ _ _ _ _ Hlast). f_equal. now apply Hkeep.
      * erewrite snapshot_cons by (rewrite lookup_app_l by exact Hlt; exact Hr').
        f_equal. now apply IH.
  - induction Hb as [| [k' i] regions Hi Hb IH]; cbn.
    + apply NoDup_singleton.
    + cbn [map snd] in Hnd. apply NoDup_cons in Hnd. destruct Hnd as (Hni & Hnd).
      cbn [snd] in Hi. destruct (String.eqb k k'); cbn; apply NoDup_cons; split.
      * intros Hin. apply list_elem_of_fmap in Hin. destruct Hin as ([k'' j] & E & Hin).
        rewrite Forall_forall in Hb. apply Hb in Hin. cbn in E, Hin. lia.
      * exact Hnd.
      * intros Hin. apply dict_set_refs in Hin. destruct Hin as [-> | Hin]; [lia | auto].
      * now apply IH.
  - assert (Hb' : Forall (fun kr => (snd kr < length (h ++ [r])%list)%nat) regions).
    { eapply Forall_impl; [exact Hb |]. cbn. intros kr H.
      rewrite length_app. cbn. lia. }
    clear -Hb'. induction Hb' as [| [k' i] regions Hi Hb' IH]; cbn.
    + constructor; [| constructor]. cbn. rewrite length_app. cbn. lia.
    + destruct (String.eqb k k'); constructor; try assumption.
      cbn. rewrite length_app. cbn. lia.
Qed.

Lemma connection_by_value (regions : refdict) (h : heap) (regs : registry)
    (a b : string) (f g : Region -> Region) :
  reads_as regions h regs ->
  follows (st i <- lift (dict_item a regions);
           st _ <- update_object i f;
           st o <- lift (dict_item b regions);
           st _ <- update_object o g;
           ret regions)
          (do r <- dict_item a regs;
           let regs := dict_set a (f r) regs in
           do r <- dict_item b regs;
           Ok (dict_set b (g r) regs)) h.
Proof.
  intros H. unfold follows, bindS, lift, update_object, ret, dict_item.
  pose proof (reads_as_get _ _ _ a H) as Ha.
  destruct (dict_get a regions) as [i |] eqn:Ei; cbn.
  - destruct Ha as (r & Hr & ->). cbn.
    pose proof (reads_as_update _ _ _ _ _ _ f H Ei Hr) as H1.
    pose proof (reads_as_get _ _ _ b H1) as Hb.
    destruct (dict_get b regions) as [o |] eqn:Eo; cbn.
    + destruct Hb as (r' & Hr' & ->). cbn.
      eexists. split; [reflexivity |].
      exact (reads_as_update _ _ _ _ _ _ g H1 Eo Hr').
    + rewrite Hb. reflexivity.
  - rewrite Ha. reflexivity.
Qed.

Lemma create_connection_x_by_value (regions : refdict) (h : heap) (regs : registry)
    (a b : string) :
  reads_as regions h regs ->
  follows (st _ <- _create_connection_x regions a b; ret regions)
          (create_connection_x_value regs a b) h.
Proof.
  intros H. pose proof (connection_by_value _ _ _ a b
    (fun r => set_connection_outer_x r b) (fun r => set_connection_inner_x r a) H) as S.
  unfold follows, _create_connection_x, create_connection_x_value, bindS in *.
  destruct (lift (dict_item a regions) h) as [h1 [i | e]]; [| exact S].
  destruct (update_object i _ h1) as [h2 [[] | e]]; [| exact S].
  destruct (lift (dict_item b regions) h2) as [h3 [o | e]]; [| exact S].
  destruct (update_object o _ h3) as [h4 [[] | e]]; exact S.
Qed.

Lemma create_connection_y_by_value (regions : refdict) (h : heap) (regs : registry)
    (a b : string) :
  reads_as regions h regs ->
  follows (st _ <- _create_connection_y regions a b; ret regions)
          (create_connection_y_value regs a b) h.
Proof.
  intros H. pose proof (connection_by_value _ _ _ a b
    (fun r => set_connection_upper_y r b) (fun r => set_connection_lower_y r a) H) as S.
  unfold follows, _create_connection_y, create_connection_y_value, bindS in *.
  destruct (lift (dict_item a regions) h) as [h1 [i | e]]; [| exact S].
  destruct (update_object i _ h1) as [h2 [[] | e]]; [| exact S].
  destruct (lift (dict_item b regions) h2) as [h3 [o | e]]; [| exact S].
  destruct (update_object o _ h3) as [h4 [[] | e]]; exact S.
Qed.

Lemma connect_all_by_value
    (create : refdict -> string -> string -> ST unit)
    (create_value : registry -> string -> string -> result registry)
    (regions : refdict) :
  (forall h regs a b, reads_as regions h regs ->
     follows (st _ <- create regions a b; ret regions) (create_value regs a b) h) ->
  forall pairs h regs, reads_as regions h regs ->
    follows (st _ <- connect_all create pairs regions; ret regions)
            (connect_all_value create_value pairs regs) h.
Proof.
  intros Hc pairs. induction pairs as [| [a b] pairs IH]; intros h regs H.
  - unfold follows. cbn. eauto.
  - specialize (Hc h regs a b H). cbn [connect_all connect_all_value].
    unfold follows, bindS in *.
    destruct (create regions a b h) as [h1 [[] | e]]; cbn in Hc.
    + destruct Hc as (regs1 & -> & H1). cbn [bind]. exact (IH h1 regs1 H1).
    + rewrite Hc. reflexivity.
Qed.

Lemma add_regions_by_value (ds : Dataset) (stmts : list region_stmt) :
  forall regions h regs, reads_as regions h regs ->
    follows (add_regions ds stmts regions) (add_regions_value ds stmts regs) h.
Proof.
  induction stmts as [| s stmts IH]; intros regions h regs H.
  - unfold follows. cbn. eauto.
  - cbn [add_regions add_regions_value]. unfold follows, bindS, lift, new_object in *.
    destruct (Region_init _ _ _ _ _ _) as [r | e]; cbn [bind]; [| reflexivity].
    apply IH. now apply reads_as_new.
Qed.

Lemma run_branch_by_value (ds : Dataset) (br : branch) :
  run_branch ds br = run_branch_value ds br.
Proof.
  unfold run_branch, run_branch_value, returned.
  pose proof (add_regions_by_value ds (br_regions br) _ _ _ reads_as_nil) as H0.
  unfold follows, bindS in *.
  destruct (add_regions ds (br_regions br) [] []) as [h0 [regions | e]];
    [| now rewrite H0].
  destruct H0 as (regs0 & -> & H0). cbn.
  pose proof (connect_all_by_value _ _ regions
    (fun h regs a b => create_connection_x_by_value regions h regs a b)
    (br_connections_x br) h0 regs0 H0) as H1.
  unfold follows, bindS in H1.
  destruct (connect_all _create_connection_x _ regions h0) as [h1 [[] | e]];
    [| now rewrite H1].
  cbn in H1. destruct H1 as (regs1 & -> & H1). cbn.
  pose proof (connect_all_by_value _ _ regions
    (fun h regs a b => create_connection_y_by_value regions h regs a b)
    (br_connections_y br) h1 regs1 H1) as H2.
  unfold follows, bindS in H2.
  destruct (connect_all _create_connection_y _ regions h1) as [h2 [[] | e]];
    [| now rewrite H2].
  cbn in H2. destruct H2 as (regs2 & -> & (<- & _)). reflexivity.
Qed.

(** The builder returns what its reading on values returns. *)
Lemma create_regions_by_value (ds : Dataset) :
  _create_regions_toroidal ds =
  do t <- _get_topology ds;
  run_branch_value ds (branch_of t (adjust_breakpoints (metadata ds))).
Proof.
  unfold _create_regions_toroidal. destruct (_get_topology ds); [| reflexivity].
  cbn. apply run_branch_by_value.
Qed.

(** ** The registry built by [_create_regions_toroidal] *)

Lemma bind_Ok {A B} (r : result A) (k : A -> result B) (b : B) :
  bind r k = Ok b -> exists a, r = Ok a /\ k a = Ok b.
Proof. destruct r as [a|e]; simpl; intros H; [eauto | discriminate]. Qed.

Ltac inv_bind H :=
  let a := fresh "a" in
  let Ha := fresh "Ha" in
  apply bind_Ok in H; destruct H as (a & Ha & H).

Lemma Region_init_Ok nm ds xi xo yl yu r :
  Region_init nm ds xi xo yl yu = Ok r ->
  name r = nm /\ rect_of r = Rect xi xo yl yu /\
  connection_inner_x r = None /\ connection_outer_x r = None /\
  connection_lower_y r = None /\ connection_upper_y r = None.
Proof.
  unfold Region_init. intros H. inv_bind H. injection H as <-.
  repeat split.
Qed.

Lemma rects_dict_set k r (d : registry) :
  rects (dict_set k r d) = dict_set k (rect_of r) (rects d).
Proof.
  induction d as [| [k' v'] d IH]; simpl; [reflexivity |].
  destruct (String.eqb k k'); simpl; [reflexivity | now rewrite IH].
Qed.

Lemma rects_dict_set_same k r r' (d : registry) :
  dict_get k d = Some r -> rect_of r' = rect_of r ->
  rects (dict_set k r' d) = rects d.
Proof.
  intros Hget Hrect. induction d as [| [k' v'] d IH]; simpl in *; [discriminate |].
  destruct (String.eqb k k') eqn:E; simpl.
  - apply String.eqb_eq in E. subst k'. injection Hget as ->. now rewrite Hrect.
  - now rewrite IH.
Qed.

Lemma dict_item_Ok {A} k (d : list (string * A)) v :
  dict_item k d = Ok v -> dict_get k d = Some v.
Proof.
  unfold dict_item. destruct (dict_get k d); simpl; intros H;
    [now injection H as -> | discriminate].
Qed.

Lemma create_connection_x_rects regs a b regs' :
  create_connection_x_value regs a b = Ok regs' -> rects regs' = rects regs.
Proof.
  unfold create_connection_x_value. intros H.
  apply bind_Ok in H. destruct H as (r1 & H1 & H).
  apply bind_Ok in H. destruct H as (r2 & H2 & H). injection H as <-.
  apply dict_item_Ok in H1, H2.
  erewrite rects_dict_set_same; [| exact H2 | reflexivity].
  erewrite rects_dict_set_same; [reflexivity | exact H1 | reflexivity].
Qed.

Lemma create_connection_y_rects regs a b regs' :
  create_connection_y_value regs a b = Ok regs' -> rects regs' = rects regs.
Proof.
  unfold create_connection_y_value. intros H.
  apply bind_Ok in H. destruct H as (r1 & H1 & H).
  apply bind_Ok in H. destruct H as (r2 & H2 & H). injection H as <-.
  apply dict_item_Ok in H1, H2.
  erewrite rects_dict_set_same; [| exact H2 | reflexivity].
  erewrite rects_dict_set_same; [reflexivity | exact H1 | reflexivity].
Qed.

Lemma connect_all_rects create pairs :
  (forall regs a b regs', create regs a b = Ok regs' -> rects regs' = rects regs) ->
  forall regs regs',
    connect_all_value create pairs regs = Ok regs' -> rects regs' = rects regs.
Proof.
  intros Hc. induction pairs as [| [a b] pairs IH]; simpl; intros regs regs' H.
  - now injection H as <-.
  - inv_bind H. apply IH in H. apply Hc in Ha. congruence.
Qed.

Lemma add_regions_rects ds stmts :
  forall regs regs',
    add_regions_value ds stmts regs = Ok regs' ->
    rects regs' =
    fold_left (fun d s => dict_set (rs_key s) (stmt_rect s) d) stmts (rects regs).
Proof.
  induction stmts as [| s stmts IH]; simpl; intros regs regs' H.
  - now injection H as <-.
  - inv_bind H. apply IH in H. rewrite H, rects_dict_set.
    apply Region_init_Ok in Ha. destruct Ha as (_ & -> & _). reflexivity.
Qed.

Lemma run_branch_rects ds br regs :
  run_branch_value ds br = Ok regs -> rects regs = branch_rects br.
Proof.
  unfold run_branch_value, branch_rects. intros H.
  apply bind_Ok in H. destruct H as (regs0 & H0 & H).
  apply bind_Ok in H. destruct H as (regs1 & H1 & H).
  apply (connect_all_rects _ _ create_connection_y_rects) in H.
  apply (connect_all_rects _ _ create_connection_x_rects) in H1.
  apply add_regions_rects in H0. simpl in H0. congruence.
Qed.

(** The classifier's answer fixes the relations between the raw metadata. *)
Lemma get_topology_facts ds t :
  _get_topology ds = Ok t -> topology_facts (metadata ds) t.
Proof.
  unfold _get_topology, topology_facts. intros H.
  repeat match type of H with
  | context [if ?c then _ else _] =>
      let E := fresh "E" in destruct c eqn:E; bool_to_prop
  end; try discriminate; injection H as <-; repeat split; try lia.
Qed.

Lemma create_regions_rects ds regs :
  _create_regions_toroidal ds = Ok regs ->
  exists t, _get_topology ds = Ok t /\
            rects regs = branch_rects (branch_of t (adjust_breakpoints (metadata ds))).
Proof.
  rewrite create_regions_by_value. intros H. inv_bind H.
  exists a. split; [assumption |]. now apply (run_branch_rects ds).
Qed.

Lemma in_range_cases v lo hi :
  (v < lo /\ _in_range v lo hi = lo) \/
  (lo <= v /\ hi < v /\ _in_range v lo hi = hi) \/
  (lo <= v <= hi /\ _in_range v lo hi = v).
Proof. unfold _in_range. split_tests; lia. Qed.

Lemma in_range_id v lo hi : lo <= v <= hi -> _in_range v lo hi = v.
Proof. intros H. unfold _in_range. split_tests; lia. Qed.

Lemma order_vars_min_max a b : _order_vars a b = (Z.min a b, Z.max a b).
Proof. unfold _order_vars. split_tests; f_equal; lia. Qed.

(** The adjusted breakpoints in closed form. *)
Lemma adjust_breakpoints_eq (md : Metadata) :
  let gx := xguards_removed md in
  let yb := keep_yboundaries md * MYG md in
  let ybu := if jyseps2_1 md =? jyseps1_2 md then 0 else yb in
  let c1 := _in_range (ixseps1 md) 0 (meta_nx md) in
  let c2 := _in_range (ixseps2 md) 0 (meta_nx md) in
  let j21 := _in_range (jyseps2_1 md) 0 (meta_ny md - 1) in
  let j12 := _in_range (jyseps1_2 md) 0 (meta_ny md - 1) in
  adjust_breakpoints md =
  {| ixs1 := Z.min c1 c2 - gx; ixs2 := Z.max c1 c2 - gx;
     bnx := meta_nx md - 2 * gx;
     jys11 := _in_range (jyseps1_1 md) 0 (meta_ny md - 1) + yb;
     jys21 := Z.min j21 j12 + yb;
     nyinner := _in_range (ny_inner md) (Z.min j21 j12 + 1) (Z.max j21 j12 + 1)
                + (yb + ybu);
     jys12 := Z.max j21 j12 + (yb + 2 * ybu);
     jys22 := _in_range (jyseps2_2 md) 0 (meta_ny md - 1) + (yb + 2 * ybu);
     bny := meta_ny md + (2 * yb + 2 * ybu);
     ybndry := yb |}.
Proof.
  intros gx yb ybu c1 c2 j21 j12. unfold adjust_breakpoints.
  fold yb. fold ybu. fold c1. fold c2. fold j21. fold j12.
  rewrite !order_vars_min_max. subst gx. unfold xguards_removed.
  destruct (keep_xboundaries md =? 0); f_equal; lia.
Qed.

Lemma breakpoints_chain (md : Metadata) (t : topology) :
  topology_facts md t -> metadata_ordered md t ->
  chain t (adjust_breakpoints md).
Proof.
  intros Hf (Hmxg & Hmyg & Hk & Ho).
  rewrite adjust_breakpoints_eq.
  assert (Hgx : 0 <= xguards_removed md)
    by (unfold xguards_removed; destruct (keep_xboundaries md =? 0); lia).
  assert (Hyb : 0 <= keep_yboundaries md * MYG md)
    by (destruct Hk as [-> | ->]; lia).
  unfold separatrix_inside, both_separatrices_inside in Ho.
  generalize dependent (xguards_removed md). intros gx Ho Hgx.
  generalize dependent (keep_yboundaries md * MYG md). intros yb Hyb.
  pose proof (in_range_cases (ixseps1 md) 0 (meta_nx md)) as C1.
  pose proof (in_range_cases (ixseps2 md) 0 (meta_nx md)) as C2.
  destruct t; unfold topology_facts in Hf; unfold chain, y_chain_double_null;
    cbn [ixs1 ixs2 bnx jys11 jys21 nyinner jys12 jys22 bny ybndry];
    try (destruct (Z.eqb_spec (jyseps2_1 md) (jyseps1_2 md)); [| lia]);
    try (destruct (Z.eqb_spec (jyseps2_1 md) (jyseps1_2 md)); [lia |]);
    repeat match goal with
    | |- context [_in_range ?v ?lo ?hi] => rewrite (in_range_id v lo hi) by lia
    end;
    lia.
Qed.

(** ** Connections of the built registry *)

Lemma strip_dict_set k r (d : registry) :
  strip_all (dict_set k r d) = dict_set k (strip r) (strip_all d).
Proof.
  induction d as [| [k' v'] d IH]; simpl; [reflexivity |].
  destruct (String.eqb k k'); simpl; [reflexivity | now rewrite IH].
Qed.

Lemma dict_get_strip k (d : registry) :
  dict_get k (strip_all d) = option_map strip (dict_get k d).
Proof.
  induction d as [| [k' v'] d IH]; simpl; [reflexivity |].
  destruct (String.eqb k k'); simpl; [reflexivity | exact IH].
Qed.

Lemma dict_item_strip k (d : registry) r :
  dict_item k d = Ok r -> dict_item k (strip_all d) = Ok (strip r).
Proof.
  unfold dict_item. rewrite dict_get_strip.
  destruct (dict_get k d); simpl; intros H; [now injection H as -> | discriminate].
Qed.

Lemma create_connection_x_strip regs a b regs' :
  create_connection_x_value regs a b = Ok regs' ->
  create_connection_x_value (strip_all regs) a b = Ok (strip_all regs').
Proof.
  unfold create_connection_x_value. intros H.
  apply bind_Ok in H. destruct H as (r1 & H1 & H).
  apply bind_Ok in H. destruct H as (r2 & H2 & H). injection H as <-.
  rewrite (dict_item_strip _ _ _ H1). simpl.
  change (set_connection_outer_x (strip r1) b) with (strip (set_connection_outer_x r1 b)).
  rewrite <- strip_dict_set, (dict_item_strip _ _ _ H2). simpl.
  change (set_connection_inner_x (strip r2) a) with (strip (set_connection_inner_x r2 a)).
  now rewrite <- strip_dict_set.
Qed.

Lemma create_connection_y_strip regs a b regs' :
  create_connection_y_value regs a b = Ok regs' ->
  create_connection_y_value (strip_all regs) a b = Ok (strip_all regs').
Proof.
  unfold create_connection_y_value. intros H.
  apply bind_Ok in H. destruct H as (r1 & H1 & H).
  apply bind_Ok in H. destruct H as (r2 & H2 & H). injection H as <-.
  rewrite (dict_item_strip _ _ _ H1). simpl.
  change (set_connection_upper_y (strip r1) b) with (strip (set_connection_upper_y r1 b)).
  rewrite <- strip_dict_set, (dict_item_strip _ _ _ H2). simpl.
  change (set_connection_lower_y (strip r2) a) with (strip (set_connection_lower_y r2 a)).
  now rewrite <- strip_dict_set.
Qed.

Lemma connect_all_strip create pairs :
  (forall regs a b regs', create regs a b = Ok regs' ->
                          create (strip_all regs) a b = Ok (strip_all regs')) ->
  forall regs regs',
    connect_all_value create pairs regs = Ok regs' ->
    connect_all_value create pairs (strip_all regs) = Ok (strip_all regs').
Proof.
  intros Hc. induction pairs as [| [a b] pairs IH]; simpl; intros regs regs' H.
  - now injection H as <-.
  - apply bind_Ok in H. destruct H as (regs1 & H1 & H).
    rewrite (Hc _ _ _ _ H1). simpl. now apply IH.
Qed.

Lemma add_regions_strip ds stmts :
  forall regs regs',
    add_regions_value ds stmts regs = Ok regs' ->
    strip_all regs' =
    fold_left (fun d s => dict_set (rs_key s) (bare_region s) d) stmts (strip_all regs).
Proof.
  induction stmts as [| s stmts IH]; simpl; intros regs regs' H.
  - now injection H as <-.
  - apply bind_Ok in H. destruct H as (r & Hr & H).
    apply IH in H. rewrite H, strip_dict_set. do 2 f_equal.
    unfold Region_init in Hr. apply bind_Ok in Hr. destruct Hr as (c & _ & Hr).
    injection Hr as <-. reflexivity.
Qed.

(** The names, bounds and connections of the built registry are those of
    the branch run without a dataset. *)
Lemma run_branch_skeleton ds br regs :
  run_branch_value ds br = Ok regs -> skeleton br = Ok (strip_all regs).
Proof.
  unfold run_branch_value, skeleton. intros H.
  apply bind_Ok in H. destruct H as (regs0 & H0 & H).
  apply bind_Ok in H. destruct H as (regs1 & H1 & H).
  apply add_regions_strip in H0. simpl in H0. rewrite <- H0.
  rewrite (connect_all_strip _ _ create_connection_x_strip _ _ H1). simpl.
  exact (connect_all_strip _ _ create_connection_y_strip _ _ H).
Qed.

Ltac compute_skeleton :=
  cbv -[Z.add Z.sub ixs1 ixs2 bnx jys11 jys21 nyinner jys12 jys22 bny ybndry].

Lemma skeleton_checks (t : topology) (b : breakpoints) :
  exists regs,
    skeleton (branch_of t b) = Ok regs /\
    symmetric_on_keys regs = true /\
    no_outer_transitive_fetch regs = true /\
    inner_transitive_fetch_periodic regs = true /\
    (t <> single_null ->
     forallb (fun kr => String.eqb (fst kr) (name (snd kr))) regs = true).
Proof.
  destruct t; eexists; (split; [compute_skeleton; reflexivity |]).
  all: split; [vm_compute; exact eq_refl |].
  all: split; [vm_compute; exact eq_refl |].
  all: split; [vm_compute; exact eq_refl |].
  all: intros Hne; try (exfalso; apply Hne; exact eq_refl).
  all: vm_compute; exact eq_refl.
Qed.

Lemma create_regions_skeleton ds regs :
  _create_regions_toroidal ds = Ok regs ->
  exists t, _get_topology ds = Ok t /\
            skeleton (branch_of t (adjust_breakpoints (metadata ds)))
            = Ok (strip_all regs).
Proof.
  rewrite create_regions_by_value. intros H.
  apply bind_Ok in H. destruct H as (t & Ht & H).
  exists t. split; [assumption |]. now apply (run_branch_skeleton ds).
Qed.

Lemma links_back_spec (regs : registry) forward backward :
  links_back regs forward backward = true ->
  forall k r s, In (k, r) regs -> forward r = Some s ->
    exists rs, dict_get s regs = Some rs /\ backward rs = Some k.
Proof.
  unfold links_back. rewrite forallb_forall. intros H k r s Hin Hf.
  specialize (H (k, r) Hin). simpl in H. rewrite Hf in H.
  destruct (dict_get s regs) as [rs |]; [| discriminate].
  destruct (backward rs) as [k' |] eqn:Eb; [| discriminate].
  apply String.eqb_eq in H. subst k'. exists rs. split; [reflexivity | exact Eb].
Qed.

Lemma in_strip_all k r (regs : registry) :
  In (k, r) regs -> In (k, strip r) (strip_all regs).
Proof. intros H. apply (in_map (fun kr => (fst kr, strip (snd kr))) _ _ H). Qed.

(** Transfers a link property from the registry without coordinates. *)
Lemma links_back_strip (regs : registry) forward backward :
  (forall r, forward (strip r) = forward r) ->
  (forall r, backward (strip r) = backward r) ->
  links_back (strip_all regs) forward backward = true ->
  forall k r s, In (k, r) regs -> forward r = Some s ->
    exists rs, dict_get s regs = Some rs /\ backward rs = Some k.
Proof.
  intros Hf Hb H k r s Hin Hs.
  destruct (links_back_spec _ _ _ H k (strip r) s (in_strip_all _ _ _ Hin))
    as (rs & Hget & Hback); [now rewrite Hf |].
  rewrite dict_get_strip in Hget.
  destruct (dict_get s regs) as [rs' |]; [| discriminate].
  injection Hget as <-. rewrite Hb in Hback. eauto.
Qed.

(** In every registry the builder returns, the four kinds of connection are
    symmetric on the registry keys. *)
Lemma connections_symmetric_on_keys (ds : Dataset) (regs : registry) :
  _create_regions_toroidal ds = Ok regs ->
  forall k r s, In (k, r) regs ->
    (connection_outer_x r = Some s ->
     exists rs, dict_get s regs = Some rs /\ connection_inner_x rs = Some k) /\
    (connection_inner_x r = Some s ->
     exists rs, dict_get s regs = Some rs /\ connection_outer_x rs = Some k) /\
    (connection_upper_y r = Some s ->
     exists rs, dict_get s regs = Some rs /\ connection_lower_y rs = Some k) /\
    (connection_lower_y r = Some s ->
     exists rs, dict_get s regs = Some rs /\ connection_upper_y rs = Some k).
Proof.
  intros Hb k r s Hin.
  destruct (create_regions_skeleton _ _ Hb) as (t & _ & Hs).
  destruct (skeleton_checks t (adjust_breakpoints (metadata ds)))
    as (regs0 & Hs0 & Hsym & _).
  rewrite Hs in Hs0. injection Hs0 as <-.
  unfold symmetric_on_keys in Hsym.
  apply andb_true_iff in Hsym. destruct Hsym as [Hsym H4].
  apply andb_true_iff in Hsym. destruct Hsym as [Hsym H3].
  apply andb_true_iff in Hsym. destruct Hsym as [H1 H2].
  repeat split; intros Hc;
    eapply links_back_strip; eauto; reflexivity.
Qed.

(** Except in the single-null branch, every region is named after the key
    it is stored under. *)
Lemma names_are_keys (ds : Dataset) (t : topology) (regs : registry) :
  _get_topology ds = Ok t -> t <> single_null ->
  _create_regions_toroidal ds = Ok regs ->
  forall k r, In (k, r) regs -> name r = k.
Proof.
  intros Ht Hne Hb k r Hin.
  destruct (create_regions_skeleton _ _ Hb) as (t' & Ht' & Hs).
  rewrite Ht in Ht'. injection Ht' as <-.
  destruct (skeleton_checks t (adjust_breakpoints (metadata ds)))
    as (regs0 & Hs0 & _ & _ & _ & Hnames).
  rewrite Hs in Hs0. injection Hs0 as <-.
  specialize (Hnames Hne). rewrite forallb_forall in Hnames.
  specialize (Hnames _ (in_strip_all _ _ _ Hin)). simpl in Hnames.
  apply String.eqb_eq in Hnames. congruence.
Qed.

(** In a registry the builder returns, the outer-x neighbour of a region
    never has a y-connection on a side where the region itself has none:
    the outer-x stitcher does not fetch rows transitively there. *)
Lemma built_registry_no_outer_transitive_fetch (ds : Dataset) (regs : registry) :
  _create_regions_toroidal ds = Ok regs ->
  forall k r s rs, In (k, r) regs ->
    connection_outer_x r = Some s -> dict_get s regs = Some rs ->
    (connection_lower_y r = None -> connection_lower_y rs = None) /\
    (connection_upper_y r = None -> connection_upper_y rs = None).
Proof.
  intros Hb k r s rs Hin Hco Hget.
  destruct (create_regions_skeleton _ _ Hb) as (t & _ & Hs).
  destruct (skeleton_checks t (adjust_breakpoints (metadata ds)))
    as (regs0 & Hs0 & _ & Hno & _).
  rewrite Hs in Hs0. injection Hs0 as <-.
  unfold no_outer_transitive_fetch in Hno. rewrite forallb_forall in Hno.
  specialize (Hno _ (in_strip_all _ _ _ Hin)). simpl in Hno.
  rewrite Hco, dict_get_strip, Hget in Hno. simpl in Hno.
  apply andb_true_iff in Hno. destruct Hno as [Hl Hu].
  split; intros Hnone; rewrite Hnone in *; simpl in *.
  - destruct (connection_lower_y rs); [discriminate | reflexivity].
  - destruct (connection_upper_y rs); [discriminate | reflexivity].
Qed.

(** ** Region bounds *)

(** Unfolds the Region assignments of a branch into the list of keys and
    rectangles, keeping the arithmetic on the breakpoints as it is. *)
Ltac compute_branch_rects :=
  cbv [branch_rects branch_of br_regions fold_left dict_set rs_key stmt_rect
       same_name rs_xinner rs_xouter rs_ylower rs_yupper
       disconnected_double_null_branch connected_double_null_branch
       single_null_branch limiter_branch core_branch sol_branch xpoint_branch
       String.eqb Ascii.eqb Bool.eqb].

Lemma in_rects k r (regs : registry) :
  In (k, r) regs -> In (k, rect_of r) (rects regs).
Proof. intros H. apply (in_map (fun kr => (fst kr, rect_of (snd kr))) _ _ H). Qed.

(** C9, counterexample.  The classifier accepts a single-null grid with the
    separatrix at [ixseps1 = 0]; the builder then creates [inner_PFR] with
    the empty x-range [0, 0). *)
Lemma empty_region_constructed :
  _get_topology ds_separatrix_at_edge = Ok single_null /\
  exists regs r,
    _create_regions_toroidal ds_separatrix_at_edge = Ok regs /\
    dict_get "inner_PFR" regs = Some r /\
    xinner_ind r = 0 /\ xouter_ind r = 0 /\
    ~ (0 <= xinner_ind r < xouter_ind r).
Proof.
  split; [reflexivity |].
  do 2 eexists. split; [vm_compute; reflexivity |].
  split; [vm_compute; reflexivity |].
  cbn. repeat split. lia.
Qed.

(** C9, amended.  When the breakpoints used by the classified topology are
    strictly increasing and inside the grid ([metadata_ordered]), every
    Region of the built registry has [0 <= xinner_ind < xouter_ind] and
    [0 <= ylower_ind < yupper_ind]. *)
Theorem regions_nondegenerate (ds : Dataset) (t : topology) (regs : registry) :
  _get_topology ds = Ok t ->
  metadata_ordered (metadata ds) t ->
  _create_regions_toroidal ds = Ok regs ->
  forall k r, In (k, r) regs ->
    0 <= xinner_ind r < xouter_ind r /\ 0 <= ylower_ind r < yupper_ind r.
Proof.
  intros Ht Ho Hb k r Hin.
  destruct (create_regions_rects _ _ Hb) as (t' & Ht' & Hr).
  rewrite Ht in Ht'. injection Ht' as <-.
  pose proof (breakpoints_chain _ _ (get_topology_facts _ _ Ht) Ho) as Hc.
  apply in_rects in Hin. rewrite Hr in Hin. clear Hr Hb Ho Ht.
  remember (adjust_breakpoints (metadata ds)) as b eqn:Eb. clear Eb.
  unfold rect_of in Hin.
  destruct t; unfold chain, y_chain_double_null in Hc;
    revert Hin; compute_branch_rects; cbn [In]; intros Hin;
    repeat match goal with
    | H : _ \/ _ |- _ => destruct H as [H | H]
    | H : False |- _ => contradiction
    | H : (_, _) = (_, _) |- _ => injection H as _ ? ? ? ?
    end; lia.
Qed.

Lemma regions_nondegenerate_witness :
  exists regs r,
    _create_regions_toroidal ds_double_null = Ok regs /\
    In ("inner_intersep", r) regs /\
    0 <= xinner_ind r < xouter_ind r /\ 0 <= ylower_ind r < yupper_ind r.
Proof.
  destruct (_create_regions_toroidal ds_double_null) as [regs | e] eqn:Hb;
    [| vm_compute in Hb; discriminate].
  assert (Hin : exists r, In ("inner_intersep", r) regs).
  { pose proof Hb as Hb'. vm_compute in Hb'. injection Hb' as <-.
    eexists. do 4 right. left. reflexivity. }
  destruct Hin as [r Hin]. exists regs, r.
  split; [reflexivity |]. split; [exact Hin |].
  apply (regions_nondegenerate ds_double_null disconnected_double_null regs)
    with (k := "inner_intersep").
  - reflexivity.
  - unfold metadata_ordered, both_separatrices_inside, xguards_removed.
    simpl. lia.
  - exact Hb.
  - exact Hin.
Defined.

(** ** Partition of the grid *)

Lemma cover_count_rects_eq (regs : registry) i j :
  cover_count regs i j = cover_count_rects (rects regs) i j.
Proof.
  unfold cover_count, cover_count_rects, rects.
  induction regs as [| [k r] regs IH]; simpl; [reflexivity |].
  destruct (in_rect i j (rect_of r)); simpl; congruence.
Qed.

(** Decides the integer comparisons of the goal one at a time, dropping the
    combinations that contradict the hypotheses. *)
Ltac decide_tests :=
  repeat match goal with
  | |- context [?a <=? ?b] => destruct (Z.leb_spec a b); try (exfalso; lia)
  | |- context [?a <? ?b] => destruct (Z.ltb_spec a b); try (exfalso; lia)
  end.

(** C3, counterexample.  On a core-only grid read with its y-boundary cells
    (4 x 12 cells, [MYG = 2]) the only region is [core] with the rows
    [2, 10): the cell [(0, 0)] of the grid belongs to no region. *)
Lemma core_boundary_rows_uncovered :
  metadata_ordered md_core core /\
  exists regs,
    _create_regions_toroidal ds_core = Ok regs /\
    in_grid (adjust_breakpoints md_core) 0 0 = true /\
    cover_count regs 0 0 = 0%nat.
Proof.
  split.
  - unfold metadata_ordered, xguards_removed. simpl. lia.
  - eexists. split; [vm_compute; reflexivity |]. split; reflexivity.
Qed.

(** C3, amended.  For metadata ordered as the topology requires, every cell
    of the (boundary-adjusted) [nx] x [ny] grid lies in exactly one region
    and no cell outside the grid lies in any, except that in the [core] and
    [limiter] topologies the y-boundary rows [0, ybndry) and
    [ny - ybndry, ny) in the columns of the periodic [core] region belong to
    no region. *)
Theorem regions_tile_grid (ds : Dataset) (t : topology) (regs : registry) :
  _get_topology ds = Ok t ->
  metadata_ordered (metadata ds) t ->
  _create_regions_toroidal ds = Ok regs ->
  forall i j,
    let b := adjust_breakpoints (metadata ds) in
    cover_count regs i j =
    if in_grid b i j && negb (periodic_boundary_cell t b i j) then 1%nat else 0%nat.
Proof.
  intros Ht Ho Hb i j b.
  destruct (create_regions_rects _ _ Hb) as (t' & Ht' & Hr).
  rewrite Ht in Ht'. injection Ht' as <-.
  pose proof (breakpoints_chain _ _ (get_topology_facts _ _ Ht) Ho) as Hc.
  rewrite cover_count_rects_eq, Hr. fold b in Hc |- *. clear Hr Hb Ho Ht.
  clearbody b.
  unfold cover_count_rects, in_grid, periodic_boundary_cell.
  destruct t; unfold chain, y_chain_double_null in Hc;
    compute_branch_rects;
    cbv [fold_right in_rect x0 x1 y0 y1 snd];
    decide_tests; reflexivity.
Qed.

Lemma regions_tile_grid_witness :
  exists regs,
    _create_regions_toroidal ds_double_null = Ok regs /\
    cover_count regs 4 7 = 1%nat /\ cover_count regs 8 7 = 0%nat.
Proof.
  destruct (_create_regions_toroidal ds_double_null) as [regs | e] eqn:Hb;
    [| vm_compute in Hb; discriminate].
  exists regs. split; [reflexivity |].
  assert (Ho : metadata_ordered (metadata ds_double_null) disconnected_double_null).
  { unfold metadata_ordered, both_separatrices_inside, xguards_removed.
    simpl. lia. }
  split.
  - rewrite (regions_tile_grid ds_double_null disconnected_double_null regs
               eq_refl Ho Hb 4 7). reflexivity.
  - rewrite (regions_tile_grid ds_double_null disconnected_double_null regs
               eq_refl Ho Hb 8 7). reflexivity.
Defined.

(** ** Guard-cell stitcher *)

Section StitcherFacts.
Context {V : Type}.
Variable from_region : DataArray V -> option string -> Z -> Z -> result (DataArray V).

Ltac same_binds :=
  repeat match goal with
  | |- context [bind ?x _] => destruct x; simpl
  end; try reflexivity.

(** Each stitcher is its guard block followed by the final [xr.concat]
    and the re-attachment of the region. *)
Lemma concat_inner_guards_block (da da_global : DataArray V) (mxg : Z) :
  _concat_inner_guards from_region da da_global mxg =
  if mxg <=? 0 then Ok da
  else
    do da_region <- get_region da;
    do block <- inner_guard_block from_region da_region
                  (is_not_None (xcoords da)) da_global mxg;
    do da' <- concat_x block da;
    Ok (set_region da' da_region).
Proof.
  unfold _concat_inner_guards, inner_guard_block.
  destruct (mxg <=? 0); [reflexivity |]. same_binds.
Qed.

Lemma concat_outer_guards_block (da da_global : DataArray V) (mxg : Z) :
  _concat_outer_guards from_region da da_global mxg =
  if mxg <=? 0 then Ok da
  else
    do da_region <- get_region da;
    do block <- outer_guard_block from_region da_region
                  (is_not_None (xcoords da)) da_global mxg;
    do da' <- concat_x da block;
    Ok (set_region da' da_region).
Proof.
  unfold _concat_outer_guards, outer_guard_block.
  destruct (mxg <=? 0); [reflexivity |]. same_binds.
Qed.

Lemma concat_lower_guards_block (da da_global : DataArray V) (mxg myg : Z) :
  _concat_lower_guards from_region da da_global mxg myg =
  if myg <=? 0 then Ok da
  else
    do da_region <- get_region da;
    do block <- lower_guard_block from_region da_region
                  (is_not_None (ycoords da)) da_global mxg myg;
    do da' <- concat_y block da;
    Ok (set_region da' da_region).
Proof.
  unfold _concat_lower_guards, lower_guard_block.
  destruct (myg <=? 0); [reflexivity |]. same_binds.
Qed.

Lemma concat_upper_guards_block (da da_global : DataArray V) (mxg myg : Z) :
  _concat_upper_guards from_region da da_global mxg myg =
  if myg <=? 0 then Ok da
  else
    do da_region <- get_region da;
    do block <- upper_guard_block from_region da_region
                  (is_not_None (ycoords da)) da_global mxg myg;
    do da' <- concat_y da block;
    Ok (set_region da' da_region).
Proof.
  unfold _concat_upper_guards, upper_guard_block.
  destruct (myg <=? 0); [reflexivity |]. same_binds.
Qed.

Lemma concat_x_Ok (a b c : DataArray V) :
  concat_x a b = Ok c ->
  values c = (values a ++ values b)%list /\
  is_not_None (xcoords c) = is_not_None (xcoords a) /\
  is_not_None (xcoords c) = is_not_None (xcoords b).
Proof.
  unfold concat_x. destruct (negb _); [discriminate |].
  destruct (xcoords a), (xcoords b); simpl; intros H;
    try discriminate; injection H as <-; repeat split.
Qed.

Lemma concat_y_Ok (a b c : DataArray V) :
  concat_y a b = Ok c ->
  values c = zip_with app (values a) (values b) /\
  is_not_None (ycoords c) = is_not_None (ycoords a) /\
  is_not_None (ycoords c) = is_not_None (ycoords b).
Proof.
  unfold concat_y. destruct (negb _); [discriminate |].
  destruct (ycoords a), (ycoords b); simpl; intros H;
    try discriminate; injection H as <-; repeat split.
Qed.
End StitcherFacts.

Lemma limiter_core_eq :
  from_region global_limiter (Some "core") 0 0 = Ok limiter_core.
Proof. vm_compute. reflexivity. Qed.

Lemma limiter_core_stitched_eq :
  _concat_outer_guards from_region limiter_core global_limiter 2
  = Ok limiter_core_stitched.
Proof. vm_compute. reflexivity. Qed.

Lemma limiter_core_stitched_twice_eq :
  _concat_outer_guards from_region limiter_core_stitched global_limiter 2
  = Ok limiter_core_stitched_twice.
Proof. vm_compute. reflexivity. Qed.

(** ** Missing boundary data *)

(** C8, counterexample.  Core-only grid of 4 x 8 cells read without its
    y-boundary cells, array without attached coordinates: the lower guard
    slice of region [core] for [myg = 2] starts at [-2], outside the global
    array, and the lower-y stitcher returns an array (the last two rows of
    the periodic region joined below the first) instead of raising. *)
Lemma lower_guards_without_coordinate :
  exists da r res,
    from_region global_core_bare (Some "core") 0 0 = Ok da /\
    get_region da = Ok r /\
    ylower_ind r - 2 < 0 /\
    _concat_lower_guards from_region da global_core_bare 0 2 = Ok res /\
    values res =
    [[6; 7; 0; 1; 2; 3; 4; 5; 6; 7];
     [106; 107; 100; 101; 102; 103; 104; 105; 106; 107];
     [206; 207; 200; 201; 202; 203; 204; 205; 206; 207];
     [306; 307; 300; 301; 302; 303; 304; 305; 306; 307]].
Proof.
  do 3 eexists.
  split; [vm_compute; reflexivity |].
  split; [vm_compute; reflexivity |].
  split; [vm_compute; reflexivity |].
  split; [vm_compute; reflexivity |].
  reflexivity.
Qed.

(** C8, amended.  When the array carries the poloidal coordinate (and its
    region was created with a dataset), a lower-y guard request whose guard
    slice starts below global index 0, or an upper-y request whose guard
    slice stops past the global y-size, raises MissingBoundaryData as soon
    as the neighbour region has been fetched.  Without the coordinate on
    [da] the check is not made. *)
Theorem missing_boundary_data {V : Type}
    (from_region : DataArray V -> option string -> Z -> Z -> result (DataArray V))
    (da da_global : DataArray V) (mxg myg : Z) (r : Region) :
  0 < myg ->
  get_region da = Ok r ->
  is_not_None (ycoords da) = true ->
  is_not_None (coords r) = true ->
  (forall nb,
     from_region da_global (connection_lower_y r) mxg 0 = Ok nb ->
     ylower_ind r - myg < 0 ->
     _concat_lower_guards from_region da da_global mxg myg = Err MissingBoundaryData) /\
  (forall nb,
     from_region da_global (connection_upper_y r) mxg 0 = Ok nb ->
     Z.of_nat (size_y da_global) < yupper_ind r + myg ->
     _concat_upper_guards from_region da da_global mxg myg = Err MissingBoundaryData).
Proof.
  intros Hpos Hr Hy Hc. destruct (coords r) as [c |] eqn:Ec; [| discriminate].
  split; intros nb Hnb Hout.
  - unfold _concat_lower_guards. destruct (Z.leb_spec myg 0); [lia |].
    rewrite Hr. simpl. rewrite Hnb. simpl. rewrite Hy.
    unfold get_lower_guards_slices, mk_slices. rewrite Ec. simpl.
    unfold slice_start. simpl.
    destruct (Z.ltb_spec (ylower_ind r - myg) 0); [reflexivity | lia].
  - unfold _concat_upper_guards. destruct (Z.leb_spec myg 0); [lia |].
    rewrite Hr. simpl. rewrite Hnb. simpl. rewrite Hy.
    unfold get_upper_guards_slices, mk_slices. rewrite Ec. simpl.
    unfold slice_stop. simpl. rewrite Z.gtb_ltb.
    destruct (Z.ltb_spec (Z.of_nat (size_y da_global)) (yupper_ind r + myg));
      [reflexivity | lia].
Qed.

Lemma core_labelled_eq :
  from_region global_core_labelled (Some "core") 0 0 = Ok core_labelled.
Proof. vm_compute. reflexivity. Qed.

Lemma missing_boundary_data_witness :
  _concat_lower_guards from_region core_labelled global_core_labelled 0 2
    = Err MissingBoundaryData /\
  _concat_upper_guards from_region core_labelled global_core_labelled 0 2
    = Err MissingBoundaryData.
Proof.
  destruct (region core_labelled) as [r |] eqn:Hr; [| discriminate].
  injection Hr as Hr.
  destruct (missing_boundary_data from_region core_labelled global_core_labelled
              0 2 r ltac:(lia)) as (Hlow & Hup).
  - unfold core_labelled, get_region. simpl. rewrite <- Hr. reflexivity.
  - reflexivity.
  - rewrite <- Hr. reflexivity.
  - split.
    + apply (Hlow core_labelled).
      * rewrite <- Hr. exact core_labelled_eq.
      * rewrite <- Hr. simpl. lia.
    + apply (Hup core_labelled).
      * rewrite <- Hr. exact core_labelled_eq.
      * rewrite <- Hr. vm_compute. reflexivity.
Defined.

(** ** The transitive fetch of the outer-x stitcher *)

(** A registry put together by hand, outside the builder: region [SOL]
    (columns 0-2, rows 0-11, no y-connection) has the periodic region [core]
    (columns 3-5, rows 2-9) as outer-x neighbour; boundary rows are kept and
    [MYG = 2].  For [mxg = 1] the middle rows of the guard column joined
    onto [SOL] are cells of column 3, next to the seam, but the two rows
    added at each end by the y-reconciliation are [508; 509] and
    [502; 503], cells of column 5: in [_concat_outer_guards] the transitive
    fetch selects [slice(-mxg, None)] in x where the neighbour itself was
    cut with [slice(mxg)].  No registry returned by the builder reaches that
    fetch ([built_registry_no_outer_transitive_fetch]).

    The inner-x stitcher is consistent: on the limiter grid the guard column
    joined onto [SOL] (columns 3-5) from [core] (columns 0-2) holds cells of
    column 2 only, in the added rows too. *)
Remark outer_transitive_fetch_far_columns :
  (exists da r,
     from_region global_core_outside (Some "SOL") 0 0 = Ok da /\
     connection_outer_x <$> region da = Some (Some "core") /\
     _concat_outer_guards from_region da global_core_outside 1 = Ok r /\
     values r =
     (values da ++
      [[508; 509; 302; 303; 304; 305; 306; 307; 308; 309; 502; 503]])%list /\
     py_index (values global_core_outside) 3 =
     Some [300; 301; 302; 303; 304; 305; 306; 307; 308; 309; 310; 311]) /\
  (exists da r,
     from_region global_limiter (Some "SOL") 0 0 = Ok da /\
     connection_inner_x <$> region da = Some (Some "core") /\
     _concat_inner_guards from_region da global_limiter 1 = Ok r /\
     values r =
     ([[208; 209; 202; 203; 204; 205; 206; 207; 208; 209; 202; 203]] ++
      values da)%list /\
     py_index (values global_limiter) 2 =
     Some [200; 201; 202; 203; 204; 205; 206; 207; 208; 209; 210; 211]).
Proof.
  split; do 2 eexists.
  - split; [vm_compute; reflexivity |].
    split; [reflexivity |].
    split; [vm_compute; reflexivity |].
    split; reflexivity.
  - split; [vm_compute; reflexivity |].
    split; [reflexivity |].
    split; [vm_compute; reflexivity |].
    split; reflexivity.
Qed.

(** ** Guard continuity across an x-seam, for built registries *)

Lemma in_dict_set {A} k (v : A) d k' v' :
  In (k', v') (dict_set k v d) -> (k', v') = (k, v) \/ In (k', v') d.
Proof.
  induction d as [| [k0 v0] d IH]; simpl.
  - intros [H | []]. left. congruence.
  - destruct (String.eqb k k0); simpl; intros [H | H].
    + left. congruence.
    + right. right. exact H.
    + right. left. exact H.
    + destruct (IH H) as [E | E]; [left | right; right]; assumption.
Qed.

Lemma dict_get_In {A} k (d : list (string * A)) v :
  dict_get k d = Some v -> In (k, v) d.
Proof.
  induction d as [| [k0 v0] d IH]; simpl; [discriminate |].
  destruct (String.eqb k k0) eqn:E.
  - apply String.eqb_eq in E. subst k0. intros H. injection H as ->. now left.
  - intros H. right. now apply IH.
Qed.

Lemma with_coords_dict_set k r regs :
  is_not_None (coords r) = true -> all_with_coords regs ->
  all_with_coords (dict_set k r regs).
Proof.
  intros Hr Hall k' r' Hin. apply in_dict_set in Hin.
  destruct Hin as [E | Hin]; [injection E as -> -> | eapply Hall]; eassumption.
Qed.

Lemma with_coords_connection_x regs a b regs' :
  create_connection_x_value regs a b = Ok regs' ->
  all_with_coords regs -> all_with_coords regs'.
Proof.
  unfold create_connection_x_value. intros H Hall.
  apply bind_Ok in H. destruct H as (r1 & H1 & H).
  apply bind_Ok in H. destruct H as (r2 & H2 & H). injection H as <-.
  apply dict_item_Ok, dict_get_In in H1.
  assert (Hall1 : all_with_coords (dict_set a (set_connection_outer_x r1 b) regs))
    by (apply with_coords_dict_set; [exact (Hall _ _ H1) | exact Hall]).
  apply dict_item_Ok, dict_get_In in H2.
  apply with_coords_dict_set; [exact (Hall1 _ _ H2) | exact Hall1].
Qed.

Lemma with_coords_connection_y regs a b regs' :
  create_connection_y_value regs a b = Ok regs' ->
  all_with_coords regs -> all_with_coords regs'.
Proof.
  unfold create_connection_y_value. intros H Hall.
  apply bind_Ok in H. destruct H as (r1 & H1 & H).
  apply bind_Ok in H. destruct H as (r2 & H2 & H). injection H as <-.
  apply dict_item_Ok, dict_get_In in H1.
  assert (Hall1 : all_with_coords (dict_set a (set_connection_upper_y r1 b) regs))
    by (apply with_coords_dict_set; [exact (Hall _ _ H1) | exact Hall]).
  apply dict_item_Ok, dict_get_In in H2.
  apply with_coords_dict_set; [exact (Hall1 _ _ H2) | exact Hall1].
Qed.

Lemma with_coords_connect_all create pairs :
  (forall regs a b regs', create regs a b = Ok regs' ->
                          all_with_coords regs -> all_with_coords regs') ->
  forall regs regs',
    connect_all_value create pairs regs = Ok regs' ->
    all_with_coords regs -> all_with_coords regs'.
Proof.
  intros Hc. induction pairs as [| [a b] pairs IH]; simpl; intros regs regs' H Hall.
  - now injection H as <-.
  - apply bind_Ok in H. destruct H as (regs1 & H1 & H). eauto.
Qed.

Lemma with_coords_add_regions ds stmts :
  forall regs regs',
    add_regions_value ds stmts regs = Ok regs' ->
    all_with_coords regs -> all_with_coords regs'.
Proof.
  induction stmts as [| s stmts IH]; simpl; intros regs regs' H Hall.
  - now injection H as <-.
  - apply bind_Ok in H. destruct H as (r & Hr & H).
    apply (IH _ _ H). apply with_coords_dict_set; [| exact Hall].
    unfold Region_init in Hr. apply bind_Ok in Hr. destruct Hr as (c & Hc & Hr).
    injection Hr as <-. simpl.
    destruct (Region_coords ds _ _ _ _); [| discriminate].
    now injection Hc as <-.
Qed.

(** Every Region of a built registry carries its coordinate attributes. *)
Lemma built_regions_with_coords (ds : Dataset) (regs : registry) :
  _create_regions_toroidal ds = Ok regs -> all_with_coords regs.
Proof.
  rewrite create_regions_by_value. unfold run_branch_value. intros H.
  apply bind_Ok in H. destruct H as (t & _ & H).
  apply bind_Ok in H. destruct H as (regs0 & H0 & H).
  apply bind_Ok in H. destruct H as (regs1 & H1 & H).
  apply (with_coords_connect_all _ _ with_coords_connection_y _ _ H).
  apply (with_coords_connect_all _ _ with_coords_connection_x _ _ H1).
  apply (with_coords_add_regions _ _ _ _ H0).
  intros k r [].
Qed.

Lemma py_slice_all {A} (l : list A) : py_slice all_ l = l.
Proof.
  unfold py_slice, all_, slice_bounds. simpl.
  rewrite Z.sub_0_r, Nat2Z.id. simpl. apply firstn_all.
Qed.

Lemma py_slice_map {A B} (f : A -> B) (s : slice) (l : list A) :
  py_slice s (map f l) = map f (py_slice s l).
Proof.
  unfold py_slice. rewrite length_map.
  destruct (slice_bounds (Z.of_nat (length l)) s) as [lo hi].
  now rewrite skipn_map, firstn_map.
Qed.

Lemma zip_with_app_map {A B} (f g : A -> list B) (l : list A) :
  zip_with app (map f l) (map g l) = map (fun x => (f x ++ g x)%list) l.
Proof. induction l as [| x l IH]; simpl; [reflexivity | now rewrite IH]. Qed.

Lemma get_slices_interior (rs : Region) (c : RegionCoords) :
  coords rs = Some c ->
  get_slices rs 0 0 =
  Ok {| xslice := Slice (Some (xinner_ind rs)) (Some (xouter_ind rs));
        yslice := Slice (Some (ylower_ind rs)) (Some (yupper_ind rs)) |}.
Proof.
  intros Hc. unfold get_slices, mk_slices. rewrite Hc.
  destruct (connection_inner_x rs), (connection_outer_x rs),
    (connection_lower_y rs), (connection_upper_y rs); simpl;
    rewrite ?Z.sub_0_r, ?Z.add_0_r; reflexivity.
Qed.

(** With zero guards the extraction returns the interior of the region, for
    any registry entry created with a dataset. *)
Lemma from_region_interior {V} (g : DataArray V) (s : string) (rs : Region) :
  dict_get s (regions g) = Some rs ->
  is_not_None (coords rs) = true ->
  from_region g (Some s) 0 0 = Ok (interior g rs).
Proof.
  intros Hget Hc. destruct (coords rs) as [c |] eqn:Ec; [| discriminate].
  unfold from_region. cbn [from_region_fuel from_option bind].
  unfold dict_item. rewrite Hget. cbn [from_option bind].
  rewrite (get_slices_interior rs c Ec). cbn [bind xslice yslice].
  unfold _concat_inner_guards, _concat_outer_guards, _concat_lower_guards,
    _concat_upper_guards. cbn [Z.leb Z.compare].
  destruct (connection_inner_x rs), (connection_outer_x rs),
    (connection_lower_y rs), (connection_upper_y rs); reflexivity.
Qed.

Lemma assign_coords_values {V} (da da' : DataArray V) cx cy :
  assign_coords da cx cy = Ok da' -> values da' = values da.
Proof.
  unfold assign_coords. destruct (negb _); [discriminate |].
  destruct (negb _); [discriminate |]. intros H. now injection H as <-.
Qed.

Section Continuity.
Context {V : Type}.
Variable fr : DataArray V -> option string -> Z -> Z -> result (DataArray V).

Ltac open_binds :=
  repeat match goal with
  | H : bind _ _ = Ok _ |- _ =>
      let a := fresh "d" in
      let Ha := fresh "Hd" in
      apply bind_Ok in H; destruct H as (a & Ha & H)
  | H : Ok _ = Ok _ |- _ => injection H as H
  end.

Lemma map_py_slice_all {A} (l : list (list A)) : map (py_slice all_) l = l.
Proof.
  rewrite <- (map_id l) at 2. apply map_ext. intros. apply py_slice_all.
Qed.

Lemma zip_with_app_map_l {A B} (f : A -> list B) (l : list A) (g : A -> list B) :
  zip_with app (map f l) (map g l) = map (fun x => (f x ++ g x)%list) l.
Proof. apply zip_with_app_map. Qed.

Lemma zip_with_app_id_l {B} (l : list (list B)) (g : list B -> list B) :
  zip_with app l (map g l) = map (fun x => (x ++ g x)%list) l.
Proof. rewrite <- (map_id l) at 1. apply zip_with_app_map. Qed.

Lemma zip_with_app_id_r {B} (l : list (list B)) (f : list B -> list B) :
  zip_with app (map f l) l = map (fun x => (f x ++ x)%list) l.
Proof. rewrite <- (map_id l) at 2. apply zip_with_app_map. Qed.

Ltac norm_values :=
  cbn [values isel with_values];
  repeat (rewrite ?py_slice_all, ?map_py_slice_all, ?py_slice_map, ?map_map);
  try (symmetry; apply map_id);
  try (apply map_ext; intros; rewrite ?py_slice_all; reflexivity).

(** The block joined on the outer side: the first [mxg] columns of the
    neighbour's interior, each reconciled in y.  The hypotheses exclude
    the transitive fetch. *)
Lemma outer_guard_block_values (r rs : Region) (hc : bool)
    (g block : DataArray V) (mxg : Z) :
  fr g (connection_outer_x r) 0 0 = Ok (interior g rs) ->
  (connection_lower_y r = None -> connection_lower_y rs = None) ->
  (connection_upper_y r = None -> connection_upper_y rs = None) ->
  outer_guard_block fr r hc g mxg = Ok block ->
  values block =
  map (reconcile_column g r rs)
      (py_slice (Slice None (Some mxg)) (values (interior g rs))).
Proof.
  intros Hfr Hl Hu H. unfold outer_guard_block in H. rewrite Hfr in H.
  cbn [bind] in H. change (get_region (interior g rs)) with (Ok (A:=Region) rs) in H.
  cbn [bind] in H.
  unfold reconcile_column.
  destruct (has_yboundary_cells g);
    destruct (connection_lower_y r) as [al |];
    destruct (connection_upper_y r) as [au |];
    destruct (connection_lower_y rs) as [bl |];
    destruct (connection_upper_y rs) as [bu |];
    try (specialize (Hl eq_refl); discriminate);
    try (specialize (Hu eq_refl); discriminate);
    cbn [andb is_not_None is_None negb bind] in H |- *;
    destruct hc; cbn [bind] in H; open_binds; subst;
    repeat match goal with
    | Ha : assign_coords _ _ _ = Ok _ |- _ =>
        rewrite (assign_coords_values _ _ _ _ Ha); clear Ha
    end.
  all: norm_values.
Qed.

(** The block joined on the inner side: the last [mxg] columns of the
    neighbour's interior, each reconciled in y; rows fetched transitively
    come from a neighbour that is periodic in y. *)
Lemma inner_guard_block_values (r rs : Region) (hc : bool)
    (g block : DataArray V) (mxg : Z) :
  fr g (connection_inner_x r) 0 0 = Ok (interior g rs) ->
  (connection_lower_y r = None -> forall c, connection_lower_y rs = Some c ->
     fr g (Some c) 0 0 = Ok (interior g rs)) ->
  (connection_upper_y r = None -> forall c, connection_upper_y rs = Some c ->
     fr g (Some c) 0 0 = Ok (interior g rs)) ->
  inner_guard_block fr r hc g mxg = Ok block ->
  values block =
  map (reconcile_column g r rs)
      (py_slice (Slice (Some (- mxg)) None) (values (interior g rs))).
Proof.
  intros Hfr Hl Hu H. unfold inner_guard_block in H. rewrite Hfr in H.
  cbn [bind] in H. change (get_region (interior g rs)) with (Ok (A:=Region) rs) in H.
  cbn [bind] in H.
  unfold reconcile_column.
  destruct (has_yboundary_cells g);
    destruct (connection_lower_y r) as [al |];
    destruct (connection_upper_y r) as [au |];
    destruct (connection_lower_y rs) as [bl |];
    destruct (connection_upper_y rs) as [bu |];
    cbn [andb is_not_None is_None negb bind] in H |- *;
    try rewrite (Hl eq_refl _ eq_refl) in H;
    try rewrite (Hu eq_refl _ eq_refl) in H;
    destruct hc; cbn [bind] in H; open_binds; subst;
    repeat match goal with
    | Ha : assign_coords _ _ _ = Ok _ |- _ =>
        rewrite (assign_coords_values _ _ _ _ Ha); clear Ha
    | Ha : concat_y _ _ = Ok _ |- _ =>
        apply concat_y_Ok in Ha; destruct Ha as (Ha & _ & _)
    end.
  all: cbn [values set_region isel with_values] in *.
  all: repeat match goal with
       | Ha : values ?d = _ |- _ => rewrite Ha in *; clear Ha
       end.
  all: repeat (rewrite ?py_slice_all, ?map_py_slice_all, ?py_slice_map, ?map_map,
                 ?zip_with_app_map_l, ?zip_with_app_id_l, ?zip_with_app_id_r).
  all: try (symmetry; apply map_id).
  all: try (apply map_ext; intros; rewrite ?py_slice_all; reflexivity).
Qed.
End Continuity.

Lemma built_registry_inner_fetch_periodic (ds : Dataset) (regs : registry) :
  _create_regions_toroidal ds = Ok regs ->
  forall k r s rs, In (k, r) regs ->
    connection_inner_x r = Some s -> dict_get s regs = Some rs ->
    (connection_lower_y r = None ->
     forall c, connection_lower_y rs = Some c -> c = s) /\
    (connection_upper_y r = None ->
     forall c, connection_upper_y rs = Some c -> c = s).
Proof.
  intros Hb k r s rs Hin Hci Hget.
  destruct (create_regions_skeleton _ _ Hb) as (t & _ & Hs).
  destruct (skeleton_checks t (adjust_breakpoints (metadata ds)))
    as (regs0 & Hs0 & _ & _ & Hper & _).
  rewrite Hs in Hs0. injection Hs0 as <-.
  unfold inner_transitive_fetch_periodic in Hper. rewrite forallb_forall in Hper.
  specialize (Hper _ (in_strip_all _ _ _ Hin)). simpl in Hper.
  rewrite Hci, dict_get_strip, Hget in Hper. simpl in Hper.
  apply andb_true_iff in Hper. destruct Hper as [Hl Hu].
  split; intros Hnone c Hc; rewrite Hnone, Hc in *; simpl in *;
    now apply String.eqb_eq.
Qed.

(** C1.  In a registry built by [_create_regions_toroidal], let region [r]
    (stored under [k]) have an x-connection to the region [rs] stored under
    [s].  For a guard width [mxg <= 0] nothing is joined.  For [mxg > 0] the
    block that the outer-x (inner-x) stitcher joins onto an array of region
    [r] is made of the first (last) [mxg] columns of the interior of [rs],
    the columns next to the seam, each reconciled in y: cut by [myg] cells
    where [rs] has a boundary and [r] a connection, extended by [myg] cells
    of the same column where [r] has a boundary and the periodic [rs] a
    connection.  So every guard cell, the transitively fetched ones
    included, is the value of an interior cell of [rs] in a column adjacent
    to the seam. *)
Theorem guard_continuity {V : Type} (ds : Dataset) (regs : registry)
    (g da : DataArray V) (k : string) (r : Region) (mxg : Z) :
  _create_regions_toroidal ds = Ok regs ->
  regions g = regs ->
  In (k, r) regs ->
  region da = Some r ->
  (mxg <= 0 ->
     _concat_outer_guards from_region da g mxg = Ok da /\
     _concat_inner_guards from_region da g mxg = Ok da) /\
  (0 < mxg -> forall s res,
     connection_outer_x r = Some s ->
     _concat_outer_guards from_region da g mxg = Ok res ->
     exists rs,
       dict_get s regs = Some rs /\ connection_inner_x rs = Some k /\
       values res =
       (values da ++
        map (reconcile_column g r rs)
            (py_slice (Slice None (Some mxg)) (values (interior g rs))))%list) /\
  (0 < mxg -> forall s res,
     connection_inner_x r = Some s ->
     _concat_inner_guards from_region da g mxg = Ok res ->
     exists rs,
       dict_get s regs = Some rs /\ connection_outer_x rs = Some k /\
       values res =
       (map (reconcile_column g r rs)
            (py_slice (Slice (Some (- mxg)) None) (values (interior g rs)))
        ++ values da)%list).
Proof.
  intros Hb Hg Hin Hr.
  assert (Hfr : forall s rs, dict_get s regs = Some rs ->
                  from_region g (Some s) 0 0 = Ok (interior g rs)).
  { intros s rs Hget. apply from_region_interior; [now rewrite Hg |].
    exact (built_regions_with_coords _ _ Hb _ _ (dict_get_In _ _ _ Hget)). }
  split; [| split].
  - intros Hle. unfold _concat_outer_guards, _concat_inner_guards.
    destruct (Z.leb_spec mxg 0); [split; reflexivity | lia].
  - intros Hpos s res Hco H.
    destruct (connections_symmetric_on_keys _ _ Hb k r s Hin) as (Hsym & _).
    destruct (Hsym Hco) as (rs & Hget & Hback).
    exists rs. split; [exact Hget |]. split; [exact Hback |].
    destruct (built_registry_no_outer_transitive_fetch _ _ Hb _ _ _ _ Hin Hco Hget)
      as (Hl & Hu).
    rewrite concat_outer_guards_block in H.
    destruct (Z.leb_spec mxg 0); [lia |].
    unfold get_region in H. rewrite Hr in H. cbn [from_option bind] in H.
    apply bind_Ok in H. destruct H as (block & Hblock & H).
    apply bind_Ok in H. destruct H as (c & Hc & H). injection H as <-.
    apply concat_x_Ok in Hc. destruct Hc as (Hc & _).
    cbn [values set_region]. rewrite Hc. f_equal.
    apply (outer_guard_block_values from_region r rs (is_not_None (xcoords da)) g block mxg);
      [rewrite Hco; now apply Hfr | exact Hl | exact Hu | exact Hblock].
  - intros Hpos s res Hci H.
    destruct (connections_symmetric_on_keys _ _ Hb k r s Hin) as (_ & Hsym & _).
    destruct (Hsym Hci) as (rs & Hget & Hback).
    exists rs. split; [exact Hget |]. split; [exact Hback |].
    destruct (built_registry_inner_fetch_periodic _ _ Hb _ _ _ _ Hin Hci Hget)
      as (Hl & Hu).
    rewrite concat_inner_guards_block in H.
    destruct (Z.leb_spec mxg 0); [lia |].
    unfold get_region in H. rewrite Hr in H. cbn [from_option bind] in H.
    apply bind_Ok in H. destruct H as (block & Hblock & H).
    apply bind_Ok in H. destruct H as (c & Hc & H). injection H as <-.
    apply concat_x_Ok in Hc. destruct Hc as (Hc & _).
    cbn [values set_region]. rewrite Hc. f_equal.
    apply (inner_guard_block_values from_region r rs (is_not_None (xcoords da)) g block mxg).
    + rewrite Hci. now apply Hfr.
    + intros Hnone c' Hc'. rewrite (Hl Hnone c' Hc'). now apply Hfr.
    + intros Hnone c' Hc'. rewrite (Hu Hnone c' Hc'). now apply Hfr.
    + exact Hblock.
Qed.

Lemma limiter_registry_eq :
  _create_regions_toroidal ds_limiter = Ok (regions global_limiter).
Proof. vm_compute. reflexivity. Qed.

Lemma limiter_sol_stitched_eq :
  _concat_inner_guards from_region limiter_sol global_limiter 1
  = Ok limiter_sol_stitched.
Proof. vm_compute. reflexivity. Qed.

Lemma guard_continuity_witness :
  values limiter_sol_stitched =
  (map (reconcile_column global_limiter limiter_sol_region limiter_core_region)
       (py_slice (Slice (Some (- 1)) None)
                 (values (interior global_limiter limiter_core_region)))
   ++ values limiter_sol)%list /\
  values limiter_sol_stitched =
  ([[208; 209; 202; 203; 204; 205; 206; 207; 208; 209; 202; 203]]
   ++ values limiter_sol)%list.
Proof.
  assert (Hin : In ("SOL", limiter_sol_region) (regions global_limiter))
    by (vm_compute; right; left; reflexivity).
  destruct (guard_continuity ds_limiter (regions global_limiter) global_limiter
              limiter_sol "SOL" limiter_sol_region 1
              limiter_registry_eq eq_refl Hin eq_refl) as (_ & _ & Hinner).
  destruct (Hinner ltac:(lia) "core" limiter_sol_stitched eq_refl
              limiter_sol_stitched_eq) as (rs & Hget & _ & Hv).
  assert (Hrs : rs = limiter_core_region)
    by (vm_compute in Hget; injection Hget as <-; reflexivity).
  subst rs. split; [exact Hv | reflexivity].
Defined.

(** ** A second application of a stitcher *)

Lemma py_slice_last_len {A} (l : list A) (n : Z) :
  0 < n ->
  length (py_slice (Slice (Some (- n)) None) l) = Nat.min (Z.to_nat n) (length l).
Proof.
  intros Hn. unfold py_slice, slice_bounds, clip_index. cbn [start stop].
  destruct (Z.ltb_spec (- n) 0); [| lia].
  rewrite length_take, length_drop. lia.
Qed.

Lemma py_slice_first_len {A} (l : list A) (n : Z) :
  0 < n ->
  length (py_slice (Slice None (Some n)) l) = Nat.min (Z.to_nat n) (length l).
Proof.
  intros Hn. unfold py_slice, slice_bounds, clip_index. cbn [start stop].
  destruct (Z.ltb_spec n 0); [lia |].
  rewrite length_take, length_drop. lia.
Qed.

Lemma slice_length_last (m : nat) (n : Z) :
  0 < n -> slice_length (Slice (Some (- n)) None) m = Nat.min (Z.to_nat n) m.
Proof.
  intros Hn. unfold slice_length, slice_bounds, clip_index. cbn [start stop].
  destruct (Z.ltb_spec (- n) 0); lia.
Qed.

Lemma slice_length_first (m : nat) (n : Z) :
  0 < n -> slice_length (Slice None (Some n)) m = Nat.min (Z.to_nat n) m.
Proof.
  intros Hn. unfold slice_length, slice_bounds, clip_index. cbn [start stop].
  destruct (Z.ltb_spec n 0); lia.
Qed.

Lemma slice_length_all (m : nat) : slice_length all_ m = m.
Proof. unfold slice_length, slice_bounds, all_. cbn [start stop]. lia. Qed.

Lemma py_slice_nil {A} (s : slice) : py_slice s (@nil A) = [].
Proof.
  unfold py_slice. destruct (slice_bounds _ s). now rewrite drop_nil, take_nil.
Qed.

Lemma no_cells_last {A} (l : list (list A)) (n : Z) :
  0 < n ->
  Forall (fun col => col = []) (map (py_slice (Slice (Some (- n)) None)) l) <->
  Forall (fun col => col = []) l.
Proof.
  intros Hn. rewrite Forall_map. apply Forall_iff. intros col. unfold compose.
  split; intros H.
  - apply (f_equal length) in H. rewrite py_slice_last_len in H by exact Hn.
    apply nil_length_inv. cbn in H. lia.
  - subst col. apply py_slice_nil.
Qed.

Lemma no_cells_first {A} (l : list (list A)) (n : Z) :
  0 < n ->
  Forall (fun col => col = []) (map (py_slice (Slice None (Some n))) l) <->
  Forall (fun col => col = []) l.
Proof.
  intros Hn. rewrite Forall_map. apply Forall_iff. intros col. unfold compose.
  split; intros H.
  - apply (f_equal length) in H. rewrite py_slice_first_len in H by exact Hn.
    apply nil_length_inv. cbn in H. lia.
  - subst col. apply py_slice_nil.
Qed.

Lemma zip_with_app_again_l {A} (bl l : list (list A)) :
  length bl = length l ->
  zip_with app bl (zip_with app bl l) = zip_with app bl l <->
  Forall (fun col => col = []) bl.
Proof.
  revert l. induction bl as [| c bl IH]; intros [| d l] Hlen;
    try discriminate; cbn.
  - split; [constructor | reflexivity].
  - injection Hlen as Hlen. specialize (IH l Hlen). split.
    + intros H. injection H as H1 H2. constructor; [| now apply IH].
      apply (f_equal length) in H1. rewrite !length_app in H1.
      apply nil_length_inv. lia.
    + intros H. apply Forall_cons in H. destruct H as (-> & H).
      cbn. f_equal. now apply IH.
Qed.

Lemma zip_with_app_again_r {A} (bl l : list (list A)) :
  length l = length bl ->
  zip_with app (zip_with app l bl) bl = zip_with app l bl <->
  Forall (fun col => col = []) bl.
Proof.
  revert l. induction bl as [| c bl IH]; intros [| d l] Hlen;
    try discriminate; cbn.
  - split; [constructor | reflexivity].
  - injection Hlen as Hlen. specialize (IH l Hlen). split.
    + intros H. injection H as H1 H2. constructor; [| now apply IH].
      apply (f_equal length) in H1. rewrite !length_app in H1.
      apply nil_length_inv. lia.
    + intros H. apply Forall_cons in H. destruct H as (-> & H).
      rewrite !app_nil_r. f_equal. now apply IH.
Qed.

Section SecondApplication.
Context {V : Type}.
Variable fr : DataArray V -> option string -> Z -> Z -> result (DataArray V).

Lemma concat_x_inv (a b c : DataArray V) :
  concat_x a b = Ok c ->
  size_y a = size_y b /\
  exists xc, concat_coords (xcoords a) (xcoords b) = Ok xc /\
    c = with_values a (values a ++ values b)%list (size_y a) xc
          (first_some (ycoords a) (ycoords b)).
Proof.
  unfold concat_x. destruct (exact _ _ _ _) eqn:E; cbn [negb]; [| discriminate].
  unfold exact in E. apply andb_true_iff in E. destruct E as (E & _).
  apply Nat.eqb_eq in E. intros H. apply bind_Ok in H.
  destruct H as (xc & Hxc & H). injection H as <-. eauto.
Qed.

Lemma concat_y_inv (a b c : DataArray V) :
  concat_y a b = Ok c ->
  size_x a = size_x b /\
  exists yc, concat_coords (ycoords a) (ycoords b) = Ok yc /\
    c = with_values a (zip_with app (values a) (values b))
          (size_y a + size_y b) (first_some (xcoords a) (xcoords b)) yc.
Proof.
  unfold concat_y. destruct (exact _ _ _ _) eqn:E; cbn [negb]; [| discriminate].
  unfold exact in E. apply andb_true_iff in E. destruct E as (E & _).
  apply Nat.eqb_eq in E. intros H. apply bind_Ok in H.
  destruct H as (yc & Hyc & H). injection H as <-. eauto.
Qed.

Lemma assign_coords_inv (a a' : DataArray V) (cx cy : list Q) :
  assign_coords a cx cy = Ok a' ->
  length cx = size_x a /\ length cy = size_y a /\
  a' = with_values a (values a) (size_y a) (Some cx) (Some cy).
Proof.
  unfold assign_coords.
  destruct (Nat.eqb_spec (length cx) (size_x a)); cbn [negb]; [| discriminate].
  destruct (Nat.eqb_spec (length cy) (size_y a)); cbn [negb]; [| discriminate].
  intros H. injection H as <-. auto.
Qed.

Ltac open_block H :=
  repeat match type of H with
  | bind _ _ = Ok _ =>
      let a := fresh "d" in
      let Ha := fresh "Hd" in
      apply bind_Ok in H; destruct H as (a & Ha & H)
  end.

(** What the x-stitchers fetch first, and the shape of the block they
    join: as many columns as the guard width asks for, or all columns of
    a narrower neighbour; with the x-coordinate attached when [da] has
    it. *)
Lemma inner_guard_block_shape (dr : Region) (hc : bool)
    (g b : DataArray V) (mxg : Z) :
  0 < mxg ->
  inner_guard_block fr dr hc g mxg = Ok b ->
  exists nb, fr g (connection_inner_x dr) 0 0 = Ok nb /\
    size_x b = Nat.min (Z.to_nat mxg) (size_x nb) /\
    (hc = true -> exists cx, xcoords b = Some cx /\ length cx = size_x b).
Proof.
  intros Hpos H. unfold inner_guard_block in H.
  apply bind_Ok in H. destruct H as (nb & Hnb & H).
  exists nb. split; [exact Hnb |].
  apply bind_Ok in H. destruct H as (nr & _ & H). cbv zeta in H.
  match type of H with
  | context [isel ?t (Slice (Some (- mxg)) None) all_] =>
      set (tnb := t) in H; assert (Et : size_x tnb = size_x nb)
  end.
  { subst tnb. unfold size_x.
    repeat match goal with
    | |- context [if ?c then _ else _] => destruct c
    end;
      repeat (cbn [values with_values isel]; rewrite ?length_map, ?py_slice_all);
      reflexivity. }
  clearbody tnb.
  apply bind_Ok in H. destruct H as (d1 & H1 & H).
  apply bind_Ok in H. destruct H as (d2 & H2 & H).
  apply bind_Ok in H. destruct H as (d3 & H3 & H). injection H as <-.
  assert (E1 : size_x d1 = Nat.min (Z.to_nat mxg) (size_x nb)).
  { rewrite <- Et.
    match type of H1 with (if ?c then _ else _) = _ => destruct c end.
    - apply bind_Ok in H1. destruct H1 as (lo & _ & H1).
      apply bind_Ok in H1. destruct H1 as (c & Hc & H1). injection H1 as <-.
      apply concat_y_inv in Hc. destruct Hc as (Hsz & yc & _ & ->).
      unfold size_x in *. cbn [values set_region with_values isel] in *.
      rewrite length_zip_with, Hsz, Nat.min_id.
      now rewrite length_map, py_slice_last_len by exact Hpos.
    - injection H1 as <-. unfold size_x. cbn [values with_values isel].
      now rewrite length_map, py_slice_last_len by exact Hpos. }
  assert (E2 : size_x d2 = size_x d1).
  { match type of H2 with (if ?c then _ else _) = _ => destruct c end.
    - apply bind_Ok in H2. destruct H2 as (up & _ & H2).
      apply concat_y_inv in H2. destruct H2 as (Hsz & yc & _ & ->).
      unfold size_x in *. cbn [values with_values]. rewrite length_zip_with. lia.
    - now injection H2 as <-. }
  destruct hc.
  - apply bind_Ok in H3. destruct H3 as (sl & _ & H3).
    apply assign_coords_inv in H3. destruct H3 as (Hx & _ & ->).
    unfold size_x in *. cbn [values xcoords with_values].
    split; [lia |]. intros _. eexists. split; [reflexivity | exact Hx].
  - injection H3 as <-. split; [lia | discriminate].
Qed.

Lemma outer_guard_block_shape (dr : Region) (hc : bool)
    (g b : DataArray V) (mxg : Z) :
  0 < mxg ->
  outer_guard_block fr dr hc g mxg = Ok b ->
  exists nb, fr g (connection_outer_x dr) 0 0 = Ok nb /\
    size_x b = Nat.min (Z.to_nat mxg) (size_x nb) /\
    (hc = true -> exists cx, xcoords b = Some cx /\ length cx = size_x b).
Proof.
  intros Hpos H. unfold outer_guard_block in H.
  apply bind_Ok in H. destruct H as (nb & Hnb & H).
  exists nb. split; [exact Hnb |].
  apply bind_Ok in H. destruct H as (nr & _ & H). cbv zeta in H.
  match type of H with
  | context [isel ?t (Slice None (Some mxg)) all_] =>
      set (tnb := t) in H; assert (Et : size_x tnb = size_x nb)
  end.
  { subst tnb. unfold size_x.
    repeat match goal with
    | |- context [if ?c then _ else _] => destruct c
    end;
      repeat (cbn [values with_values isel]; rewrite ?length_map, ?py_slice_all);
      reflexivity. }
  clearbody tnb.
  apply bind_Ok in H. destruct H as (d1 & H1 & H).
  apply bind_Ok in H. destruct H as (d2 & H2 & H).
  apply bind_Ok in H. destruct H as (d3 & H3 & H). injection H as <-.
  assert (E1 : size_x d1 = Nat.min (Z.to_nat mxg) (size_x nb)).
  { rewrite <- Et.
    match type of H1 with (if ?c then _ else _) = _ => destruct c end.
    - apply bind_Ok in H1. destruct H1 as (lo & _ & H1).
      apply bind_Ok in H1. destruct H1 as (c & Hc & H1). injection H1 as <-.
      apply concat_y_inv in Hc. destruct Hc as (Hsz & yc & _ & ->).
      unfold size_x in *. cbn [values set_region with_values isel] in *.
      rewrite length_zip_with, Hsz, Nat.min_id.
      now rewrite length_map, py_slice_first_len by exact Hpos.
    - injection H1 as <-. unfold size_x. cbn [values with_values isel].
      now rewrite length_map, py_slice_first_len by exact Hpos. }
  assert (E2 : size_x d2 = size_x d1).
  { match type of H2 with (if ?c then _ else _) = _ => destruct c end.
    - apply bind_Ok in H2. destruct H2 as (up & _ & H2).
      apply concat_y_inv in H2. destruct H2 as (Hsz & yc & _ & ->).
      unfold size_x in *. cbn [values with_values]. rewrite length_zip_with. lia.
    - now injection H2 as <-. }
  destruct hc.
  - apply bind_Ok in H3. destruct H3 as (sl & _ & H3).
    apply assign_coords_inv in H3. destruct H3 as (Hx & _ & ->).
    unfold size_x in *. cbn [values xcoords with_values].
    split; [lia |]. intros _. eexists. split; [reflexivity | exact Hx].
  - injection H3 as <-. split; [lia | discriminate].
Qed.

(** What the y-stitchers fetch, and the block they join: of every column
    of the neighbour the last (lower-y) or first (upper-y) [myg] cells. *)
Lemma lower_guard_block_shape (dr : Region) (hc : bool)
    (g b : DataArray V) (mxg myg : Z) :
  0 < myg ->
  lower_guard_block fr dr hc g mxg myg = Ok b ->
  exists nb, fr g (connection_lower_y dr) mxg 0 = Ok nb /\
    values b = map (py_slice (Slice (Some (- myg)) None)) (values nb) /\
    size_y b = Nat.min (Z.to_nat myg) (size_y nb) /\
    (hc = true -> exists cy, ycoords b = Some cy /\ length cy = size_y b).
Proof.
  intros Hpos H. unfold lower_guard_block in H.
  apply bind_Ok in H. destruct H as (nb & Hnb & H).
  exists nb. split; [exact Hnb |].
  apply bind_Ok in H. destruct H as (d & Hd & H). injection H as <-.
  assert (E : values (isel nb all_ (Slice (Some (- myg)) None)) =
              map (py_slice (Slice (Some (- myg)) None)) (values nb) /\
              size_y (isel nb all_ (Slice (Some (- myg)) None)) =
              Nat.min (Z.to_nat myg) (size_y nb)).
  { unfold size_y. cbn [values ysize with_values isel].
    now rewrite py_slice_all, slice_length_last by exact Hpos. }
  destruct E as (Ev & Es). destruct hc.
  - apply bind_Ok in Hd. destruct Hd as (sl & _ & Hd).
    destruct (_ <? 0); [discriminate |].
    apply assign_coords_inv in Hd. destruct Hd as (_ & Hy & ->).
    unfold size_y in *. cbn [values ysize ycoords with_values].
    split; [exact Ev |]. split; [exact Es |].
    intros _. eexists. split; [reflexivity | exact Hy].
  - injection Hd as <-. split; [exact Ev |]. split; [exact Es | discriminate].
Qed.

Lemma upper_guard_block_shape (dr : Region) (hc : bool)
    (g b : DataArray V) (mxg myg : Z) :
  0 < myg ->
  upper_guard_block fr dr hc g mxg myg = Ok b ->
  exists nb, fr g (connection_upper_y dr) mxg 0 = Ok nb /\
    values b = map (py_slice (Slice None (Some myg))) (values nb) /\
    size_y b = Nat.min (Z.to_nat myg) (size_y nb) /\
    (hc = true -> exists cy, ycoords b = Some cy /\ length cy = size_y b).
Proof.
  intros Hpos H. unfold upper_guard_block in H.
  apply bind_Ok in H. destruct H as (nb & Hnb & H).
  exists nb. split; [exact Hnb |].
  apply bind_Ok in H. destruct H as (d & Hd & H). injection H as <-.
  assert (E : values (isel nb all_ (Slice None (Some myg))) =
              map (py_slice (Slice None (Some myg))) (values nb) /\
              size_y (isel nb all_ (Slice None (Some myg))) =
              Nat.min (Z.to_nat myg) (size_y nb)).
  { unfold size_y. cbn [values ysize with_values isel].
    now rewrite py_slice_all, slice_length_first by exact Hpos. }
  destruct E as (Ev & Es). destruct hc.
  - apply bind_Ok in Hd. destruct Hd as (sl & _ & Hd).
    destruct (_ >? _); [discriminate |].
    apply assign_coords_inv in Hd. destruct Hd as (_ & Hy & ->).
    unfold size_y in *. cbn [values ysize ycoords with_values].
    split; [exact Ev |]. split; [exact Es |].
    intros _. eexists. split; [reflexivity | exact Hy].
  - injection Hd as <-. split; [exact Ev |]. split; [exact Es | discriminate].
Qed.

Ltac open_stitch H dr Hr b Hb c Hc :=
  apply bind_Ok in H; destruct H as (dr & Hr & H);
  apply bind_Ok in H; destruct H as (b & Hb & H);
  apply bind_Ok in H; destruct H as (c & Hc & H);
  injection H as H.

Lemma concat_coords_is_not_None (ca cb c : option (list Q)) :
  concat_coords ca cb = Ok c ->
  is_not_None c = is_not_None ca /\ is_not_None c = is_not_None cb.
Proof.
  destruct ca, cb; cbn; intros H; try discriminate; injection H as <-; auto.
Qed.

Lemma first_some_again_l (ca cb : option (list Q)) :
  first_some ca (first_some ca cb) = first_some ca cb.
Proof. now destruct ca. Qed.

Lemma first_some_again_r (ca cb : option (list Q)) :
  first_some (first_some ca cb) cb = first_some ca cb.
Proof. now destruct ca, cb. Qed.

(** A second application of the inner-x stitcher fetches the same block
    and joins it once more; the result is the first result exactly when
    the block has no columns. *)
Lemma concat_inner_guards_again (da g r r' : DataArray V) (mxg : Z) :
  0 < mxg ->
  _concat_inner_guards fr da g mxg = Ok r ->
  _concat_inner_guards fr r g mxg = Ok r' ->
  exists dr nb b,
    region da = Some dr /\
    fr g (connection_inner_x dr) 0 0 = Ok nb /\
    inner_guard_block fr dr (is_not_None (xcoords da)) g mxg = Ok b /\
    size_x b = Nat.min (Z.to_nat mxg) (size_x nb) /\
    values r = (values b ++ values da)%list /\
    values r' = (values b ++ values b ++ values da)%list /\
    (r' = r <-> size_x nb = 0%nat).
Proof.
  intros Hpos H1 H2. rewrite concat_inner_guards_block in H1, H2.
  destruct (Z.leb_spec mxg 0); [lia |].
  open_stitch H1 dr Hr b Hb c Hc. open_stitch H2 dr' Hr' b' Hb' c' Hc'.
  apply concat_x_inv in Hc. destruct Hc as (Hs & xc & Hxc & ->).
  subst r. unfold get_region in Hr, Hr'. cbn [region set_region] in Hr'.
  injection Hr' as <-.
  destruct (concat_coords_is_not_None _ _ _ Hxc) as (_ & Hda).
  cbn [xcoords set_region with_values] in Hb'. rewrite Hda, Hb in Hb'.
  injection Hb' as <-.
  apply concat_x_inv in Hc'. destruct Hc' as (Hs' & xc' & Hxc' & ->).
  subst r'. cbn [values xcoords ycoords set_region with_values] in *.
  destruct (inner_guard_block_shape _ _ _ _ _ Hpos Hb) as (nb & Hnb & Hsz & Hcx).
  exists dr, nb, b.
  split; [destruct (region da); [now injection Hr as <- | discriminate] |].
  split; [exact Hnb |]. split; [exact Hb |]. split; [exact Hsz |].
  split; [reflexivity |]. split; [reflexivity |].
  unfold size_x in *. split.
  - intros E. apply (f_equal (fun a => length (values a))) in E.
    cbn [values set_region with_values] in E. rewrite !length_app in E. lia.
  - intros Hz. assert (Hvb : values b = []) by (apply nil_length_inv; lia).
    assert (xc' = xc) as ->.
    { destruct (xcoords da) as [xda |] eqn:Eda.
      - destruct (Hcx eq_refl) as (cx & Ecx & Hlen). rewrite Ecx in *.
        rewrite Hvb in Hlen. apply nil_length_inv in Hlen. subst cx.
        cbn in Hxc. injection Hxc as <-. cbn in Hxc'. now injection Hxc' as <-.
      - destruct (xcoords b); cbn in Hxc; [discriminate |].
        injection Hxc as <-. cbn in Hxc'. now injection Hxc' as <-. }
    unfold set_region, with_values. cbn [values ysize xcoords ycoords region
      regions da_metadata]. rewrite Hvb, first_some_again_l. reflexivity.
Qed.

Lemma concat_outer_guards_again (da g r r' : DataArray V) (mxg : Z) :
  0 < mxg ->
  _concat_outer_guards fr da g mxg = Ok r ->
  _concat_outer_guards fr r g mxg = Ok r' ->
  exists dr nb b,
    region da = Some dr /\
    fr g (connection_outer_x dr) 0 0 = Ok nb /\
    outer_guard_block fr dr (is_not_None (xcoords da)) g mxg = Ok b /\
    size_x b = Nat.min (Z.to_nat mxg) (size_x nb) /\
    values r = (values da ++ values b)%list /\
    values r' = ((values da ++ values b) ++ values b)%list /\
    (r' = r <-> size_x nb = 0%nat).
Proof.
  intros Hpos H1 H2. rewrite concat_outer_guards_block in H1, H2.
  destruct (Z.leb_spec mxg 0); [lia |].
  open_stitch H1 dr Hr b Hb c Hc. open_stitch H2 dr' Hr' b' Hb' c' Hc'.
  apply concat_x_inv in Hc. destruct Hc as (Hs & xc & Hxc & ->).
  subst r. unfold get_region in Hr, Hr'. cbn [region set_region] in Hr'.
  injection Hr' as <-.
  destruct (concat_coords_is_not_None _ _ _ Hxc) as (Hda & _).
  cbn [xcoords set_region with_values] in Hb'. rewrite Hda, Hb in Hb'.
  injection Hb' as <-.
  apply concat_x_inv in Hc'. destruct Hc' as (Hs' & xc' & Hxc' & ->).
  subst r'. cbn [values ysize xcoords ycoords set_region with_values size_y] in *.
  destruct (outer_guard_block_shape _ _ _ _ _ Hpos Hb) as (nb & Hnb & Hsz & Hcx).
  exists dr, nb, b.
  split; [destruct (region da); [now injection Hr as <- | discriminate] |].
  split; [exact Hnb |]. split; [exact Hb |]. split; [exact Hsz |].
  split; [reflexivity |]. split; [reflexivity |].
  unfold size_x in *. split.
  - intros E. apply (f_equal (fun a => length (values a))) in E.
    cbn [values set_region with_values] in E. rewrite !length_app in E. lia.
  - intros Hz. assert (Hvb : values b = []) by (apply nil_length_inv; lia).
    assert (xc' = xc) as ->.
    { destruct (xcoords da) as [xda |] eqn:Eda.
      - destruct (Hcx eq_refl) as (cx & Ecx & Hlen). rewrite Ecx in *.
        rewrite Hvb in Hlen. apply nil_length_inv in Hlen. subst cx.
        cbn in Hxc. injection Hxc as <-. cbn in Hxc'.
        injection Hxc' as <-. now rewrite !app_nil_r.
      - destruct (xcoords b); cbn in Hxc; [discriminate |].
        injection Hxc as <-. cbn in Hxc'. now injection Hxc' as <-. }
    unfold set_region, with_values. cbn [values ysize xcoords ycoords region
      regions da_metadata]. rewrite Hvb, !app_nil_r, first_some_again_r. reflexivity.
Qed.

(** The same for the y-stitchers: the block is joined once more, and the
    second result is the first exactly when the neighbour has no cells
    along y. *)
Lemma concat_lower_guards_again (da g r r' : DataArray V) (mxg myg : Z) :
  0 < myg ->
  _concat_lower_guards fr da g mxg myg = Ok r ->
  _concat_lower_guards fr r g mxg myg = Ok r' ->
  exists dr nb b,
    region da = Some dr /\
    fr g (connection_lower_y dr) mxg 0 = Ok nb /\
    lower_guard_block fr dr (is_not_None (ycoords da)) g mxg myg = Ok b /\
    values b = map (py_slice (Slice (Some (- myg)) None)) (values nb) /\
    size_y b = Nat.min (Z.to_nat myg) (size_y nb) /\
    values r = zip_with app (values b) (values da) /\
    size_y r = (size_y b + size_y da)%nat /\
    values r' = zip_with app (values b) (zip_with app (values b) (values da)) /\
    size_y r' = (size_y b + (size_y b + size_y da))%nat /\
    (r' = r <->
     size_y nb = 0%nat /\ Forall (fun col => col = []) (values nb)).
Proof.
  intros Hpos H1 H2. rewrite concat_lower_guards_block in H1, H2.
  destruct (Z.leb_spec myg 0); [lia |].
  open_stitch H1 dr Hr b Hb c Hc. open_stitch H2 dr' Hr' b' Hb' c' Hc'.
  apply concat_y_inv in Hc. destruct Hc as (Hs & yc & Hyc & ->).
  subst r. unfold get_region in Hr, Hr'. cbn [region set_region] in Hr'.
  injection Hr' as <-.
  destruct (concat_coords_is_not_None _ _ _ Hyc) as (_ & Hda).
  cbn [ycoords set_region with_values] in Hb'. rewrite Hda, Hb in Hb'.
  injection Hb' as <-.
  apply concat_y_inv in Hc'. destruct Hc' as (Hs' & yc' & Hyc' & ->).
  subst r'. unfold size_y in *.
  cbn [values ysize xcoords ycoords set_region with_values] in *.
  destruct (lower_guard_block_shape _ _ _ _ _ _ Hpos Hb)
    as (nb & Hnb & Hv & Hsz & Hcy).
  unfold size_y in *.
  exists dr, nb, b.
  split; [destruct (region da); [now injection Hr as <- | discriminate] |].
  split; [exact Hnb |]. split; [exact Hb |]. split; [exact Hv |].
  split; [exact Hsz |]. do 4 (split; [reflexivity |]).
  unfold size_x in *. split.
  - intros E. split.
    + apply (f_equal ysize) in E. cbn [ysize set_region with_values] in E. lia.
    + apply (f_equal values) in E. cbn [values set_region with_values] in E.
      apply zip_with_app_again_l in E; [| exact Hs].
      rewrite Hv in E. now apply no_cells_last in E.
  - intros (Hz & Hcells).
    assert (Hb0 : ysize b = 0%nat) by lia.
    assert (Hvb : Forall (fun col => col = []) (values b)).
    { rewrite Hv. now apply no_cells_last. }
    assert (yc' = yc) as ->.
    { destruct (ycoords da) as [yda |] eqn:Eda.
      - destruct (Hcy eq_refl) as (cy & Ecy & Hlen). rewrite Ecy in *.
        rewrite Hb0 in Hlen. apply nil_length_inv in Hlen. subst cy.
        cbn in Hyc. injection Hyc as <-. cbn in Hyc'. now injection Hyc' as <-.
      - destruct (ycoords b); cbn in Hyc; [discriminate |].
        injection Hyc as <-. cbn in Hyc'. now injection Hyc' as <-. }
    unfold set_region, with_values. cbn [values ysize xcoords ycoords region
      regions da_metadata].
    rewrite (proj2 (zip_with_app_again_l _ _ Hs) Hvb), first_some_again_l, Hb0.
    reflexivity.
Qed.

Lemma concat_upper_guards_again (da g r r' : DataArray V) (mxg myg : Z) :
  0 < myg ->
  _concat_upper_guards fr da g mxg myg = Ok r ->
  _concat_upper_guards fr r g mxg myg = Ok r' ->
  exists dr nb b,
    region da = Some dr /\
    fr g (connection_upper_y dr) mxg 0 = Ok nb /\
    upper_guard_block fr dr (is_not_None (ycoords da)) g mxg myg = Ok b /\
    values b = map (py_slice (Slice None (Some myg))) (values nb) /\
    size_y b = Nat.min (Z.to_nat myg) (size_y nb) /\
    values r = zip_with app (values da) (values b) /\
    size_y r = (size_y da + size_y b)%nat /\
    values r' = zip_with app (zip_with app (values da) (values b)) (values b) /\
    size_y r' = (size_y da + size_y b + size_y b)%nat /\
    (r' = r <->
     size_y nb = 0%nat /\ Forall (fun col => col = []) (values nb)).
Proof.
  intros Hpos H1 H2. rewrite concat_upper_guards_block in H1, H2.
  destruct (Z.leb_spec myg 0); [lia |].
  open_stitch H1 dr Hr b Hb c Hc. open_stitch H2 dr' Hr' b' Hb' c' Hc'.
  apply concat_y_inv in Hc. destruct Hc as (Hs & yc & Hyc & ->).
  subst r. unfold get_region in Hr, Hr'. cbn [region set_region] in Hr'.
  injection Hr' as <-.
  destruct (concat_coords_is_not_None _ _ _ Hyc) as (Hda & _).
  cbn [ycoords set_region with_values] in Hb'. rewrite Hda, Hb in Hb'.
  injection Hb' as <-.
  apply concat_y_inv in Hc'. destruct Hc' as (Hs' & yc' & Hyc' & ->).
  subst r'. unfold size_y in *.
  cbn [values ysize xcoords ycoords set_region with_values] in *.
  destruct (upper_guard_block_shape _ _ _ _ _ _ Hpos Hb)
    as (nb & Hnb & Hv & Hsz & Hcy).
  unfold size_y in *.
  exists dr, nb, b.
  split; [destruct (region da); [now injection Hr as <- | discriminate] |].
  split; [exact Hnb |]. split; [exact Hb |]. split; [exact Hv |].
  split; [exact Hsz |]. do 4 (split; [reflexivity |]).
  unfold size_x in *. split.
  - intros E. split.
    + apply (f_equal ysize) in E. cbn [ysize set_region with_values] in E. lia.
    + apply (f_equal values) in E. cbn [values set_region with_values] in E.
      apply zip_with_app_again_r in E; [| exact Hs].
      rewrite Hv in E. now apply no_cells_first in E.
  - intros (Hz & Hcells).
    assert (Hb0 : ysize b = 0%nat) by lia.
    assert (Hvb : Forall (fun col => col = []) (values b)).
    { rewrite Hv. now apply no_cells_first. }
    assert (yc' = yc) as ->.
    { destruct (ycoords da) as [yda |] eqn:Eda.
      - destruct (Hcy eq_refl) as (cy & Ecy & Hlen). rewrite Ecy in *.
        rewrite Hb0 in Hlen. apply nil_length_inv in Hlen. subst cy.
        cbn in Hyc. injection Hyc as <-. cbn in Hyc'.
        injection Hyc' as <-. now rewrite !app_nil_r.
      - destruct (ycoords b); cbn in Hyc; [discriminate |].
        injection Hyc as <-. cbn in Hyc'. now injection Hyc' as <-. }
    unfold set_region, with_values. cbn [values ysize xcoords ycoords region
      regions da_metadata].
    rewrite (proj2 (zip_with_app_again_r _ _ Hs) Hvb), first_some_again_r, Hb0.
    rewrite !Nat.add_0_r. reflexivity.
Qed.
End SecondApplication.

(** C7, counterexample.  On the limiter grid the outer-x stitcher with
    [mxg = 2] turns the 3 columns of region [core] into 5; applied to that
    result it returns 7 columns, not the first result. *)
Lemma second_application_grows :
  exists da r r',
    from_region global_limiter (Some "core") 0 0 = Ok da /\
    _concat_outer_guards from_region da global_limiter 2 = Ok r /\
    _concat_outer_guards from_region r global_limiter 2 = Ok r' /\
    length (values da) = 3%nat /\ length (values r) = 5%nat /\
    length (values r') = 7%nat /\ r' <> r.
Proof.
  do 3 eexists.
  split; [vm_compute; reflexivity |].
  split; [vm_compute; reflexivity |].
  split; [vm_compute; reflexivity |].
  repeat split. intros H. apply (f_equal (fun a => length (values a))) in H.
  vm_compute in H. discriminate.
Qed.

(** C7, amended.  Each of the four stitching operations is a pure function
    of its arguments and returns [da] itself when the guard width is not
    positive.  For a positive width the operation fetches the neighbour
    [nb] and joins a guard block [b] onto [da]: for the x-stitchers
    [min(mxg, n)] columns, [n] the number of columns of [nb]; for the
    y-stitchers the last (lower-y) or first (upper-y) [myg] cells of every
    column of [nb].  Applied a second time, to its own result, it joins
    the same block once more, so the second result carries the block
    twice.  The second result is the first one exactly when the block is
    empty: when [nb] has no columns (x-stitchers), or no cells along y
    (y-stitchers).  In every other case the operation is not idempotent. *)
Theorem stitcher_second_application {V : Type}
    (from_region : DataArray V -> option string -> Z -> Z -> result (DataArray V))
    (da da_global : DataArray V) (mxg myg : Z) :
  (mxg <= 0 ->
     _concat_inner_guards from_region da da_global mxg = Ok da /\
     _concat_outer_guards from_region da da_global mxg = Ok da) /\
  (myg <= 0 ->
     _concat_lower_guards from_region da da_global mxg myg = Ok da /\
     _concat_upper_guards from_region da da_global mxg myg = Ok da) /\
  (0 < mxg -> forall r r',
     _concat_inner_guards from_region da da_global mxg = Ok r ->
     _concat_inner_guards from_region r da_global mxg = Ok r' ->
     exists dr nb b,
       region da = Some dr /\
       from_region da_global (connection_inner_x dr) 0 0 = Ok nb /\
       inner_guard_block from_region dr (is_not_None (xcoords da)) da_global mxg
       = Ok b /\
       size_x b = Nat.min (Z.to_nat mxg) (size_x nb) /\
       values r = (values b ++ values da)%list /\
       values r' = (values b ++ values b ++ values da)%list /\
       (r' = r <-> size_x nb = 0%nat)) /\
  (0 < mxg -> forall r r',
     _concat_outer_guards from_region da da_global mxg = Ok r ->
     _concat_outer_guards from_region r da_global mxg = Ok r' ->
     exists dr nb b,
       region da = Some dr /\
       from_region da_global (connection_outer_x dr) 0 0 = Ok nb /\
       outer_guard_block from_region dr (is_not_None (xcoords da)) da_global mxg
       = Ok b /\
       size_x b = Nat.min (Z.to_nat mxg) (size_x nb) /\
       values r = (values da ++ values b)%list /\
       values r' = ((values da ++ values b) ++ values b)%list /\
       (r' = r <-> size_x nb = 0%nat)) /\
  (0 < myg -> forall r r',
     _concat_lower_guards from_region da da_global mxg myg = Ok r ->
     _concat_lower_guards from_region r da_global mxg myg = Ok r' ->
     exists dr nb b,
       region da = Some dr /\
       from_region da_global (connection_lower_y dr) mxg 0 = Ok nb /\
       lower_guard_block from_region dr (is_not_None (ycoords da)) da_global
         mxg myg = Ok b /\
       values b = map (py_slice (Slice (Some (- myg)) None)) (values nb) /\
       size_y b = Nat.min (Z.to_nat myg) (size_y nb) /\
       values r = zip_with app (values b) (values da) /\
       size_y r = (size_y b + size_y da)%nat /\
       values r' = zip_with app (values b) (zip_with app (values b) (values da)) /\
       size_y r' = (size_y b + (size_y b + size_y da))%nat /\
       (r' = r <->
        size_y nb = 0%nat /\ Forall (fun col => col = []) (values nb))) /\
  (0 < myg -> forall r r',
     _concat_upper_guards from_region da da_global mxg myg = Ok r ->
     _concat_upper_guards from_region r da_global mxg myg = Ok r' ->
     exists dr nb b,
       region da = Some dr /\
       from_region da_global (connection_upper_y dr) mxg 0 = Ok nb /\
       upper_guard_block from_region dr (is_not_None (ycoords da)) da_global
         mxg myg = Ok b /\
       values b = map (py_slice (Slice None (Some myg))) (values nb) /\
       size_y b = Nat.min (Z.to_nat myg) (size_y nb) /\
       values r = zip_with app (values da) (values b) /\
       size_y r = (size_y da + size_y b)%nat /\
       values r' = zip_with app (zip_with app (values da) (values b)) (values b) /\
       size_y r' = (size_y da + size_y b + size_y b)%nat /\
       (r' = r <->
        size_y nb = 0%nat /\ Forall (fun col => col = []) (values nb))).
Proof.
  split; [| split; [| split; [| split; [| split]]]].
  - intros H. unfold _concat_inner_guards, _concat_outer_guards.
    destruct (Z.leb_spec mxg 0); [split; reflexivity | lia].
  - intros H. unfold _concat_lower_guards, _concat_upper_guards.
    destruct (Z.leb_spec myg 0); [split; reflexivity | lia].
  - intros Hpos r r'. now apply concat_inner_guards_again.
  - intros Hpos r r'. now apply concat_outer_guards_again.
  - intros Hpos r r'. now apply concat_lower_guards_again.
  - intros Hpos r r'. now apply concat_upper_guards_again.
Qed.

Lemma stitcher_second_application_witness :
  exists b,
    values limiter_core_stitched = (values limiter_core ++ values b)%list /\
    values limiter_core_stitched_twice
    = ((values limiter_core ++ values b) ++ values b)%list /\
    size_x b = 2%nat /\
    limiter_core_stitched_twice <> limiter_core_stitched.
Proof.
  destruct (stitcher_second_application from_region limiter_core global_limiter 2 0)
    as (_ & _ & _ & Houter & _).
  destruct (Houter ltac:(lia) _ _ limiter_core_stitched_eq
              limiter_core_stitched_twice_eq)
    as (dr & nb & b & Hdr & Hnb & _ & Hsz & Hr & Hr' & Hiff).
  injection Hdr as <-. vm_compute in Hnb. injection Hnb as <-.
  exists b. split; [exact Hr |]. split; [exact Hr' |].
  split; [exact Hsz |].
  intros E. apply Hiff in E. discriminate E.
Defined.

(** * Further properties of the code *)

(** ** Clamping and ordering helpers *)

(** X1.  [_in_range] clamps [val] into [lower, upper]: with [lower <= upper]
    the result lies between the bounds, is [val] itself when [val] already
    does, and clamping a second time changes nothing.  With the bounds the
    wrong way round the result is [lower] for [val < lower] and [upper]
    otherwise. *)
Theorem in_range_clamps (val lower upper : Z) :
  (lower <= upper ->
     lower <= _in_range val lower upper <= upper /\
     (lower <= val <= upper -> _in_range val lower upper = val) /\
     (val < lower -> _in_range val lower upper = lower) /\
     (upper < val -> _in_range val lower upper = upper) /\
     _in_range (_in_range val lower upper) lower upper = _in_range val lower upper) /\
  (upper < lower ->
     _in_range val lower upper = if val <? lower then lower else upper).
Proof.
  unfold _in_range. split; intros H; repeat split; intros; split_tests; lia.
Qed.

(** X2.  [_order_vars] returns its two arguments in increasing order: the
    first component is their minimum, the second their maximum. *)
Theorem order_vars_sorted (lower upper : Z) :
  let p := _order_vars lower upper in
  fst p <= snd p /\
  fst p = Z.min lower upper /\ snd p = Z.max lower upper /\
  (lower <= upper -> p = (lower, upper)) /\
  _order_vars (fst p) (snd p) = p.
Proof.
  unfold _order_vars. cbv zeta. repeat split; intros; split_tests; simpl;
    try lia; try (f_equal; lia);
    repeat match goal with
    | |- context [if ?c then _ else _] => destruct c eqn:?; bool_to_prop
    end; simpl in *; try reflexivity; try lia.
Qed.

(** ** Topology classifier, with an upper X-point *)

(** X3.  When the two inner branch cuts differ ([jyseps2_1 <> jyseps1_2]):
    if the cuts coincide pairwise the answer is [xpoint] provided
    [jyseps1_1 < ny_inner - 1] and [jyseps2_2 > ny_inner], and
    UnsupportedTopology otherwise; else, if the two separatrix indices are
    equal, the answer is [connected-double-null] provided
    [jyseps2_1 < ny_inner - 1] and [jyseps1_2 > ny_inner], and
    UnsupportedTopology otherwise; else it is [disconnected-double-null],
    whatever [ny_inner] is. *)
Theorem get_topology_upper_xpoint (ds : Dataset) :
  let md := metadata ds in
  let pairwise := jyseps1_1 md = jyseps2_1 md /\ jyseps1_2 md = jyseps2_2 md in
  jyseps2_1 md <> jyseps1_2 md ->
  (pairwise -> jyseps1_1 md < ny_inner md - 1 -> jyseps2_2 md > ny_inner md ->
     _get_topology ds = Ok xpoint) /\
  (pairwise -> ~ (jyseps1_1 md < ny_inner md - 1 /\ jyseps2_2 md > ny_inner md) ->
     _get_topology ds = Err UnsupportedTopology) /\
  (~ pairwise -> ixseps1 md = ixseps2 md ->
     jyseps2_1 md < ny_inner md - 1 -> jyseps1_2 md > ny_inner md ->
     _get_topology ds = Ok connected_double_null) /\
  (~ pairwise -> ixseps1 md = ixseps2 md ->
     ~ (jyseps2_1 md < ny_inner md - 1 /\ jyseps1_2 md > ny_inner md) ->
     _get_topology ds = Err UnsupportedTopology) /\
  (~ pairwise -> ixseps1 md <> ixseps2 md ->
     _get_topology ds = Ok disconnected_double_null).
Proof.
  intros md pairwise Hne. subst md pairwise. unfold _get_topology.
  destruct (Z.eqb_spec (jyseps2_1 (metadata ds)) (jyseps1_2 (metadata ds)));
    [contradiction |].
  repeat split; intros; split_tests; try reflexivity; try lia; tauto.
Qed.

Lemma get_topology_upper_xpoint_witness :
  _get_topology ds_double_null = Ok disconnected_double_null.
Proof.
  apply (get_topology_upper_xpoint ds_double_null); simpl; lia.
Defined.

(** X4.  The classifier raises nothing but UnsupportedTopology, and raises
    it exactly when there is an upper X-point, the branch cuts coincide
    pairwise or the separatrix indices are equal, and the cuts that are
    compared with [ny_inner] do not enclose it. *)
Theorem get_topology_fails_iff (ds : Dataset) :
  let md := metadata ds in
  (forall e, _get_topology ds = Err e -> e = UnsupportedTopology) /\
  (_get_topology ds = Err UnsupportedTopology <->
   jyseps2_1 md <> jyseps1_2 md /\
   ((jyseps1_1 md = jyseps2_1 md /\ jyseps1_2 md = jyseps2_2 md /\
     ~ (jyseps1_1 md < ny_inner md - 1 /\ ny_inner md < jyseps2_2 md)) \/
    (~ (jyseps1_1 md = jyseps2_1 md /\ jyseps1_2 md = jyseps2_2 md) /\
     ixseps1 md = ixseps2 md /\
     ~ (jyseps2_1 md < ny_inner md - 1 /\ ny_inner md < jyseps1_2 md)))).
Proof.
  intros md. subst md. unfold _get_topology. split; [| split].
  - intros e. split_tests; intros Herr; try discriminate; now injection Herr as <-.
  - split_tests; intros Herr; try discriminate; lia.
  - intros Hcond. split_tests; try reflexivity; exfalso; lia.
Qed.

(** ** Wiring two regions *)

Lemma dict_get_set_eq {A} k (v : A) d : dict_get k (dict_set k v d) = Some v.
Proof.
  induction d as [| [k0 v0] d IH]; simpl.
  - now rewrite String.eqb_refl.
  - destruct (String.eqb k k0) eqn:E; simpl; rewrite ?String.eqb_refl, ?E; auto.
Qed.

Lemma dict_get_set_ne {A} k k' (v : A) d :
  k <> k' -> dict_get k' (dict_set k v d) = dict_get k' d.
Proof.
  intros Hne. induction d as [| [k0 v0] d IH]; simpl.
  - destruct (String.eqb_spec k' k); [congruence | reflexivity].
  - destruct (String.eqb_spec k k0); simpl.
    + subst k0. destruct (String.eqb_spec k' k); [congruence | reflexivity].
    + destruct (String.eqb_spec k' k0); [reflexivity | exact IH].
Qed.

Lemma keys_dict_set {A} k (v v0 : A) d :
  dict_get k d = Some v0 -> map fst (dict_set k v d) = map fst d.
Proof.
  induction d as [| [k0 v1] d IH]; simpl; [discriminate |].
  destruct (String.eqb_spec k k0); simpl; intros H.
  - now subst k0.
  - now rewrite IH.
Qed.

Lemma dict_item_Err {A} k (d : list (string * A)) e :
  dict_item k d = Err e -> e = KeyError /\ dict_get k d = None.
Proof.
  unfold dict_item. destruct (dict_get k d); simpl; intros H;
    [discriminate | injection H as <-; auto].
Qed.

Lemma connection_objects (regions : refdict) (a b : string) (h : heap)
    (f g : Region -> Region) :
  let '(h', res) :=
    (st i <- lift (dict_item a regions);
     st _ <- update_object i f;
     st o <- lift (dict_item b regions);
     update_object o g) h in
  (res = Err KeyError <-> dict_get a regions = None \/ dict_get b regions = None) /\
  (forall e, res = Err e -> e = KeyError) /\
  (dict_get a regions = None -> h' = h) /\
  (forall i, dict_get a regions = Some i -> dict_get b regions = None ->
     h' = alter f i h) /\
  (forall i o, dict_get a regions = Some i -> dict_get b regions = Some o ->
     res = Ok tt /\ h' = alter g o (alter f i h)).
Proof.
  unfold bindS, lift, update_object, dict_item.
  destruct (dict_get a regions) as [i |]; cbn.
  - destruct (dict_get b regions) as [o |]; cbn.
    + repeat split; try discriminate.
      * intros [H | H]; discriminate.
      * congruence.
    + repeat split; try discriminate; auto; try congruence.
  - repeat split; try discriminate; auto; try congruence.
Qed.

(** X5.  [_create_connection_x(regions, inner, outer)] raises KeyError
    exactly when one of the two keys is absent, and raises nothing else.
    With [inner] absent no object is changed; with [inner] present and
    [outer] absent the first assignment has been made when the exception is
    raised.  Otherwise the object under [inner] gets
    [connection_outer_x = outer] and the object under [outer] gets
    [connection_inner_x = inner], also when both keys hold the same object;
    their other attributes and all other objects are as before, and the
    change is read through every key that holds one of the two objects. *)
Theorem create_connection_x_spec (regions : refdict) (inner outer : string) (h : heap) :
  let '(h', res) := _create_connection_x regions inner outer h in
  (res = Err KeyError <->
   dict_get inner regions = None \/ dict_get outer regions = None) /\
  (forall e, res = Err e -> e = KeyError) /\
  (dict_get inner regions = None -> h' = h) /\
  (forall i, dict_get inner regions = Some i -> dict_get outer regions = None ->
     h' = alter (fun r => set_connection_outer_x r outer) i h) /\
  (forall i o, dict_get inner regions = Some i -> dict_get outer regions = Some o ->
     res = Ok tt /\
     length h' = length h /\
     (forall j, j <> i -> j <> o -> h' !! j = h !! j) /\
     (forall ri, h !! i = Some ri ->
        exists ri', h' !! i = Some ri' /\
          connection_outer_x ri' = Some outer /\
          connection_inner_x ri' =
            (if decide (i = o) then Some inner else connection_inner_x ri) /\
          same_identity ri' ri /\
          connection_lower_y ri' = connection_lower_y ri /\
          connection_upper_y ri' = connection_upper_y ri) /\
     (forall ro, h !! o = Some ro ->
        exists ro', h' !! o = Some ro' /\
          connection_inner_x ro' = Some inner /\
          connection_outer_x ro' =
            (if decide (i = o) then Some outer else connection_outer_x ro) /\
          same_identity ro' ro /\
          connection_lower_y ro' = connection_lower_y ro /\
          connection_upper_y ro' = connection_upper_y ro) /\
     (forall k j r, dict_get k regions = Some j -> h' !! j = Some r ->
        (j = i -> connection_outer_x r = Some outer) /\
        (j = o -> connection_inner_x r = Some inner))).
Proof.
  pose proof (connection_objects regions inner outer h
    (fun r => set_connection_outer_x r outer)
    (fun r => set_connection_inner_x r inner)) as S.
  unfold _create_connection_x.
  destruct (bindS _ _ h) as [h' res].
  destruct S as (S1 & S2 & S3 & S4 & S5).
  split; [exact S1 |]. split; [exact S2 |]. split; [exact S3 |]. split; [exact S4 |].
  intros i o Hi Ho. destruct (S5 i o Hi Ho) as (-> & ->). clear.
  split; [reflexivity |]. split; [now rewrite !length_alter |].
  split; [| split; [| split]].
  - intros j Hji Hjo. now rewrite !list_lookup_alter_ne by congruence.
  - intros ri Hri. rewrite !list_lookup_alter. destruct (decide (o = i)) as [-> | Hne].
    + rewrite decide_True by reflexivity. rewrite Hri. cbn.
      eexists; split; [reflexivity |]. rewrite decide_True by reflexivity.
      repeat split.
    + rewrite decide_True by reflexivity. rewrite Hri. cbn.
      eexists; split; [reflexivity |]. rewrite decide_False by congruence.
      repeat split.
  - intros ro Hro. rewrite list_lookup_alter_eq, list_lookup_alter.
    destruct (decide (i = o)) as [-> | Hne]; rewrite Hro; cbn;
      (eexists; split; [reflexivity |]); repeat split.
  - intros k j r _ Hr. rewrite !list_lookup_alter in Hr.
    split; intros ->; repeat (case_decide; try congruence);
      destruct (h !! _); simplify_eq/=; reflexivity.
Qed.

(** X6.  [_create_connection_y(regions, lower, upper)] raises KeyError
    exactly when one of the two keys is absent, and raises nothing else.
    With [lower] absent no object is changed; with [lower] present and
    [upper] absent the first assignment has been made when the exception is
    raised.  Otherwise the object under [lower] gets
    [connection_upper_y = upper] and the object under [upper] gets
    [connection_lower_y = lower]; when both keys hold the same object it
    becomes its own neighbour on both sides (periodic).  Their other
    attributes and all other objects are as before, and the change is read
    through every key that holds one of the two objects. *)
Theorem create_connection_y_spec (regions : refdict) (lower upper : string) (h : heap) :
  let '(h', res) := _create_connection_y regions lower upper h in
  (res = Err KeyError <->
   dict_get lower regions = None \/ dict_get upper regions = None) /\
  (forall e, res = Err e -> e = KeyError) /\
  (dict_get lower regions = None -> h' = h) /\
  (forall l, dict_get lower regions = Some l -> dict_get upper regions = None ->
     h' = alter (fun r => set_connection_upper_y r upper) l h) /\
  (forall l u, dict_get lower regions = Some l -> dict_get upper regions = Some u ->
     res = Ok tt /\
     length h' = length h /\
     (forall j, j <> l -> j <> u -> h' !! j = h !! j) /\
     (forall rl, h !! l = Some rl ->
        exists rl', h' !! l = Some rl' /\
          connection_upper_y rl' = Some upper /\
          connection_lower_y rl' =
            (if decide (l = u) then Some lower else connection_lower_y rl) /\
          same_identity rl' rl /\
          connection_inner_x rl' = connection_inner_x rl /\
          connection_outer_x rl' = connection_outer_x rl) /\
     (forall ru, h !! u = Some ru ->
        exists ru', h' !! u = Some ru' /\
          connection_lower_y ru' = Some lower /\
          connection_upper_y ru' =
            (if decide (l = u) then Some upper else connection_upper_y ru) /\
          same_identity ru' ru /\
          connection_inner_x ru' = connection_inner_x ru /\
          connection_outer_x ru' = connection_outer_x ru) /\
     (forall k j r, dict_get k regions = Some j -> h' !! j = Some r ->
        (j = l -> connection_upper_y r = Some upper) /\
        (j = u -> connection_lower_y r = Some lower))).
Proof.
  pose proof (connection_objects regions lower upper h
    (fun r => set_connection_upper_y r upper)
    (fun r => set_connection_lower_y r lower)) as S.
  unfold _create_connection_y.
  destruct (bindS _ _ h) as [h' res].
  destruct S as (S1 & S2 & S3 & S4 & S5).
  split; [exact S1 |]. split; [exact S2 |]. split; [exact S3 |]. split; [exact S4 |].
  intros i o Hi Ho. destruct (S5 i o Hi Ho) as (-> & ->). clear.
  split; [reflexivity |]. split; [now rewrite !length_alter |].
  split; [| split; [| split]].
  - intros j Hji Hjo. now rewrite !list_lookup_alter_ne by congruence.
  - intros ri Hri. rewrite !list_lookup_alter. destruct (decide (o = i)) as [-> | Hne].
    + rewrite decide_True by reflexivity. rewrite Hri. cbn.
      eexists; split; [reflexivity |]. rewrite decide_True by reflexivity.
      repeat split.
    + rewrite decide_True by reflexivity. rewrite Hri. cbn.
      eexists; split; [reflexivity |]. rewrite decide_False by congruence.
      repeat split.
  - intros ro Hro. rewrite list_lookup_alter_eq, list_lookup_alter.
    destruct (decide (i = o)) as [-> | Hne]; rewrite Hro; cbn;
      (eexists; split; [reflexivity |]); repeat split.
  - intros k j r _ Hr. rewrite !list_lookup_alter in Hr.
    split; intros ->; repeat (case_decide; try congruence);
      destruct (h !! _); simplify_eq/=; reflexivity.
Qed.

(** ** Preprocessing of the breakpoints *)

(** X7.  With [ybndry = keep_yboundaries * MYG] and [ybndry_upper] equal to
    [ybndry] when there is an upper X-point ([jyseps2_1 <> jyseps1_2]) and 0
    otherwise, the builder moves the y-breakpoints up, relative to the same
    grid read without y-boundary cells: [jyseps1_1] and [jyseps2_1] by
    [ybndry], [ny_inner] by [ybndry + ybndry_upper], [jyseps1_2] and
    [jyseps2_2] by [ybndry + 2 * ybndry_upper], and [ny] grows by
    [2 * ybndry + 2 * ybndry_upper].  The x-breakpoints do not depend on
    [keep_yboundaries]. *)
Theorem yboundaries_shift (md : Metadata) :
  let b := adjust_breakpoints md in
  let b0 := adjust_breakpoints (without_yboundaries md) in
  let yb := keep_yboundaries md * MYG md in
  let ybu := if jyseps2_1 md =? jyseps1_2 md then 0 else yb in
  ybndry b = yb /\ ybndry b0 = 0 /\
  jys11 b = jys11 b0 + yb /\
  jys21 b = jys21 b0 + yb /\
  nyinner b = nyinner b0 + yb + ybu /\
  jys12 b = jys12 b0 + yb + 2 * ybu /\
  jys22 b = jys22 b0 + yb + 2 * ybu /\
  bny b = meta_ny md + 2 * yb + 2 * ybu /\
  bny b0 = meta_ny md /\
  (ixs1 b, ixs2 b, bnx b) = (ixs1 b0, ixs2 b0, bnx b0).
Proof.
  cbv zeta. rewrite !adjust_breakpoints_eq.
  cbn [ixs1 ixs2 bnx jys11 jys21 nyinner jys12 jys22 bny ybndry
       without_yboundaries ixseps1 ixseps2 jyseps1_1 jyseps2_1 jyseps1_2
       jyseps2_2 ny_inner meta_nx meta_ny MXG MYG keep_xboundaries
       keep_yboundaries].
  unfold xguards_removed. cbn [keep_xboundaries MXG].
  destruct (jyseps2_1 md =? jyseps1_2 md); repeat split; lia.
Qed.

Lemma in_range_bounds v lo hi :
  lo <= hi -> lo <= _in_range v lo hi <= hi.
Proof. intros H. unfold _in_range. split_tests; lia. Qed.

(** X8.  After the clamping and the boundary adjustment, for a grid with
    [nx >= 0], [ny >= 1] and a non-negative y-boundary width: the two
    separatrix indices are ordered and lie in [[0, nx]] of the unadjusted
    grid; every branch cut lies inside the adjusted grid; the two inner
    cuts are ordered and [ny_inner] lies between them
    ([jys21 + 1 <= nyinner <= jys12 + 1]). *)
Theorem breakpoints_sensible (md : Metadata) :
  0 <= meta_nx md -> 1 <= meta_ny md ->
  0 <= keep_yboundaries md * MYG md ->
  let b := adjust_breakpoints md in
  let gx := xguards_removed md in
  0 <= ixs1 b + gx <= ixs2 b + gx /\ ixs2 b + gx <= meta_nx md /\
  bnx b = meta_nx md - 2 * gx /\
  ybndry b <= jys11 b < bny b - ybndry b /\
  ybndry b <= jys21 b <= jys12 b /\
  jys21 b + 1 <= nyinner b <= jys12 b + 1 /\
  jys12 b < bny b - ybndry b /\
  ybndry b <= jys22 b < bny b - ybndry b.
Proof.
  intros Hnx Hny Hyb. cbv zeta. rewrite adjust_breakpoints_eq.
  cbn [ixs1 ixs2 bnx jys11 jys21 nyinner jys12 jys22 bny ybndry].
  generalize dependent (keep_yboundaries md * MYG md). intros yb Hyb.
  generalize (xguards_removed md). intros gx.
  pose proof (in_range_bounds (ixseps1 md) 0 (meta_nx md) Hnx) as C1.
  pose proof (in_range_bounds (ixseps2 md) 0 (meta_nx md) Hnx) as C2.
  assert (Hny' : 0 <= meta_ny md - 1) by lia.
  pose proof (in_range_bounds (jyseps1_1 md) 0 (meta_ny md - 1) Hny') as C3.
  pose proof (in_range_bounds (jyseps2_1 md) 0 (meta_ny md - 1) Hny') as C4.
  pose proof (in_range_bounds (jyseps1_2 md) 0 (meta_ny md - 1) Hny') as C5.
  pose proof (in_range_bounds (jyseps2_2 md) 0 (meta_ny md - 1) Hny') as C6.
  set (j21 := _in_range (jyseps2_1 md) 0 (meta_ny md - 1)) in *.
  set (j12 := _in_range (jyseps1_2 md) 0 (meta_ny md - 1)) in *.
  pose proof (in_range_bounds (ny_inner md) (Z.min j21 j12 + 1)
                (Z.max j21 j12 + 1) ltac:(lia)) as C7.
  destruct (jyseps2_1 md =? jyseps1_2 md) eqn:E.
  - apply Z.eqb_eq in E. assert (j21 = j12) by (subst j21 j12; now rewrite E).
    lia.
  - lia.
Qed.

Lemma breakpoints_sensible_witness :
  let b := adjust_breakpoints md_double_null in
  ixs1 b <= ixs2 b /\ jys21 b + 1 <= nyinner b <= jys12 b + 1.
Proof.
  pose proof (breakpoints_sensible md_double_null ltac:(simpl; lia)
                ltac:(simpl; lia) ltac:(simpl; lia)) as H.
  cbv zeta in H. cbv zeta. lia.
Defined.

(** ** Shape of the built registry *)

Lemma rects_keys (regs : registry) : map fst (rects regs) = map fst regs.
Proof. unfold rects. rewrite map_map. reflexivity. Qed.

(** X9.  The builder creates 1 region for [core] and [sol], 2 for
    [limiter], 6 for [single-null], 8 for [xpoint], 12 for
    [connected-double-null] and 18 for [disconnected-double-null]; the keys
    of the registry are pairwise different and stand in the order of the
    assignments. *)
Theorem built_registry_shape (ds : Dataset) (t : topology) (regs : registry) :
  _get_topology ds = Ok t ->
  _create_regions_toroidal ds = Ok regs ->
  length regs = region_count t /\
  NoDup (map fst regs) /\
  map fst regs = map rs_key (br_regions (branch_of t (adjust_breakpoints (metadata ds)))).
Proof.
  intros Ht Hb.
  destruct (create_regions_rects _ _ Hb) as (t' & Ht' & Hr).
  rewrite Ht in Ht'. injection Ht' as <-.
  assert (Hk : map fst regs =
               map fst (branch_rects (branch_of t (adjust_breakpoints (metadata ds)))))
    by (rewrite <- Hr; symmetry; apply rects_keys).
  clear Hr Hb Ht. remember (adjust_breakpoints (metadata ds)) as b eqn:Eb. clear Eb.
  destruct t; revert Hk; compute_branch_rects; cbn [map fst]; intros Hk;
    (split; [rewrite <- (length_map fst regs), Hk; reflexivity |]);
    (split; [| rewrite Hk; reflexivity]); rewrite Hk;
    apply (bool_decide_unpack _); vm_compute; exact I.
Qed.

Lemma built_registry_shape_witness :
  length (regions global_limiter) = 2%nat /\
  map fst (regions global_limiter) = ["core"; "SOL"].
Proof.
  destruct (built_registry_shape ds_limiter limiter (regions global_limiter)
              eq_refl limiter_registry_eq) as (Hlen & _ & Hkeys).
  split; [exact Hlen | exact Hkeys].
Defined.

(** ** Geometry of the connections *)

Lemma all_links_strip (regs : registry) : all_links (strip_all regs) = all_links regs.
Proof. unfold all_links, strip_all. rewrite map_map. reflexivity. Qed.

Lemma in_all_links k r (regs : registry) :
  In (k, r) regs -> In (k, links r) (all_links regs).
Proof. intros H. apply (in_map (fun kr => (fst kr, links (snd kr))) _ _ H). Qed.

Lemma dict_get_all_links s (regs : registry) rs :
  dict_get s regs = Some rs -> dict_get s (all_links regs) = Some (links rs).
Proof.
  induction regs as [| [k v] regs IH]; simpl; [discriminate |].
  destruct (String.eqb s k); [intros H; now injection H as -> | exact IH].
Qed.

(** The names, bounds and connections of a built registry, as computed by
    the branch of its topology. *)
Lemma built_links (ds : Dataset) (t : topology) (regs : registry) :
  _get_topology ds = Ok t ->
  _create_regions_toroidal ds = Ok regs ->
  (do L <- skeleton (branch_of t (adjust_breakpoints (metadata ds)));
   Ok (all_links L)) = Ok (all_links regs).
Proof.
  intros Ht Hb. destruct (create_regions_skeleton _ _ Hb) as (t' & Ht' & Hs).
  rewrite Ht in Ht'. injection Ht' as <-. rewrite Hs. simpl.
  now rewrite all_links_strip.
Qed.

Lemma connected_double_null_one_separatrix (ds : Dataset) :
  _get_topology ds = Ok connected_double_null ->
  ixs1 (adjust_breakpoints (metadata ds)) = ixs2 (adjust_breakpoints (metadata ds)).
Proof.
  intros Ht. apply get_topology_facts in Ht. destruct Ht as (_ & He & _).
  rewrite adjust_breakpoints_eq. cbn [ixs1 ixs2]. rewrite He. lia.
Qed.

(** Enumerates the entries of the registry with their links. *)
Ltac enumerate_regions HL Hin :=
  rewrite <- HL in Hin; cbn [In] in Hin;
  repeat match type of Hin with
  | _ \/ _ => destruct Hin as [Hin | Hin]
  | False => contradiction
  end;
  injection Hin as <- ? ? ? ? ? ? ? ? ?.

Ltac compute_skeleton_in H :=
  cbv -[Z.add Z.sub ixs1 ixs2 bnx jys11 jys21 nyinner jys12 jys22 bny ybndry] in H.

Ltac use_connection conn Hco :=
  match goal with
  | Hx : _ = conn _ |- _ => rewrite <- Hx in Hco
  end; try discriminate; injection Hco as <-.

Ltac lookup_neighbour HL Hget :=
  rewrite <- HL in Hget; cbv [dict_get String.eqb Ascii.eqb Bool.eqb] in Hget;
  injection Hget as ? ? ? ? ? ? ? ? ?.

(** X10.  In every registry the builder returns, each connection names a
    key of the registry, and the region stored under that key points back
    with the opposite connection: outer-x against inner-x, upper-y against
    lower-y. *)
Theorem built_connections_mutual (ds : Dataset) (regs : registry) :
  _create_regions_toroidal ds = Ok regs ->
  forall k r s, In (k, r) regs ->
    (connection_outer_x r = Some s ->
     exists rs, dict_get s regs = Some rs /\ connection_inner_x rs = Some k) /\
    (connection_inner_x r = Some s ->
     exists rs, dict_get s regs = Some rs /\ connection_outer_x rs = Some k) /\
    (connection_upper_y r = Some s ->
     exists rs, dict_get s regs = Some rs /\ connection_lower_y rs = Some k) /\
    (connection_lower_y r = Some s ->
     exists rs, dict_get s regs = Some rs /\ connection_upper_y rs = Some k).
Proof. exact (connections_symmetric_on_keys ds regs). Qed.

Lemma limiter_core_in_registry :
  In ("core", limiter_core_region) (regions global_limiter).
Proof. vm_compute. left. reflexivity. Qed.

Lemma limiter_sol_in_registry :
  In ("SOL", limiter_sol_region) (regions global_limiter).
Proof. vm_compute. right. left. reflexivity. Qed.

Lemma built_connections_mutual_witness :
  exists rs, dict_get "SOL" (regions global_limiter) = Some rs /\
             connection_inner_x rs = Some "core".
Proof.
  destruct (built_connections_mutual ds_limiter (regions global_limiter)
              limiter_registry_eq "core" limiter_core_region "SOL"
              limiter_core_in_registry) as (Hout & _).
  exact (Hout eq_refl).
Defined.

(** X11.  Every region of a built registry is named after the key it is
    stored under, except in the single-null branch, where the regions under
    the keys [outer_PFR] and [outer_SOL] are named [lower_PFR] and
    [lower_SOL]. *)
Theorem built_region_names (ds : Dataset) (t : topology) (regs : registry) :
  _get_topology ds = Ok t ->
  _create_regions_toroidal ds = Ok regs ->
  forall k r, In (k, r) regs ->
    (t <> single_null -> name r = k) /\
    (t = single_null ->
       (k = "outer_PFR" /\ name r = "lower_PFR") \/
       (k = "outer_SOL" /\ name r = "lower_SOL") \/
       (k <> "outer_PFR" /\ k <> "outer_SOL" /\ name r = k)).
Proof.
  intros Ht Hb k r Hin.
  pose proof (built_links _ _ _ Ht Hb) as HL.
  apply in_all_links in Hin.
  clear Ht Hb. remember (adjust_breakpoints (metadata ds)) as b eqn:Eb. clear Eb.
  remember (all_links regs) as L eqn:EL. clear EL.
  unfold links in Hin.
  destruct t; compute_skeleton_in HL; injection HL as HL.
  all: enumerate_regions HL Hin.
  all: split; intros Ht; try discriminate; try congruence.
  all: first [ left; split; [reflexivity | congruence]
             | right; left; split; [reflexivity | congruence]
             | right; right; repeat split; [discriminate | discriminate | congruence] ].
Qed.

Lemma built_region_names_witness :
  name limiter_core_region = "core".
Proof.
  destruct (built_region_names ds_limiter limiter (regions global_limiter)
              eq_refl limiter_registry_eq "core" limiter_core_region
              limiter_core_in_registry) as (Hname & _).
  apply Hname. discriminate.
Defined.

(** X12.  Two regions of a built registry that are connected in x abut:
    the outer neighbour starts at the x-index where the region ends.
    Except in the limiter topology (where the periodic [core] leaves out
    the boundary rows that [SOL] has) they also span the same y-range. *)
Theorem x_neighbours_abut (ds : Dataset) (t : topology) (regs : registry) :
  _get_topology ds = Ok t ->
  _create_regions_toroidal ds = Ok regs ->
  forall k r s rs, In (k, r) regs ->
    connection_outer_x r = Some s -> dict_get s regs = Some rs ->
    xinner_ind rs = xouter_ind r /\
    (t <> limiter -> ylower_ind rs = ylower_ind r /\ yupper_ind rs = yupper_ind r).
Proof.
  intros Ht Hb k r s rs Hin Hco Hget.
  pose proof (built_links _ _ _ Ht Hb) as HL.
  apply in_all_links in Hin. apply dict_get_all_links in Hget.
  assert (Hcdn : t = connected_double_null ->
                 ixs1 (adjust_breakpoints (metadata ds))
                 = ixs2 (adjust_breakpoints (metadata ds)))
    by (intros ->; now apply connected_double_null_one_separatrix).
  clear Ht Hb. remember (adjust_breakpoints (metadata ds)) as b eqn:Eb. clear Eb.
  remember (all_links regs) as L eqn:EL. clear EL.
  unfold links in Hin, Hget.
  destruct t; compute_skeleton_in HL; injection HL as HL.
  all: enumerate_regions HL Hin.
  all: use_connection connection_outer_x Hco.
  all: lookup_neighbour HL Hget.
  all: split; [| intros Hne; split]; try lia; try congruence;
       try (specialize (Hcdn eq_refl); lia).
Qed.

Lemma limiter_sol_lookup :
  dict_get "SOL" (regions global_limiter) = Some limiter_sol_region.
Proof. vm_compute. reflexivity. Qed.

Lemma x_neighbours_abut_witness :
  xinner_ind limiter_sol_region = xouter_ind limiter_core_region.
Proof.
  destruct (x_neighbours_abut ds_limiter limiter (regions global_limiter)
              eq_refl limiter_registry_eq "core" limiter_core_region
              "SOL" limiter_sol_region limiter_core_in_registry eq_refl
              limiter_sol_lookup) as (Habut & _).
  exact Habut.
Defined.

(** X13.  In a built registry a region without inner-x connection starts at
    x-index 0 and a region without outer-x connection ends at the adjusted
    [nx]; a region without lower-y connection starts at y-index 0 or at the
    adjusted [ny_inner], and a region without upper-y connection ends at
    the adjusted [ny] or at the adjusted [ny_inner] (the targets). *)
Theorem boundary_edges_at_grid_ends (ds : Dataset) (regs : registry) :
  _create_regions_toroidal ds = Ok regs ->
  forall k r, In (k, r) regs ->
    let b := adjust_breakpoints (metadata ds) in
    (connection_inner_x r = None -> xinner_ind r = 0) /\
    (connection_outer_x r = None -> xouter_ind r = bnx b) /\
    (connection_lower_y r = None -> ylower_ind r = 0 \/ ylower_ind r = nyinner b) /\
    (connection_upper_y r = None -> yupper_ind r = bny b \/ yupper_ind r = nyinner b).
Proof.
  intros Hb k r Hin b.
  destruct (create_regions_rects _ _ Hb) as (t & Ht & _).
  pose proof (built_links _ _ _ Ht Hb) as HL.
  apply in_all_links in Hin.
  clear Ht Hb. subst b.
  remember (adjust_breakpoints (metadata ds)) as b eqn:Eb. clear Eb.
  remember (all_links regs) as L eqn:EL. clear EL.
  unfold links in Hin.
  destruct t; compute_skeleton_in HL; injection HL as HL.
  all: enumerate_regions HL Hin.
  all: repeat split; intros Hnone; try congruence; auto.
Qed.

Lemma boundary_edges_at_grid_ends_witness :
  xinner_ind limiter_core_region = 0 /\
  xouter_ind limiter_sol_region = bnx (adjust_breakpoints md_limiter).
Proof.
  destruct (boundary_edges_at_grid_ends ds_limiter (regions global_limiter)
              limiter_registry_eq "core" limiter_core_region
              limiter_core_in_registry) as (Hin & _).
  destruct (boundary_edges_at_grid_ends ds_limiter (regions global_limiter)
              limiter_registry_eq "SOL" limiter_sol_region
              limiter_sol_in_registry) as (_ & Hout & _).
  split; [apply Hin | apply Hout]; reflexivity.
Defined.

(** ** Failures of the builder *)

Lemma dict_get_Some_key {A} k (d : list (string * A)) :
  k ∈ map fst d -> exists v, dict_get k d = Some v.
Proof.
  induction d as [| [k0 v0] d IH]; simpl; intros H.
  - inversion H.
  - destruct (String.eqb_spec k k0); [eauto |].
    apply IH. inversion H; subst; [contradiction | assumption].
Qed.

Lemma create_connection_x_Ok regs a b :
  a ∈ map fst regs -> b ∈ map fst regs ->
  exists regs', create_connection_x_value regs a b = Ok regs' /\
                map fst regs' = map fst regs.
Proof.
  intros Ha Hb. unfold create_connection_x_value, dict_item.
  destruct (dict_get_Some_key _ _ Ha) as (ra & Hra). rewrite Hra. simpl.
  assert (Hk : map fst (dict_set a (set_connection_outer_x ra b) regs) = map fst regs)
    by (eapply keys_dict_set; eassumption).
  rewrite <- Hk in Hb. destruct (dict_get_Some_key _ _ Hb) as (rb & Hrb).
  rewrite Hrb. simpl. eexists. split; [reflexivity |].
  erewrite keys_dict_set; eassumption.
Qed.

Lemma create_connection_y_Ok regs a b :
  a ∈ map fst regs -> b ∈ map fst regs ->
  exists regs', create_connection_y_value regs a b = Ok regs' /\
                map fst regs' = map fst regs.
Proof.
  intros Ha Hb. unfold create_connection_y_value, dict_item.
  destruct (dict_get_Some_key _ _ Ha) as (ra & Hra). rewrite Hra. simpl.
  assert (Hk : map fst (dict_set a (set_connection_upper_y ra b) regs) = map fst regs)
    by (eapply keys_dict_set; eassumption).
  rewrite <- Hk in Hb. destruct (dict_get_Some_key _ _ Hb) as (rb & Hrb).
  rewrite Hrb. simpl. eexists. split; [reflexivity |].
  erewrite keys_dict_set; eassumption.
Qed.

Lemma connect_all_Ok create pairs :
  (forall regs a b, a ∈ map fst regs -> b ∈ map fst regs ->
     exists regs', create regs a b = Ok regs' /\ map fst regs' = map fst regs) ->
  forall regs,
    pairs_present (map fst regs) pairs = true ->
    exists regs', connect_all_value create pairs regs = Ok regs' /\
                  map fst regs' = map fst regs.
Proof.
  intros Hc. induction pairs as [| [a b] pairs IH]; simpl; intros regs Hp.
  - eauto.
  - apply andb_true_iff in Hp. destruct Hp as [Hab Hp].
    apply andb_true_iff in Hab. destruct Hab as [Ha Hb].
    apply bool_decide_eq_true in Ha, Hb.
    destruct (Hc regs a b Ha Hb) as (regs1 & H1 & Hk1). rewrite H1. simpl.
    rewrite <- Hk1 in Hp. destruct (IH regs1 Hp) as (regs' & H' & Hk').
    exists regs'. split; [exact H' | congruence].
Qed.

Lemma add_regions_keys ds stmts :
  forall regs regs',
    add_regions_value ds stmts regs = Ok regs' ->
    map fst regs' =
    map fst (fold_left (fun d s => dict_set (rs_key s) (stmt_rect s) d) stmts (rects regs)).
Proof.
  intros regs regs' H. apply add_regions_rects in H.
  rewrite <- H. symmetry. apply rects_keys.
Qed.

Lemma add_regions_Err ds stmts :
  forall regs e, add_regions_value ds stmts regs = Err e -> e = IndexError.
Proof.
  induction stmts as [| s stmts IH]; simpl; intros regs e H; [discriminate |].
  destruct (Region_init _ _ _ _ _ _) as [r | e'] eqn:Hr; simpl in H.
  - eapply IH; eassumption.
  - injection H as <-. unfold Region_init in Hr.
    destruct (Region_coords _ _ _ _ _); simpl in Hr; [discriminate |].
    now injection Hr as <-.
Qed.

(** The connection calls of every branch name keys that the branch has
    assigned. *)
Lemma branch_pairs_present (t : topology) (b : breakpoints) :
  let br := branch_of t b in
  pairs_present (map fst (branch_rects br)) (br_connections_x br) = true /\
  pairs_present (map fst (branch_rects br)) (br_connections_y br) = true.
Proof.
  destruct t; split; vm_compute; exact eq_refl.
Qed.

Lemma run_branch_connections_Ok ds (t : topology) regs0 :
  add_regions_value ds (br_regions (branch_of t (adjust_breakpoints (metadata ds)))) []
  = Ok regs0 ->
  exists regs, run_branch_value ds (branch_of t (adjust_breakpoints (metadata ds))) = Ok regs.
Proof.
  intros H0. unfold run_branch_value. rewrite H0. simpl.
  pose proof (add_regions_keys _ _ _ _ H0) as Hk. simpl in Hk.
  destruct (branch_pairs_present t (adjust_breakpoints (metadata ds))) as (Hx & Hy).
  unfold branch_rects in Hx, Hy. rewrite <- Hk in Hx, Hy.
  destruct (connect_all_Ok _ _ create_connection_x_Ok regs0 Hx) as (regs1 & H1 & Hk1).
  rewrite H1. simpl. rewrite <- Hk1 in Hy.
  destruct (connect_all_Ok _ _ create_connection_y_Ok regs1 Hy) as (regs2 & H2 & _).
  eauto.
Qed.

(** X14.  [_create_regions_toroidal] fails in two ways only: with
    UnsupportedTopology, exactly when the classifier does, and with
    IndexError, raised by a Region whose indices fall outside the spacing
    arrays.  The connection calls never raise KeyError. *)
Theorem create_regions_errors (ds : Dataset) (e : exn) :
  _create_regions_toroidal ds = Err e ->
  (e = UnsupportedTopology /\ _get_topology ds = Err UnsupportedTopology) \/
  (e = IndexError /\ exists t, _get_topology ds = Ok t).
Proof.
  rewrite create_regions_by_value. intros H.
  destruct (_get_topology ds) as [t | e'] eqn:Ht; simpl in H.
  - right. split; [| eauto].
    destruct (add_regions_value ds (br_regions (branch_of t (adjust_breakpoints (metadata ds)))) [])
      as [regs0 | e0] eqn:H0.
    + destruct (run_branch_connections_Ok ds t regs0 H0) as (regs & Hok).
      rewrite Hok in H. discriminate.
    + unfold run_branch_value in H. rewrite H0 in H. simpl in H. injection H as <-.
      eapply add_regions_Err; eassumption.
  - injection H as <-. left.
    assert (e' = UnsupportedTopology).
    { revert Ht. unfold _get_topology. split_tests; intros Herr;
        try discriminate; now injection Herr as <-. }
    subst e'. split; reflexivity.
Qed.

Lemma short_fields_fail :
  _create_regions_toroidal ds_short_fields = Err IndexError.
Proof. vm_compute. reflexivity. Qed.

Lemma create_regions_errors_witness :
  exists t, _get_topology ds_short_fields = Ok t.
Proof.
  destruct (create_regions_errors ds_short_fields IndexError short_fields_fail)
    as [(H & _) | (_ & Ht)]; [discriminate | exact Ht].
Defined.

(** ** Success of the builder *)

Lemma py_index_inside {A} (l : list A) (i : Z) :
  0 <= i < Z.of_nat (length l) -> exists x, py_index l i = Some x.
Proof.
  intros H. unfold py_index.
  destruct (Z.leb_spec 0 i); [| lia].
  destruct (Z.ltb_spec i (Z.of_nat (length l))); [| lia]. simpl.
  destruct (lookup_lt_is_Some_2 l (Z.to_nat i)) as (x & Hx); [lia | eauto].
Qed.

Lemma cumsum_from_length acc l : length (cumsum_from acc l) = length l.
Proof. revert acc. induction l as [| q l IH]; simpl; intros; [| rewrite IH]; reflexivity. Qed.

Lemma isel_y_index_inside (a : list (list Q)) (m j : Z) :
  Forall (fun row => Z.of_nat (length row) = m) a -> 0 <= j < m ->
  exists col, isel_y_index a j = Some col /\ length col = length a.
Proof.
  intros Ha Hj. unfold isel_y_index.
  induction Ha as [| row a Hrow Ha IH].
  - exists []. split; reflexivity.
  - destruct IH as (col & Hcol & Hlen).
    destruct (py_index_inside row j) as (x & Hx); [lia |].
    exists (x :: col). split; [| simpl; congruence].
    cbn [mapM]. rewrite Hx. cbn. rewrite Hcol. reflexivity.
Qed.

(** A Region whose four indices lie inside the spacing fields is created. *)
Lemma Region_coords_inside (ds : Dataset) (n m xi xo yl yu : Z) :
  has_shape (dx ds) n m -> has_shape (dy ds) n m ->
  0 <= xi < n -> 0 <= xo - 1 < n -> 0 <= yl < m -> 0 <= yu - 1 < m ->
  exists c, Region_coords ds xi xo yl yu = Some c.
Proof.
  intros (Hnx & Hdx) (Hny & Hdy) Hxi Hxo Hyl Hyu. unfold Region_coords.
  destruct (isel_y_index_inside (dx ds) m yl Hdx Hyl) as (dx1 & -> & Hlen1).
  cbn [mbind option_bind].
  assert (Hl1 : Z.of_nat (length dx1) = n) by lia.
  destruct (py_index_inside (cumsum dx1) xi) as (? & ->);
    [unfold cumsum; rewrite cumsum_from_length; lia |].
  destruct (py_index_inside dx1 xi) as (? & ->); [lia |].
  destruct (py_index_inside (cumsum dx1) (xo - 1)) as (? & ->);
    [unfold cumsum; rewrite cumsum_from_length; lia |].
  destruct (py_index_inside dx1 (xo - 1)) as (? & ->); [lia |].
  cbn [mbind option_bind]. unfold isel_x_index.
  destruct (py_index_inside (dy ds) xi) as (dy1 & Hdy1); [lia |].
  rewrite Hdy1. cbn [mbind option_bind].
  assert (Hl2 : Z.of_nat (length dy1) = m).
  { unfold py_index in Hdy1.
    destruct ((0 <=? xi) && (xi <? Z.of_nat (length (dy ds)))) eqn:E;
      [| bool_to_prop; lia].
    rewrite Forall_forall in Hdy. apply Hdy.
    eapply list_elem_of_lookup_2. exact Hdy1. }
  destruct (py_index_inside (cumsum dy1) yl) as (? & ->);
    [unfold cumsum; rewrite cumsum_from_length; lia |].
  destruct (py_index_inside dy1 yl) as (? & ->); [lia |].
  destruct (py_index_inside (cumsum dy1) (yu - 1)) as (? & ->);
    [unfold cumsum; rewrite cumsum_from_length; lia |].
  destruct (py_index_inside dy1 (yu - 1)) as (? & ->); [lia |].
  cbn [mbind option_bind]. eauto.
Qed.

Lemma add_regions_inside (ds : Dataset) (n m : Z) stmts :
  has_shape (dx ds) n m -> has_shape (dy ds) n m ->
  Forall (stmt_inside n m) stmts ->
  forall regs, exists regs', add_regions_value ds stmts regs = Ok regs'.
Proof.
  intros Hdx Hdy Hs. induction Hs as [| s stmts (H1 & H2 & H3 & H4) Hs IH];
    simpl; intros regs; [eauto |].
  unfold Region_init.
  destruct (Region_coords_inside ds n m _ _ _ _ Hdx Hdy H1 H2 H3 H4) as (c & ->).
  simpl. apply IH.
Qed.

Lemma branch_stmts_inside (t : topology) (b : breakpoints) :
  chain t b -> Forall (stmt_inside (bnx b) (bny b)) (br_regions (branch_of t b)).
Proof.
  intros Hc.
  destruct t; unfold chain, y_chain_double_null in Hc;
    cbv [branch_of br_regions disconnected_double_null_branch
         connected_double_null_branch single_null_branch limiter_branch
         core_branch sol_branch xpoint_branch same_name];
    repeat (apply Forall_cons; split;
            [unfold stmt_inside; cbn [rs_xinner rs_xouter rs_ylower rs_yupper]; lia |]);
    apply Forall_nil; exact I.
Qed.

(** X15.  For metadata ordered as the classified topology requires and
    spacing fields [dx], [dy] covering the adjusted [nx] x [ny] grid, the
    builder returns a registry: no Region index falls outside the fields
    and every connection call finds its two keys. *)
Theorem create_regions_succeeds (ds : Dataset) (t : topology) :
  _get_topology ds = Ok t ->
  metadata_ordered (metadata ds) t ->
  let b := adjust_breakpoints (metadata ds) in
  has_shape (dx ds) (bnx b) (bny b) ->
  has_shape (dy ds) (bnx b) (bny b) ->
  exists regs, _create_regions_toroidal ds = Ok regs.
Proof.
  intros Ht Ho b Hdx Hdy. rewrite create_regions_by_value. rewrite Ht. simpl.
  pose proof (breakpoints_chain _ _ (get_topology_facts _ _ Ht) Ho) as Hc.
  destruct (add_regions_inside ds _ _ _ Hdx Hdy (branch_stmts_inside t _ Hc) [])
    as (regs0 & H0).
  exact (run_branch_connections_Ok ds t regs0 H0).
Qed.

Lemma create_regions_succeeds_witness :
  exists regs, _create_regions_toroidal ds_limiter = Ok regs.
Proof.
  apply (create_regions_succeeds ds_limiter limiter).
  - reflexivity.
  - unfold metadata_ordered, separatrix_inside, xguards_removed. simpl. lia.
  - split; [reflexivity | repeat constructor].
  - split; [reflexivity | repeat constructor].
Defined.

(** ** Shape and content of the stitched arrays *)

Section StitcherShape.
Context {V : Type}.
Variable fr : DataArray V -> option string -> Z -> Z -> result (DataArray V).

Lemma py_slice_last_length {A} (l : list A) (n : Z) :
  0 < n -> Z.of_nat (length (py_slice (Slice (Some (- n)) None) l)) <= n.
Proof.
  intros Hn. unfold py_slice, slice_bounds, clip_index. cbn [start stop].
  destruct (Z.ltb_spec (- n) 0); [| lia].
  rewrite length_take, length_drop. lia.
Qed.

Lemma py_slice_first_length {A} (l : list A) (n : Z) :
  0 < n -> Z.of_nat (length (py_slice (Slice None (Some n)) l)) <= n.
Proof.
  intros Hn. unfold py_slice, slice_bounds, clip_index. cbn [start stop].
  destruct (Z.ltb_spec n 0); [lia |].
  rewrite length_take, length_drop. lia.
Qed.

Ltac open_binds :=
  repeat match goal with
  | H : bind _ _ = Ok _ |- _ =>
      let a := fresh "d" in
      let Ha := fresh "Hd" in
      apply bind_Ok in H; destruct H as (a & Ha & H)
  | H : Ok _ = Ok _ |- _ => injection H as H
  | H : (if ?c then _ else _) = Ok _ |- _ => destruct c
  end.

Lemma inner_guard_block_width (r : Region) (hc : bool)
    (g block : DataArray V) (mxg : Z) :
  0 < mxg ->
  inner_guard_block fr r hc g mxg = Ok block ->
  Z.of_nat (length (values block)) <= mxg.
Proof.
  intros Hpos H. unfold inner_guard_block in H.
  open_binds; subst;
    repeat match goal with
    | Ha : assign_coords _ _ _ = Ok _ |- _ =>
        rewrite (assign_coords_values _ _ _ _ Ha); clear Ha
    | Ha : concat_y _ _ = Ok _ |- _ =>
        apply concat_y_Ok in Ha; destruct Ha as (Ha & _ & _)
    end.
  all: cbn [values set_region isel with_values] in *.
  all: repeat match goal with
       | Ha : values ?d = _ |- _ => rewrite Ha in *; clear Ha
       end.
  all: rewrite ?length_zip_with, ?length_map.
  all: match goal with
       | |- context [py_slice (Slice (Some (- ?n)) None) ?l] =>
           pose proof (py_slice_last_length l n Hpos)
       end; lia.
Qed.

Lemma outer_guard_block_width (r : Region) (hc : bool)
    (g block : DataArray V) (mxg : Z) :
  0 < mxg ->
  outer_guard_block fr r hc g mxg = Ok block ->
  Z.of_nat (length (values block)) <= mxg.
Proof.
  intros Hpos H. unfold outer_guard_block in H.
  open_binds; subst;
    repeat match goal with
    | Ha : assign_coords _ _ _ = Ok _ |- _ =>
        rewrite (assign_coords_values _ _ _ _ Ha); clear Ha
    | Ha : concat_y _ _ = Ok _ |- _ =>
        apply concat_y_Ok in Ha; destruct Ha as (Ha & _ & _)
    end.
  all: cbn [values set_region isel with_values] in *.
  all: repeat match goal with
       | Ha : values ?d = _ |- _ => rewrite Ha in *; clear Ha
       end.
  all: rewrite ?length_zip_with, ?length_map.
  all: match goal with
       | |- context [py_slice (Slice None (Some ?n)) (values ?d)] =>
           pose proof (py_slice_first_length (values d) n Hpos)
       end; lia.
Qed.

(** X16.  For a positive guard width the inner-x stitcher returns the
    cells of [da] with a block of at most [mxg] columns joined in front,
    and the outer-x stitcher with such a block joined behind (fewer than
    [mxg] columns when the neighbour is narrower); the result carries the
    region of [da], and the x-coordinate exactly when [da] does. *)
Theorem x_stitcher_shape (da g res : DataArray V) (mxg : Z) :
  0 < mxg ->
  (_concat_inner_guards fr da g mxg = Ok res ->
     region res = region da /\
     is_not_None (xcoords res) = is_not_None (xcoords da) /\
     exists block, values res = (block ++ values da)%list /\
                   Z.of_nat (length block) <= mxg) /\
  (_concat_outer_guards fr da g mxg = Ok res ->
     region res = region da /\
     is_not_None (xcoords res) = is_not_None (xcoords da) /\
     exists block, values res = (values da ++ block)%list /\
                   Z.of_nat (length block) <= mxg).
Proof.
  intros Hpos. split; intros H.
  - rewrite concat_inner_guards_block in H.
    destruct (Z.leb_spec mxg 0); [lia |].
    unfold get_region in H. destruct (region da) as [r |] eqn:Hr; [| discriminate].
    cbn [from_option bind] in H.
    apply bind_Ok in H. destruct H as (block & Hblock & H).
    apply bind_Ok in H. destruct H as (c & Hc & H). injection H as <-.
    apply concat_x_Ok in Hc. destruct Hc as (Hv & _ & Hx).
    split; [reflexivity |]. split; [exact Hx |].
    exists (values block). split; [exact Hv |].
    eapply inner_guard_block_width; eassumption.
  - rewrite concat_outer_guards_block in H.
    destruct (Z.leb_spec mxg 0); [lia |].
    unfold get_region in H. destruct (region da) as [r |] eqn:Hr; [| discriminate].
    cbn [from_option bind] in H.
    apply bind_Ok in H. destruct H as (block & Hblock & H).
    apply bind_Ok in H. destruct H as (c & Hc & H). injection H as <-.
    apply concat_x_Ok in Hc. destruct Hc as (Hv & Hx & _).
    split; [reflexivity |]. split; [exact Hx |].
    exists (values block). split; [exact Hv |].
    eapply outer_guard_block_width; eassumption.
Qed.

(** X17.  For a positive [myg], when the lower-y (upper-y) stitcher
    returns, the neighbour array [nb] was fetched with x-guards [mxg] and
    no y-guards, and every x-column of the result is the column of [da]
    with the last (first) [myg] cells of the same column of [nb] joined
    below (above); the number of columns and the region of [da] are
    kept. *)
Theorem y_stitcher_values (da g res : DataArray V) (mxg myg : Z) :
  0 < myg ->
  (_concat_lower_guards fr da g mxg myg = Ok res ->
     exists r nb,
       region da = Some r /\ region res = Some r /\
       fr g (connection_lower_y r) mxg 0 = Ok nb /\
       values res =
       zip_with app (map (py_slice (Slice (Some (- myg)) None)) (values nb))
                    (values da) /\
       length (values res) = length (values da)) /\
  (_concat_upper_guards fr da g mxg myg = Ok res ->
     exists r nb,
       region da = Some r /\ region res = Some r /\
       fr g (connection_upper_y r) mxg 0 = Ok nb /\
       values res =
       zip_with app (values da)
                    (map (py_slice (Slice None (Some myg))) (values nb)) /\
       length (values res) = length (values da)).
Proof.
  intros Hpos. split; intros H.
  - unfold _concat_lower_guards in H.
    destruct (Z.leb_spec myg 0); [lia |].
    unfold get_region in H. destruct (region da) as [r |] eqn:Hr; [| discriminate].
    cbn [from_option bind] in H.
    apply bind_Ok in H. destruct H as (nb & Hnb & H).
    apply bind_Ok in H. destruct H as (blk & Hblk & H).
    apply bind_Ok in H. destruct H as (c & Hc & H). injection H as <-.
    exists r, nb. split; [reflexivity |]. split; [reflexivity |].
    split; [exact Hnb |].
    assert (Hv : values blk =
                 map (py_slice (Slice (Some (- myg)) None)) (values nb)).
    { destruct (is_not_None (ycoords da)).
      - apply bind_Ok in Hblk. destruct Hblk as (sl & _ & Hblk).
        destruct (slice_start (yslice sl) <? 0); [discriminate |].
        rewrite (assign_coords_values _ _ _ _ Hblk).
        cbn [values isel with_values]. now rewrite py_slice_all.
      - injection Hblk as <-. cbn [values isel with_values].
        now rewrite py_slice_all. }
    unfold concat_y in Hc.
    destruct (exact (size_x blk) (size_x da) (xcoords blk) (xcoords da)) eqn:Hex;
      [| discriminate].
    cbn [negb] in Hc. apply bind_Ok in Hc. destruct Hc as (yc & _ & Hc).
    injection Hc as <-. cbn [values set_region with_values].
    rewrite Hv. split; [reflexivity |].
    unfold exact in Hex. apply andb_true_iff in Hex. destruct Hex as [Hsz _].
    apply Nat.eqb_eq in Hsz. unfold size_x in Hsz. rewrite Hv in Hsz.
    rewrite length_zip_with. lia.
  - unfold _concat_upper_guards in H.
    destruct (Z.leb_spec myg 0); [lia |].
    unfold get_region in H. destruct (region da) as [r |] eqn:Hr; [| discriminate].
    cbn [from_option bind] in H.
    apply bind_Ok in H. destruct H as (nb & Hnb & H).
    apply bind_Ok in H. destruct H as (blk & Hblk & H).
    apply bind_Ok in H. destruct H as (c & Hc & H). injection H as <-.
    exists r, nb. split; [reflexivity |]. split; [reflexivity |].
    split; [exact Hnb |].
    assert (Hv : values blk =
                 map (py_slice (Slice None (Some myg))) (values nb)).
    { destruct (is_not_None (ycoords da)).
      - apply bind_Ok in Hblk. destruct Hblk as (sl & _ & Hblk).
        destruct (slice_stop (yslice sl) >? Z.of_nat (size_y g)); [discriminate |].
        rewrite (assign_coords_values _ _ _ _ Hblk).
        cbn [values isel with_values]. now rewrite py_slice_all.
      - injection Hblk as <-. cbn [values isel with_values].
        now rewrite py_slice_all. }
    unfold concat_y in Hc.
    destruct (exact (size_x da) (size_x blk) (xcoords da) (xcoords blk)) eqn:Hex;
      [| discriminate].
    cbn [negb] in Hc. apply bind_Ok in Hc. destruct Hc as (yc & _ & Hc).
    injection Hc as <-. cbn [values set_region with_values].
    rewrite Hv. split; [reflexivity |].
    unfold exact in Hex. apply andb_true_iff in Hex. destruct Hex as [Hsz _].
    apply Nat.eqb_eq in Hsz. unfold size_x in Hsz. rewrite Hv in Hsz.
    rewrite length_zip_with. lia.
Qed.
End StitcherShape.

Lemma x_stitcher_shape_witness :
  exists block,
    values limiter_core_stitched = (values limiter_core ++ block)%list /\
    Z.of_nat (length block) <= 2.
Proof.
  destruct (x_stitcher_shape from_region limiter_core global_limiter
              limiter_core_stitched 2 ltac:(lia)) as (_ & Houter).
  destruct (Houter limiter_core_stitched_eq) as (_ & _ & block & Hv & Hlen).
  exists block. split; assumption.
Defined.

Lemma core_bare_stitched_eq :
  _concat_lower_guards from_region core_bare global_core_bare 0 2
  = Ok core_bare_stitched.
Proof. vm_compute. reflexivity. Qed.

Lemma y_stitcher_values_witness :
  exists nb,
    values core_bare_stitched =
    zip_with app (map (py_slice (Slice (Some (- 2)) None)) (values nb))
                 (values core_bare) /\
    length (values core_bare_stitched) = length (values core_bare).
Proof.
  destruct (y_stitcher_values from_region core_bare global_core_bare
              core_bare_stitched 0 2 ltac:(lia)) as (Hlower & _).
  destruct (Hlower core_bare_stitched_eq) as (r & nb & _ & _ & _ & Hv & Hlen).
  exists nb. split; assumption.
Defined.

(** ** Coordinates of the guard cells *)

Section StitcherCoordinates.
Context {V : Type}.
Variable fr : DataArray V -> option string -> Z -> Z -> result (DataArray V).

Lemma assign_coords_xcoords (a a' : DataArray V) cx cy :
  assign_coords a cx cy = Ok a' -> xcoords a' = Some cx /\ ycoords a' = Some cy.
Proof.
  unfold assign_coords. destruct (negb _); [discriminate |].
  destruct (negb _); [discriminate |]. intros H. injection H as <-. split; reflexivity.
Qed.

Ltac open_binds :=
  repeat match goal with
  | H : bind _ _ = Ok _ |- _ =>
      let a := fresh "d" in
      let Ha := fresh "Hd" in
      apply bind_Ok in H; destruct H as (a & Ha & H)
  | H : Ok _ = Ok _ |- _ => injection H as H
  | H : (if ?c then _ else _) = Ok _ |- _ => destruct c
  end.

Ltac read_slices :=
  repeat match goal with
  | H : mk_slices ?r _ _ _ _ = Ok _ |- _ =>
      unfold mk_slices in H; destruct (coords r); [| discriminate];
      injection H as <-
  end.

Lemma inner_guard_block_xcoords (r : Region) (g block : DataArray V) (mxg : Z) :
  inner_guard_block fr r true g mxg = Ok block ->
  xcoords block =
  Some (py_slice (Slice (Some (xinner_ind r - mxg)) (Some (xinner_ind r)))
                 (xcoord_of g)).
Proof.
  intros H. unfold inner_guard_block, get_inner_guards_slices in H.
  open_binds; subst; read_slices;
    match goal with
    | Ha : assign_coords _ _ _ = Ok _ |- _ =>
        apply assign_coords_xcoords in Ha; destruct Ha as (Ha & _); exact Ha
    end.
Qed.

Lemma outer_guard_block_xcoords (r : Region) (g block : DataArray V) (mxg : Z) :
  outer_guard_block fr r true g mxg = Ok block ->
  xcoords block =
  Some (py_slice (Slice (Some (xouter_ind r)) (Some (xouter_ind r + mxg)))
                 (xcoord_of g)).
Proof.
  intros H. unfold outer_guard_block, get_outer_guards_slices in H.
  open_binds; subst; read_slices;
    match goal with
    | Ha : assign_coords _ _ _ = Ok _ |- _ =>
        apply assign_coords_xcoords in Ha; destruct Ha as (Ha & _); exact Ha
    end.
Qed.

(** X18.  When [da] carries the x-coordinate, the x-coordinate of the
    stitched array is that of [da] with the values of the global
    x-coordinate at the guard slice of the requesting region joined in
    front (inner-x: indices [xinner_ind - mxg, xinner_ind)) or behind
    (outer-x: indices [xouter_ind, xouter_ind + mxg)); the coordinate
    labels of the neighbour array are not used. *)
Theorem x_stitcher_coordinates (da g res : DataArray V) (mxg : Z)
    (r : Region) (cx : list Q) :
  0 < mxg -> region da = Some r -> xcoords da = Some cx ->
  (_concat_inner_guards fr da g mxg = Ok res ->
     xcoords res =
     Some (py_slice (Slice (Some (xinner_ind r - mxg)) (Some (xinner_ind r)))
                    (xcoord_of g) ++ cx)%list) /\
  (_concat_outer_guards fr da g mxg = Ok res ->
     xcoords res =
     Some (cx ++ py_slice (Slice (Some (xouter_ind r)) (Some (xouter_ind r + mxg)))
                          (xcoord_of g))%list).
Proof.
  intros Hpos Hr Hcx. split; intros H.
  - rewrite concat_inner_guards_block in H.
    destruct (Z.leb_spec mxg 0); [lia |].
    unfold get_region in H. rewrite Hr, Hcx in H. cbn [from_option bind is_not_None] in H.
    apply bind_Ok in H. destruct H as (block & Hblock & H).
    apply bind_Ok in H. destruct H as (c & Hc & H). injection H as <-.
    apply inner_guard_block_xcoords in Hblock.
    unfold concat_x in Hc. destruct (negb _); [discriminate |].
    rewrite Hblock, Hcx in Hc. cbn [concat_coords bind] in Hc.
    injection Hc as <-. reflexivity.
  - rewrite concat_outer_guards_block in H.
    destruct (Z.leb_spec mxg 0); [lia |].
    unfold get_region in H. rewrite Hr, Hcx in H. cbn [from_option bind is_not_None] in H.
    apply bind_Ok in H. destruct H as (block & Hblock & H).
    apply bind_Ok in H. destruct H as (c & Hc & H). injection H as <-.
    apply outer_guard_block_xcoords in Hblock.
    unfold concat_x in Hc. destruct (negb _); [discriminate |].
    rewrite Hblock, Hcx in Hc. cbn [concat_coords bind] in Hc.
    injection Hc as <-. reflexivity.
Qed.
End StitcherCoordinates.

Lemma x_stitcher_coordinates_witness :
  xcoords limiter_core_stitched =
  Some (arange 3 ++ py_slice (Slice (Some 3) (Some 5)) (arange 6))%list.
Proof.
  destruct (x_stitcher_coordinates from_region limiter_core global_limiter
              limiter_core_stitched 2 limiter_core_region (arange 3)
              ltac:(lia) eq_refl eq_refl) as (_ & Houter).
  exact (Houter limiter_core_stitched_eq).
Defined.

(** ** Region slices put together *)

Lemma py_slice_bounds {A} (l : list A) (a b : Z) :
  0 <= a <= b ->
  py_slice (Slice (Some a) (Some b)) l =
  take (Z.to_nat (Z.min b (Z.of_nat (length l)) - Z.min a (Z.of_nat (length l))))
       (drop (Z.to_nat (Z.min a (Z.of_nat (length l)))) l).
Proof.
  intros H. unfold py_slice, slice_bounds, clip_index. cbn [start stop].
  destruct (Z.ltb_spec a 0); [lia |]. destruct (Z.ltb_spec b 0); [lia |].
  reflexivity.
Qed.

Lemma py_slice_app {A} (l : list A) (a b c : Z) :
  0 <= a <= b -> b <= c ->
  (py_slice (Slice (Some a) (Some b)) l ++ py_slice (Slice (Some b) (Some c)) l)%list
  = py_slice (Slice (Some a) (Some c)) l.
Proof.
  intros Hab Hbc. rewrite !py_slice_bounds by lia.
  set (n := Z.of_nat (length l)).
  replace (Z.to_nat (Z.min b n)) with
    (Z.to_nat (Z.min a n) + Z.to_nat (Z.min b n - Z.min a n))%nat by lia.
  rewrite <- drop_drop, take_take_drop. f_equal. lia.
Qed.

(** X19.  In y, where the slip of [get_slices] does not reach: for a Region
    created with a dataset whose y-bounds are in order
    ([ylower_ind <= yupper_ind]), with [myg >= 0] and a lower guard slice
    that starts at a non-negative index ([ylower_ind - myg >= 0]), the
    cells of a column that [get_slices(mxg, myg)] selects are the cells of
    the lower guard slice (if there is a lower-y connection), then the
    interior, then the cells of the upper guard slice (if there is an
    upper-y connection).  (For a Region with [yupper_ind < ylower_ind]
    the interior is empty while the guard slices are not.) *)
Theorem y_slices_compose {A} (self : Region) (mxg myg : Z) (col : list A) :
  is_not_None (coords self) = true ->
  0 <= myg -> 0 <= ylower_ind self - myg -> ylower_ind self <= yupper_ind self ->
  exists s sl su,
    get_slices self mxg myg = Ok s /\
    get_lower_guards_slices self myg mxg = Ok sl /\
    get_upper_guards_slices self myg mxg = Ok su /\
    py_slice (yslice s) col =
    ((if is_not_None (connection_lower_y self)
      then py_slice (yslice sl) col else []) ++
     py_slice (Slice (Some (ylower_ind self)) (Some (yupper_ind self))) col ++
     (if is_not_None (connection_upper_y self)
      then py_slice (yslice su) col else []))%list.
Proof.
  intros Hc Hmyg Hlow Hle.
  unfold get_slices, get_lower_guards_slices, get_upper_guards_slices, mk_slices.
  destruct (coords self); [| discriminate].
  do 3 eexists. repeat (split; [reflexivity |]). cbn [yslice].
  destruct (connection_lower_y self), (connection_upper_y self);
    cbn [is_not_None]; rewrite ?app_nil_r; cbn [app];
    rewrite ?py_slice_app by lia; reflexivity.
Qed.

Lemma y_slices_compose_witness :
  py_slice (Slice (Some 0) (Some 12)) (seq 0 12) =
  (py_slice (Slice (Some 0) (Some 2)) (seq 0 12) ++
   py_slice (Slice (Some 2) (Some 10)) (seq 0 12) ++
   py_slice (Slice (Some 10) (Some 12)) (seq 0 12))%list.
Proof.
  destruct (y_slices_compose limiter_core_region 0 2 (seq 0 12) eq_refl
              ltac:(lia) ltac:(simpl; lia) ltac:(simpl; lia))
    as (s & sl & su & Hs & Hsl & Hsu & H).
  injection Hs as <-. injection Hsl as <-. injection Hsu as <-. exact H.
Defined.
